(** * Voter chaincode: polls, vote tokens, commit-reveal tallies

    A shallow embedding of the Go chaincode of the voter contract
    (package [auction]): the public poll contract of
    [smart-contract/thread.go], its two earlier variants (the plain
    contract and the voucher-index contract), the two variants of the
    anonymous commit-reveal contract, and the query helpers.

    Every chaincode function runs inside one transaction.  It reads the
    committed ledger through [GetState], and its [PutState] calls are
    collected in a write set that the ledger applies only when the
    function returns without error.  The embedding keeps this shape: an
    operation is a computation in the monad [M], which reads the ledger,
    accumulates the write set and the events, and ends in a value, an
    error or a Go run-time panic. *)

From Stdlib Require Import Ascii String.
From stdpp Require Import gmap strings list fin_maps.

Local Open Scope string_scope.
Local Open Scope list_scope.
Local Open Scope nat_scope.

(** ** Data model *)

(** [Thread]: the poll of the public contracts. *)
Record Thread := mkThread {
  Category : string;
  Theme : string;
  Description : string;
  Creator : string;
  Options : gmap string (list string);
  WinOption : list string;
  Status : string
}.

(** [AnonThread]: the poll of the anonymous contracts; [Votes] holds the
    commitments. *)
Record AnonThread := mkAnonThread {
  ACategory : string;
  ATheme : string;
  ADescription : string;
  ACreator : string;
  Votes : list string;
  AOptions : gmap string (list string);
  AWinOption : list string;
  AStatus : string
}.

(** [AnonVote]: the payload behind one commitment. *)
Record AnonVote := mkAnonVote {
  ThreadID : string;
  TxID : string;
  Option : string;
  PrivateKey : string
}.

(** [EndData]: the reveal payload of [EndAnonThread]. *)
Record EndData := mkEndData {
  EThreadID : string;
  Keys : list string;
  VoteTxs : list string
}.

(** [IssuedVotes]: the voucher index of the voucher-index contract.  The
    Go map may be nil after decoding, which is [None] here. *)
Record IssuedVotes := mkIssuedVotes {
  IVotes : option (gmap string bool)
}.

Definition voteKeyType : string := "vote".

(** Raw byte strings (transient payloads, token values). *)
Definition bytes := string.

(** What a ledger key holds.  The contracts store the JSON encoding of a
    [Thread], of an [AnonThread] or of an [IssuedVotes], or the raw bytes
    of a token (["vote"], ["true"], ["false"]).  The JSON encoder writes
    map keys in sorted order, so two encodings are the same bytes exactly
    when the records are equal. *)
Inductive Value :=
  | VThread (t : Thread)
  | VAnonThread (t : AnonThread)
  | VIssued (v : gmap string bool)
  | VBytes (b : bytes).

Abbreviation Ledger := (gmap string Value).

(** Result of [json.Unmarshal] into a pointer: an error, the JSON value
    [null] (the pointer becomes nil), or a decoded record. *)
Inductive json_result (A : Type) :=
  | JErr
  | JNull
  | JVal (a : A).
Arguments JErr {A}.
Arguments JNull {A}.
Arguments JVal {A} a.

(** The errors the contracts return, one per [fmt.Errorf] message. *)
Inductive error :=
  | ErrNotEnoughArguments      (* "not enough arguments" *)
  | ErrThreadExists            (* "failed to create, thread ID already exist" *)
  | ErrClientIdentity          (* "failed to get client identity" *)
  | ErrThreadDoesNotExist      (* "thread does not exist" *)
  | ErrThreadUnmarshal         (* json.Unmarshal of the stored thread failed *)
  | ErrVoteOnlyByCreator       (* "vote of this thread can only be created by creator of thread" *)
  | ErrEndOnlyByCreator        (* "thread can only be ended by creator" *)
  | ErrNotOpen                 (* "cannot join closed or ended auction" / "... thread" *)
  | ErrCloseNotOpen            (* "cannot close thread that is not open" *)
  | ErrCollectionName          (* "failed to get implicit collection name" *)
  | ErrCompositeKey            (* "failed to create composite key" *)
  | ErrUserAlreadyHasVote      (* "this user already have vote" *)
  | ErrEnrollmentID            (* error of GetAttributeValue("hf.EnrollmentID") *)
  | ErrVoteDoesNotExist        (* "vote does not exist" *)
  | ErrVoteAlreadyUsed         (* "vote already used" *)
  | ErrUnexpectedOption        (* "failed to use vote: unexpected option" *)
  | ErrEndorsement             (* "failed setting state based endorsement for new organization" *)
  | ErrTransient               (* "error getting transient" *)
  | ErrTransientKey            (* "bid key not found in the transient map" *)
  | ErrTransientUnmarshal      (* "error unmarshal vote data transient" *)
  | ErrVotesUnmarshal          (* json.Unmarshal of the voucher index failed *)
  | ErrIssuedVoteMissing       (* "this vote does no exist" *)
  | ErrIssuedVoteUsed          (* "this vote already used" *)
  | ErrGetState                (* "failed to get thread" / "failed to get vote" / "failed to get votes from state" *)
  | ErrPutState                (* "failed to put thread in public data" / "failed to update auction" / "failed to end thread" *)
  | ErrSetEvent.               (* "failed to set event of ..." *)

(** ** The transaction context *)

(** What the platform answers to one invocation.  A field of type
    [option] is [None] when the platform call returns an error.
    [rangeOrder n] is the order in which the [n]-th [range] over the
    options map of this invocation enumerates the keys: Go leaves that
    order unspecified and changes it from one [range] to the next. *)
Record Ctx := mkCtx {
  GetStringArgs : list string;
  GetTxID : string;
  submittingClientIdentity : option string;
  mspID : option string;
  collectionName : option string;
  enrollmentID : option string;
  GetTransient : option (gmap string bytes);
  endorsement : string → string → bool;
  rangeOrder : nat → list string
}.

(** The platform functions that do not depend on the invocation: the
    composite-key constructor of the ledger, the JSON codec of the two
    transient payloads, and SHA-256 followed by URL-safe base64. *)
Class Stub := {
  CreateCompositeKey : string → list string → option string;
  jsonUnmarshalAnonVote : bytes → json_result AnonVote;
  jsonMarshalAnonVote : AnonVote → bytes;
  jsonUnmarshalEndData : bytes → json_result EndData;
  sha256Base64 : bytes → string
}.

(** ** The transaction monad *)

Inductive outcome (A : Type) :=
  | Ret (a : A)
  | Err (e : error)
  | Panic.
Arguments Ret {A} a.
Arguments Err {A} e.
Arguments Panic {A}.

(** The effects of an invocation so far: the write set, in program
    order, and the events set. *)
Record Effects := mkEffects {
  writes : list (string * Value);
  events : list (string * Value)
}.

Definition noEffects : Effects := mkEffects [] [].

Definition M (A : Type) : Type := Ledger → Effects → outcome A * Effects.

Definition ret {A} (a : A) : M A := λ _ eff, (Ret a, eff).

Definition bind {A B} (c : M A) (k : A → M B) : M B :=
  λ l eff,
    match c l eff with
    | (Ret a, eff') => k a l eff'
    | (Err e, eff') => (Err e, eff')
    | (Panic, eff') => (Panic, eff')
    end.

Notation "'let*' x := c 'in' k" := (bind c (λ x, k))
  (at level 10, x name, c at level 100, k at level 200).
Notation "c ;; k" := (bind c (λ _, k))
  (at level 100, k at level 200, right associativity).

Definition fail {A} (e : error) : M A := λ _ eff, (Err e, eff).
Definition panic {A} : M A := λ _ eff, (Panic, eff).

(** [GetState] reads the committed ledger, never the write set of the
    running invocation. *)
Definition GetState (key : string) : M (option Value) :=
  λ l eff, (Ret (l !! key), eff).

(** [PutState] and [SetEvent] when the platform accepts the call; the
    calls that the platform may refuse are [Faulty.PutState] and
    [Faulty.SetEvent] below. *)
Definition PutState (key : string) (v : Value) : M unit :=
  λ _ eff, (Ret (), mkEffects (writes eff ++ [(key, v)]) (events eff)).

Definition SetEvent (name : string) (v : Value) : M unit :=
  λ _ eff, (Ret (), mkEffects (writes eff) (events eff ++ [(name, v)])).

(** A platform call that may return an error. *)
Definition orFail {A} (o : option A) (e : error) : M A :=
  match o with
  | Some a => ret a
  | None => fail e
  end.

(** [l[i]] panics when [i] is out of range. *)
Definition index (l : list string) (i : nat) : M string :=
  match l !! i with
  | Some x => ret x
  | None => panic
  end.

(** [l[n:]] panics when [n] exceeds the length. *)
Definition sliceFrom (l : list string) (n : nat) : M (list string) :=
  if decide (n ≤ length l) then ret (drop n l) else panic.

(** The ledger after an invocation with effects [eff] is committed. *)
Definition commit (l : Ledger) (eff : Effects) : Ledger :=
  foldl (λ l' kv, <[kv.1 := kv.2]> l') l (writes eff).

(** One transaction: the write set is applied when the function returns
    without error and dropped otherwise. *)
Definition invoke {A} (op : M A) (l : Ledger) : outcome A * Ledger :=
  match op l noEffects with
  | (Ret a, eff) => (Ret a, commit l eff)
  | (Err e, _) => (Err e, l)
  | (Panic, _) => (Panic, l)
  end.

(** ** Helpers shared by the contracts *)

Definition GetSubmittingClientIdentity (ctx : Ctx) : M string :=
  orFail (submittingClientIdentity ctx) ErrClientIdentity.

Definition getCollectionName (ctx : Ctx) : M string :=
  orFail (collectionName ctx) ErrCollectionName.

(** Modelled from the spec: [setAssetStateBasedEndorsement] lives in the
    utilities file, which is not part of the sources at hand.  It asks
    the platform to let the creator's organization endorse later updates
    of the key; it writes no ledger state and may return an error. *)
Definition setAssetStateBasedEndorsement (ctx : Ctx) (threadID orgID : string) : M unit :=
  if endorsement ctx threadID orgID then ret () else fail ErrEndorsement.

(** Modelled from the spec: [contains] lives in the utilities file, which
    is not part of the sources at hand.  It tells whether the label is
    one of the keys of the options map. *)
Definition contains (m : gmap string (list string)) (option : string) : bool :=
  bool_decide (is_Some (m !! option)).

(** The thread a stored value decodes to.  A [Thread] and an [AnonThread]
    share their JSON field names, so each decodes as the other, the
    commitments being dropped or left nil; the voucher index is a JSON
    object without any field of a thread and decodes to the zero thread;
    token bytes do not decode. *)
Definition decodeThread (v : Value) : option Thread :=
  match v with
  | VThread t => Some t
  | VAnonThread a =>
      Some (mkThread (ACategory a) (ATheme a) (ADescription a) (ACreator a)
                     (AOptions a) (AWinOption a) (AStatus a))
  | VIssued _ => Some (mkThread "" "" "" "" ∅ [] "")
  | VBytes _ => None
  end.

Definition decodeAnonThread (v : Value) : option AnonThread :=
  match v with
  | VThread t =>
      Some (mkAnonThread (Category t) (Theme t) (Description t) (Creator t) []
                         (Options t) (WinOption t) (Status t))
  | VAnonThread a => Some a
  | VIssued _ => None
  | VBytes _ => None
  end.

Definition QueryThread (threadID : string) : M Thread :=
  let* threadJSON := GetState threadID in
  match threadJSON with
  | None => fail ErrThreadDoesNotExist
  | Some v => orFail (decodeThread v) ErrThreadUnmarshal
  end.

Definition QueryAnonThread (threadID : string) : M AnonThread :=
  let* threadJSON := GetState threadID in
  match threadJSON with
  | None => fail ErrThreadDoesNotExist
  | Some v => orFail (decodeAnonThread v) ErrThreadUnmarshal
  end.

(** [threadOptions[option] = make([]string, 0)] for every option. *)
Definition makeOptions (options : list string) : gmap string (list string) :=
  foldl (λ m option, <[option := []]> m) ∅ options.

(** The order of one [range] over a map: every key once. *)
Definition enumerates (ord : list string) (m : gmap string (list string)) : Prop :=
  ord ≡ₚ elements (dom m).

(** [for k, v := range m], enumerating the keys in the order [ord]. *)
Definition rangeMap (ord : list string) (m : gmap string (list string))
  : list (string * list string) :=
  omap (λ k, (λ v, (k, v)) <$> m !! k) ord.

Definition rangeKeys (ord : list string) (m : gmap string (list string)) : list string :=
  (rangeMap ord m).*1.

(** The body of the winner loop, on the state [(voteAmount, winOptions)]. *)
Definition winnerStep (st : nat * list string) (kv : string * list string)
  : nat * list string :=
  let voteAmount := st.1 in
  let winOptions := st.2 in
  if decide (voteAmount < length kv.2) then
    let winOptions1 := winOptions ++ [kv.1] in
    (length kv.2, drop (length winOptions1 - 1) winOptions1)
  else if decide (length kv.2 = voteAmount) then
    (voteAmount, winOptions ++ [kv.1])
  else st.

(** The winner loop of [EndThread] and [EndAnonThread]. *)
Definition winnerScan (kvs : list (string * list string)) : list string :=
  (foldl winnerStep (0, []) kvs).2.

(** [len(data) == 5] on a stored value.  Among the values the contracts
    store only the token bytes can be five bytes long: the JSON encoding
    of a record is longer. *)
Definition lenIs5 (data : Value) : bool :=
  match data with
  | VBytes b => bool_decide (String.length b = 5)
  | _ => false
  end.

(** The voucher index a stored value decodes to.  A thread is a JSON
    object without the field [votes], which leaves the map nil. *)
Definition decodeIssuedVotes (votesJSON : option Value) : option IssuedVotes :=
  match votesJSON with
  | Some (VIssued m) => Some (mkIssuedVotes (Some m))
  | Some (VThread _) => Some (mkIssuedVotes None)
  | Some (VAnonThread _) => None
  | Some (VBytes _) => None
  | None => None
  end.

(** [vote, ok := votes.Votes[txID]]; a nil map has no entry. *)
Definition lookupVote (votes : IssuedVotes) (txID : string) : option bool :=
  match IVotes votes with
  | Some m => m !! txID
  | None => None
  end.

(** ** The public contract, [smart-contract/thread.go] *)

Module Public.
Section ops.
Context {stub : Stub}.

Definition CreateThread (ctx : Ctx) : M unit :=
  let args := GetStringArgs ctx in
  if decide (length args < 4) then fail ErrNotEnoughArguments else
  let* threadID := index args 1 in
  let* category := index args 2 in
  let* theme := index args 3 in
  let* description := index args 4 in
  let* options := sliceFrom args 5 in
  let* threadJSON := GetState threadID in
  match threadJSON with
  | Some _ => fail ErrThreadExists
  | None =>
      let* clientID := GetSubmittingClientIdentity ctx in
      let* clientOrgID := orFail (mspID ctx) ErrClientIdentity in
      let threadOptions := makeOptions options in
      let tread := mkThread category theme description clientID threadOptions [] "open" in
      PutState threadID (VThread tread) ;;
      setAssetStateBasedEndorsement ctx threadID clientOrgID ;;
      SetEvent ("CreateThread " +:+ threadID) (VThread tread)
  end.

Definition CreateVote (ctx : Ctx) (threadID userID : string) : M string :=
  let* clientID := GetSubmittingClientIdentity ctx in
  let* thread := QueryThread threadID in
  if decide (Creator thread ≠ clientID) then fail ErrVoteOnlyByCreator else
  if decide (Status thread ≠ "open") then fail ErrNotOpen else
  let* collection := getCollectionName ctx in
  let txID := GetTxID ctx in
  let* voteKey := orFail (CreateCompositeKey voteKeyType [threadID; txID; collection; userID])
                         ErrCompositeKey in
  let* res := GetState voteKey in
  match res with
  | Some _ => fail ErrUserAlreadyHasVote
  | None => PutState voteKey (VBytes "true") ;; ret txID
  end.

Definition UseVote (ctx : Ctx) (threadID txID option : string) : M unit :=
  let* thread := QueryThread threadID in
  if decide (Status thread ≠ "open") then fail ErrNotOpen else
  let* collection := getCollectionName ctx in
  let* userID := orFail (enrollmentID ctx) ErrEnrollmentID in
  let* voteKey := orFail (CreateCompositeKey voteKeyType [threadID; txID; collection; userID])
                         ErrCompositeKey in
  let* data := GetState voteKey in
  match data with
  | None => fail ErrVoteDoesNotExist
  | Some d =>
      if lenIs5 d then fail ErrVoteAlreadyUsed else
      if negb (contains (Options thread) option) then fail ErrUnexpectedOption else
      let options' := <[option := (Options thread !!! option) ++ [userID]]> (Options thread) in
      let thread' := mkThread (Category thread) (Theme thread) (Description thread)
                              (Creator thread) options' (WinOption thread) (Status thread) in
      PutState threadID (VThread thread') ;;
      PutState voteKey (VBytes "false") ;;
      SetEvent ("UseVote " +:+ threadID) (VThread thread')
  end.

Definition EndThread (ctx : Ctx) (threadID : string) : M unit :=
  let* thread := QueryThread threadID in
  let* clientID := GetSubmittingClientIdentity ctx in
  if decide (Creator thread ≠ clientID) then fail ErrEndOnlyByCreator else
  if decide (Status thread ≠ "open") then fail ErrCloseNotOpen else
  let winOptions := winnerScan (rangeMap (rangeOrder ctx 0) (Options thread)) in
  let thread' := mkThread (Category thread) (Theme thread) (Description thread)
                          (Creator thread) (Options thread) winOptions "closed" in
  PutState threadID (VThread thread') ;;
  SetEvent ("EndThread " +:+ threadID) (VThread thread').

End ops.
End Public.

(** ** The plain contract, the first variant of the public contract

    Tokens are keyed without the voter and carry no used flag. *)

Module Plain.
Section ops.
Context {stub : Stub}.

(** The text of [CreateThread] is that of the public contract. *)
Definition CreateThread (ctx : Ctx) : M unit := Public.CreateThread ctx.

Definition CreateVote (ctx : Ctx) (threadID : string) : M string :=
  let* clientID := GetSubmittingClientIdentity ctx in
  let* thread := QueryThread threadID in
  if decide (Creator thread ≠ clientID) then fail ErrVoteOnlyByCreator else
  let* collection := getCollectionName ctx in
  let txID := GetTxID ctx in
  let* voteKey := orFail (CreateCompositeKey voteKeyType [threadID; txID; collection])
                         ErrCompositeKey in
  PutState voteKey (VBytes "vote") ;;
  ret txID.

Definition UseVote (ctx : Ctx) (threadID txID option : string) : M unit :=
  let* tread := QueryThread threadID in
  if decide (Status tread ≠ "open") then fail ErrNotOpen else
  let* collection := getCollectionName ctx in
  let* voteKey := orFail (CreateCompositeKey voteKeyType [threadID; txID; collection])
                         ErrCompositeKey in
  let* data := GetState voteKey in
  match data with
  | None => fail ErrVoteDoesNotExist
  | Some _ =>
      if negb (contains (Options tread) option) then fail ErrUnexpectedOption else
      let* userID := orFail (enrollmentID ctx) ErrEnrollmentID in
      let options' := <[option := (Options tread !!! option) ++ [userID]]> (Options tread) in
      let tread' := mkThread (Category tread) (Theme tread) (Description tread)
                             (Creator tread) options' (WinOption tread) (Status tread) in
      PutState threadID (VThread tread') ;;
      SetEvent ("UseVote " +:+ threadID) (VThread tread')
  end.

(** [thread.Status] is set to ["closed"] before the winner loop and to
    ["ended"] after it; the second assignment is the one persisted. *)
Definition EndThread (ctx : Ctx) (threadID : string) : M unit :=
  let* thread := QueryThread threadID in
  let* clientID := GetSubmittingClientIdentity ctx in
  if decide (Creator thread ≠ clientID) then fail ErrEndOnlyByCreator else
  if decide (Status thread ≠ "open") then fail ErrCloseNotOpen else
  let thread1 := mkThread (Category thread) (Theme thread) (Description thread)
                          (Creator thread) (Options thread) (WinOption thread) "closed" in
  let winOptions := winnerScan (rangeMap (rangeOrder ctx 0) (Options thread1)) in
  let thread2 := mkThread (Category thread1) (Theme thread1) (Description thread1)
                          (Creator thread1) (Options thread1) winOptions "ended" in
  PutState threadID (VThread thread2) ;;
  SetEvent ("EndThread " +:+ threadID) (VThread thread2).

End ops.
End Plain.

(** ** The voucher-index contract, the second variant of the public
    contract

    Besides the token, a per-poll index [threadID_votes] maps the
    transaction identifier of every issued token to its used flag. *)

Module Voucher.
Section ops.
Context {stub : Stub}.

Definition CreateThread (ctx : Ctx) : M unit :=
  let args := GetStringArgs ctx in
  if decide (length args < 4) then fail ErrNotEnoughArguments else
  let* threadID := index args 1 in
  let* category := index args 2 in
  let* theme := index args 3 in
  let* description := index args 4 in
  let* options := sliceFrom args 5 in
  let* threadJSON := GetState threadID in
  match threadJSON with
  | Some _ => fail ErrThreadExists
  | None =>
      let* clientID := GetSubmittingClientIdentity ctx in
      let* clientOrgID := orFail (mspID ctx) ErrClientIdentity in
      let threadOptions := makeOptions options in
      let tread := mkThread category theme description clientID threadOptions [] "open" in
      PutState threadID (VThread tread) ;;
      setAssetStateBasedEndorsement ctx threadID clientOrgID ;;
      let votesKey := threadID +:+ "_votes" in
      PutState votesKey (VIssued ∅) ;;
      SetEvent ("CreateThread " +:+ threadID) (VThread tread)
  end.

Definition CreateVote (ctx : Ctx) (threadID userID : string) : M string :=
  let* clientID := GetSubmittingClientIdentity ctx in
  let* thread := QueryThread threadID in
  if decide (Creator thread ≠ clientID) then fail ErrVoteOnlyByCreator else
  let* collection := getCollectionName ctx in
  let txID := GetTxID ctx in
  let* voteKey := orFail (CreateCompositeKey voteKeyType [threadID; txID; collection; userID])
                         ErrCompositeKey in
  PutState voteKey (VBytes "vote") ;;
  let votesKey := threadID +:+ "_votes" in
  let* votesJSON := GetState votesKey in
  let* votes := orFail (decodeIssuedVotes votesJSON) ErrVotesUnmarshal in
  match IVotes votes with
  | None => panic
  | Some m =>
      PutState votesKey (VIssued (<[txID := false]> m)) ;;
      ret txID
  end.

Definition UseVote (ctx : Ctx) (threadID txID option : string) : M unit :=
  let* tread := QueryThread threadID in
  if decide (Status tread ≠ "open") then fail ErrNotOpen else
  let votesKey := threadID +:+ "_votes" in
  let* votesJSON := GetState votesKey in
  let* votes := orFail (decodeIssuedVotes votesJSON) ErrVotesUnmarshal in
  match lookupVote votes txID with
  | None => fail ErrIssuedVoteMissing
  | Some vote =>
      if (vote : bool) then fail ErrIssuedVoteUsed else
      let* collection := getCollectionName ctx in
      let* userID := orFail (enrollmentID ctx) ErrEnrollmentID in
      let* voteKey := orFail (CreateCompositeKey voteKeyType [threadID; txID; collection; userID])
                             ErrCompositeKey in
      let* data := GetState voteKey in
      match data with
      | None => fail ErrVoteDoesNotExist
      | Some _ =>
          if negb (contains (Options tread) option) then fail ErrUnexpectedOption else
          let options' := <[option := (Options tread !!! option) ++ [userID]]> (Options tread) in
          let tread' := mkThread (Category tread) (Theme tread) (Description tread)
                                 (Creator tread) options' (WinOption tread) (Status tread) in
          PutState threadID (VThread tread') ;;
          PutState votesKey (VIssued (<[txID := true]> (default ∅ (IVotes votes)))) ;;
          SetEvent ("UseVote " +:+ threadID) (VThread tread')
      end
  end.

(** The text of [EndThread] is that of the plain contract. *)
Definition EndThread (ctx : Ctx) (threadID : string) : M unit := Plain.EndThread ctx threadID.

End ops.
End Voucher.

(** ** The reveal loop of the anonymous contracts *)

Section reveal.
Context {stub : Stub}.

(** The hash of the candidate payload, as the reveal loop rebuilds it. *)
Definition calculatedVoteJSONHash (threadID tx option key : string) : string :=
  sha256Base64 (jsonMarshalAnonVote (mkAnonVote threadID tx option key)).

(** The body of the innermost loop. *)
Definition revealOption (threadID vote tx key : string)
    (options : gmap string (list string)) (option : string) : gmap string (list string) :=
  if decide (calculatedVoteJSONHash threadID tx option key = vote)
  then <[option := (options !!! option) ++ ["vote"]]> options
  else options.

(** The loops thread the number of [range]s over the map done so far
    along with the map. *)
Definition revealKey (sched : nat → list string) (threadID vote tx : string)
    (st : nat * gmap string (list string)) (key : string) : nat * gmap string (list string) :=
  (S st.1, foldl (revealOption threadID vote tx key) st.2 (rangeKeys (sched st.1) st.2)).

Definition revealTx (sched : nat → list string) (threadID : string) (keys : list string)
    (vote : string) (st : nat * gmap string (list string)) (tx : string) :=
  foldl (revealKey sched threadID vote tx) st keys.

Definition revealVote (sched : nat → list string) (threadID : string) (txs keys : list string)
    (st : nat * gmap string (list string)) (vote : string) :=
  foldl (revealTx sched threadID keys vote) st txs.

Definition revealVotes (sched : nat → list string) (threadID : string)
    (votes txs keys : list string) (st : nat * gmap string (list string)) :=
  foldl (revealVote sched threadID txs keys) st votes.

End reveal.

(** ** The anonymous contract, first variant

    Tokens are keyed without the voter and carry no used flag. *)

Module Anon.
Section ops.
Context {stub : Stub}.

Definition CreateAnonThread (ctx : Ctx) : M unit :=
  let args := GetStringArgs ctx in
  if decide (length args < 4) then fail ErrNotEnoughArguments else
  let* threadID := index args 1 in
  let* category := index args 2 in
  let* theme := index args 3 in
  let* description := index args 4 in
  let* options := sliceFrom args 5 in
  let* res := GetState threadID in
  match res with
  | Some _ => fail ErrThreadExists
  | None =>
      let* clientID := GetSubmittingClientIdentity ctx in
      let* clientOrgID := orFail (mspID ctx) ErrClientIdentity in
      let threadOptions := makeOptions options in
      let tread := mkAnonThread category theme description clientID [] threadOptions [] "open" in
      PutState threadID (VAnonThread tread) ;;
      setAssetStateBasedEndorsement ctx threadID clientOrgID ;;
      SetEvent ("CreateAnonThread " +:+ threadID) (VAnonThread tread)
  end.

Definition UseAnonVote (ctx : Ctx) : M unit :=
  let* transientMap := orFail (GetTransient ctx) ErrTransient in
  let* transientOptionJSON := orFail (transientMap !! "option") ErrTransientKey in
  match jsonUnmarshalAnonVote transientOptionJSON with
  | JErr => fail ErrTransientUnmarshal
  | JNull => panic
  | JVal vote =>
      let* tread := QueryAnonThread (ThreadID vote) in
      if decide (AStatus tread ≠ "open") then fail ErrNotOpen else
      let* collection := getCollectionName ctx in
      let* voteKey := orFail (CreateCompositeKey voteKeyType
                                [ThreadID vote; TxID vote; collection]) ErrCompositeKey in
      let* data := GetState voteKey in
      match data with
      | None => fail ErrVoteDoesNotExist
      | Some _ =>
          if negb (contains (AOptions tread) (Option vote)) then fail ErrUnexpectedOption else
          let calculatedVoteJSONHash := sha256Base64 transientOptionJSON in
          let tread' := mkAnonThread (ACategory tread) (ATheme tread) (ADescription tread)
                          (ACreator tread) (Votes tread ++ [calculatedVoteJSONHash])
                          (AOptions tread) (AWinOption tread) (AStatus tread) in
          PutState (ThreadID vote) (VAnonThread tread') ;;
          SetEvent ("UseAnonVote " +:+ ThreadID vote) (VAnonThread tread')
      end
  end.

Definition EndAnonThread (ctx : Ctx) : M unit :=
  let* transientMap := orFail (GetTransient ctx) ErrTransient in
  let* transientEndDataJSON := orFail (transientMap !! "option") ErrTransientKey in
  match jsonUnmarshalEndData transientEndDataJSON with
  | JErr => fail ErrTransientUnmarshal
  | JNull => panic
  | JVal endData =>
      let* thread := QueryAnonThread (EThreadID endData) in
      let* clientID := GetSubmittingClientIdentity ctx in
      if decide (ACreator thread ≠ clientID) then fail ErrEndOnlyByCreator else
      if decide (AStatus thread ≠ "open") then fail ErrCloseNotOpen else
      let st := revealVotes (rangeOrder ctx) (EThreadID endData) (Votes thread)
                            (VoteTxs endData) (Keys endData) (0, AOptions thread) in
      let winOptions := winnerScan (rangeMap (rangeOrder ctx st.1) st.2) in
      let thread' := mkAnonThread (ACategory thread) (ATheme thread) (ADescription thread)
                       (ACreator thread) (Votes thread) st.2 winOptions "ended" in
      PutState (EThreadID endData) (VAnonThread thread') ;;
      SetEvent ("EndAnonThread " +:+ EThreadID endData) (VAnonThread thread')
  end.

End ops.
End Anon.

(** ** The anonymous contract, second variant

    Tokens are keyed with the voter and carry the used flag of the public
    contract. *)

Module Anon2.
Section ops.
Context {stub : Stub}.

(** The text of [CreateAnonThread] is that of the first variant. *)
Definition CreateAnonThread (ctx : Ctx) : M unit := Anon.CreateAnonThread ctx.

Definition UseAnonVote (ctx : Ctx) : M unit :=
  let* transientMap := orFail (GetTransient ctx) ErrTransient in
  let* transientOptionJSON := orFail (transientMap !! "option") ErrTransientKey in
  match jsonUnmarshalAnonVote transientOptionJSON with
  | JErr => fail ErrTransientUnmarshal
  | JNull => panic
  | JVal vote =>
      let* tread := QueryAnonThread (ThreadID vote) in
      if decide (AStatus tread ≠ "open") then fail ErrNotOpen else
      let* collection := getCollectionName ctx in
      let* userID := orFail (enrollmentID ctx) ErrEnrollmentID in
      let* voteKey := orFail (CreateCompositeKey voteKeyType
                                [ThreadID vote; TxID vote; collection; userID])
                             ErrCompositeKey in
      let* data := GetState voteKey in
      match data with
      | None => fail ErrVoteDoesNotExist
      | Some d =>
          if lenIs5 d then fail ErrVoteAlreadyUsed else
          if negb (contains (AOptions tread) (Option vote)) then fail ErrUnexpectedOption else
          let calculatedVoteJSONHash := sha256Base64 transientOptionJSON in
          let tread' := mkAnonThread (ACategory tread) (ATheme tread) (ADescription tread)
                          (ACreator tread) (Votes tread ++ [calculatedVoteJSONHash])
                          (AOptions tread) (AWinOption tread) (AStatus tread) in
          PutState (ThreadID vote) (VAnonThread tread') ;;
          PutState voteKey (VBytes "false") ;;
          SetEvent ("UseAnonVote " +:+ ThreadID vote) (VAnonThread tread')
      end
  end.

Definition EndAnonThread (ctx : Ctx) : M unit :=
  let* transientMap := orFail (GetTransient ctx) ErrTransient in
  let* transientEndDataJSON := orFail (transientMap !! "option") ErrTransientKey in
  match jsonUnmarshalEndData transientEndDataJSON with
  | JErr => fail ErrTransientUnmarshal
  | JNull => panic
  | JVal endData =>
      let* thread := QueryAnonThread (EThreadID endData) in
      let* clientID := GetSubmittingClientIdentity ctx in
      if decide (ACreator thread ≠ clientID) then fail ErrEndOnlyByCreator else
      if decide (AStatus thread ≠ "open") then fail ErrCloseNotOpen else
      let st := revealVotes (rangeOrder ctx) (EThreadID endData) (Votes thread)
                            (VoteTxs endData) (Keys endData) (0, AOptions thread) in
      let winOptions := winnerScan (rangeMap (rangeOrder ctx st.1) st.2) in
      let thread' := mkAnonThread (ACategory thread) (ATheme thread) (ADescription thread)
                       (ACreator thread) (Votes thread) st.2 winOptions "closed" in
      PutState (EThreadID endData) (VAnonThread thread') ;;
      SetEvent ("EndAnonThread " +:+ EThreadID endData) (VAnonThread thread')
  end.

End ops.
End Anon2.

(** ** A stub for running the contracts on concrete inputs

    Composite keys are built the way the ledger builds them: the object
    type and every attribute are followed by the zero byte, after a
    leading zero byte, and a component that holds the zero byte is
    refused.  Payloads are encoded as their fields separated by a bar,
    lists as their elements separated by a comma, and the identity takes
    the place of the hash. *)

Definition nul : ascii := ascii_of_nat 0.

Fixpoint hasNul (s : string) : bool :=
  match s with
  | EmptyString => false
  | String c s' => if decide (c = nul) then true else hasNul s'
  end.

Definition fabricCompositeKey (objectType : string) (attributes : list string)
  : option string :=
  if forallb (λ s, negb (hasNul s)) (objectType :: attributes)
  then Some (foldl (λ ck att, ck +:+ att +:+ String nul "")
                   (String nul "" +:+ objectType +:+ String nul "") attributes)
  else None.

(** [splitOn sep s]: the fields of [s] between the separators. *)
Fixpoint splitOn (sep : ascii) (s : string) : list string :=
  match s with
  | EmptyString => [""]
  | String c s' =>
      if decide (c = sep) then "" :: splitOn sep s'
      else match splitOn sep s' with
           | [] => [String c ""]
           | f :: fs => String c f :: fs
           end
  end.

Definition joinWith (sep : string) (l : list string) : string :=
  match l with
  | [] => ""
  | x :: l' => foldl (λ acc y, acc +:+ sep +:+ y) x l'
  end.

Definition splitList (s : string) : list string :=
  if decide (s = "") then [] else splitOn ","%char s.

Definition testMarshalAnonVote (v : AnonVote) : bytes :=
  joinWith "|" [ThreadID v; TxID v; Option v; PrivateKey v].

Definition testUnmarshalAnonVote (b : bytes) : json_result AnonVote :=
  match splitOn "|"%char b with
  | [t; x; o; k] => JVal (mkAnonVote t x o k)
  | _ => JErr
  end.

Definition testUnmarshalEndData (b : bytes) : json_result EndData :=
  match splitOn "|"%char b with
  | [t; ks; xs] => JVal (mkEndData t (splitList ks) (splitList xs))
  | _ => JErr
  end.

Definition testStub : Stub := {|
  CreateCompositeKey := fabricCompositeKey;
  jsonUnmarshalAnonVote := testUnmarshalAnonVote;
  jsonMarshalAnonVote := testMarshalAnonVote;
  jsonUnmarshalEndData := testUnmarshalEndData;
  sha256Base64 := λ b, b
|}.

(** A context with every platform call answering. *)
Definition testCtx (args : list string) (txID client org user : string)
    (transient : gmap string bytes) (order : nat → list string) : Ctx :=
  mkCtx args txID (Some client) (Some org) (Some ("_implicit_org_" +:+ org)) (Some user)
        (Some transient) (λ _ _, true) order.

(** ** Specification of the winner loop *)

(** The largest vote count among the enumerated options, 0 when there is
    none. *)
Definition maxVotes (kvs : list (string * list string)) : nat :=
  foldr (λ kv m, length kv.2 `max` m) 0 kvs.

(** The labels whose vote count is the largest, in enumeration order. *)
Definition pluralityWinners (kvs : list (string * list string)) : list string :=
  (filter (λ kv, length kv.2 = maxVotes kvs) kvs).*1.

(** The vote list of [k] is at least as long as that of every option. *)
Definition attainsMax (options : gmap string (list string)) (k : string) : Prop :=
  ∃ v, options !! k = Some v ∧
       ∀ k' v', options !! k' = Some v' → length v' ≤ length v.

(** ** Specification of the reveal loop *)

(** The options map after [c o] markers were appended to every option
    [o]. *)
Definition tallied (options : gmap string (list string)) (c : string → nat)
  : gmap string (list string) :=
  map_imap (λ o l, Some (l ++ replicate (c o) "vote")) options.

Section matches.
Context {stub : Stub}.

(** The candidate triple (commitment, (transaction, key)) matches for the
    option [o]: the hash of the rebuilt payload is the commitment. *)
Definition matches (threadID o : string) (c : string * (string * string)) : Prop :=
  calculatedVoteJSONHash threadID c.2.1 o c.2.2 = c.1.

#[global] Instance matches_dec threadID o c : Decision (matches threadID o c) :=
  decide (calculatedVoteJSONHash threadID c.2.1 o c.2.2 = c.1).

(** The number of matching triples of the cross-product for the option
    [o]; an element that occurs twice in a list counts twice. *)
Definition matchCount (threadID : string) (votes txs keys : list string) (o : string) : nat :=
  length (filter (matches threadID o) (list_prod votes (list_prod txs keys))).

(** One candidate: 1 when it matches, 0 otherwise. *)
Definition keyHit (threadID vote tx o key : string) : nat :=
  if decide (calculatedVoteJSONHash threadID tx o key = vote) then 1 else 0.

(** The number of [range]s over the options map the reveal loop does:
    one per candidate (commitment, transaction, key). *)
Definition revealRanges (votes txs keys : list string) : nat :=
  length votes * (length txs * length keys).

(** The reveal payload of an invocation, when it decodes. *)
Definition endDataOf (ctx : Ctx) : option EndData :=
  match GetTransient ctx with
  | Some transientMap =>
      match transientMap !! "option" with
      | Some transientEndDataJSON =>
          match jsonUnmarshalEndData transientEndDataJSON with
          | JVal endData => Some endData
          | _ => None
          end
      | None => None
      end
  | None => None
  end.

End matches.

(** The same invocation with another enumeration order of the maps. *)
Definition withOrder (ctx : Ctx) (order : nat → list string) : Ctx :=
  mkCtx (GetStringArgs ctx) (GetTxID ctx) (submittingClientIdentity ctx) (mspID ctx)
        (collectionName ctx) (enrollmentID ctx) (GetTransient ctx) (endorsement ctx) order.

(** The same invocation with other arguments. *)
Definition withArgs (ctx : Ctx) (args : list string) : Ctx :=
  mkCtx args (GetTxID ctx) (submittingClientIdentity ctx) (mspID ctx)
        (collectionName ctx) (enrollmentID ctx) (GetTransient ctx) (endorsement ctx)
        (rangeOrder ctx).

(** ** Comparing two runs of a close operation *)

(** Two stored values that are equal but for the order of the winners,
    which hold the same labels, each once. *)
Definition sameUpToWinnerOrder (v1 v2 : Value) : Prop :=
  match v1, v2 with
  | VThread t1, VThread t2 =>
      Category t1 = Category t2 ∧ Theme t1 = Theme t2 ∧
      Description t1 = Description t2 ∧ Creator t1 = Creator t2 ∧
      Options t1 = Options t2 ∧ WinOption t1 ≡ₚ WinOption t2 ∧
      NoDup (WinOption t1) ∧ NoDup (WinOption t2) ∧
      Status t1 = Status t2
  | VAnonThread t1, VAnonThread t2 =>
      ACategory t1 = ACategory t2 ∧ ATheme t1 = ATheme t2 ∧
      ADescription t1 = ADescription t2 ∧ ACreator t1 = ACreator t2 ∧
      Votes t1 = Votes t2 ∧ AOptions t1 = AOptions t2 ∧
      AWinOption t1 ≡ₚ AWinOption t2 ∧
      NoDup (AWinOption t1) ∧ NoDup (AWinOption t2) ∧ AStatus t1 = AStatus t2
  | _, _ => v1 = v2
  end.

Definition sameEntry (e1 e2 : string * Value) : Prop :=
  e1.1 = e2.1 ∧ sameUpToWinnerOrder e1.2 e2.2.

(** Two runs end alike and write and emit the same entries, but for the
    order of the winners. *)
Definition sameClose (r1 r2 : outcome unit * Effects) : Prop :=
  r1.1 = r2.1 ∧
  Forall2 sameEntry (writes r1.2) (writes r2.2) ∧
  Forall2 sameEntry (events r1.2) (events r2.2).

(** ** The contracts as state machines over the ledger *)

(** A call of one of the four operations of a public contract. *)
Inductive call :=
  | CallCreateThread
  | CallCreateVote (threadID userID : string)
  | CallUseVote (threadID txID option : string)
  | CallEndThread (threadID : string).

Section machines.
Context {stub : Stub}.

Definition publicRun (ctx : Ctx) (c : call) : M unit :=
  match c with
  | CallCreateThread => Public.CreateThread ctx
  | CallCreateVote threadID userID => Public.CreateVote ctx threadID userID ;; ret ()
  | CallUseVote threadID txID option => Public.UseVote ctx threadID txID option
  | CallEndThread threadID => Public.EndThread ctx threadID
  end.

(** [CreateVote] of the plain contract takes no recipient. *)
Definition plainRun (ctx : Ctx) (c : call) : M unit :=
  match c with
  | CallCreateThread => Plain.CreateThread ctx
  | CallCreateVote threadID _ => Plain.CreateVote ctx threadID ;; ret ()
  | CallUseVote threadID txID option => Plain.UseVote ctx threadID txID option
  | CallEndThread threadID => Plain.EndThread ctx threadID
  end.

End machines.

(** The ledgers a contract reaches from the empty ledger, one
    transaction after the other, failed ones included. *)
Inductive reachable (run : Ctx → call → M unit) : Ledger → Prop :=
  | reachable_empty : reachable run ∅
  | reachable_invoke l ctx c o l' :
      reachable run l → invoke (run ctx c) l = (o, l') → reachable run l'.

(** A stored value is a token, or a poll whose status is [s1] or [s2]. *)
Definition statusWithin (s1 s2 : string) (v : Value) : Prop :=
  match v with
  | VThread t => Status t = s1 ∨ Status t = s2
  | VBytes _ => True
  | _ => False
  end.

(** ** Sample polls and invocations *)

(** An open poll of [alice] with the options [A] and [B]. *)
Definition pollAB (a b : list string) : Thread :=
  mkThread "category" "theme" "description" "alice" {[ "A" := a; "B" := b ]} [] "open".

Definition anonPollAB (votes a b : list string) : AnonThread :=
  mkAnonThread "category" "theme" "description" "alice" votes {[ "A" := a; "B" := b ]} [] "open".

Definition orderAB : nat → list string := λ _, ["A"; "B"].
Definition orderBA : nat → list string := λ _, ["B"; "A"].

(** An invocation by [client], enrolled as [user] in [Org1MSP]. *)
Definition sampleCtx (args : list string) (txID client user : string)
    (transient : gmap string bytes) (order : nat → list string) : Ctx :=
  testCtx args txID client "Org1MSP" user transient order.

Definition aliceCtx (order : nat → list string) : Ctx :=
  sampleCtx [] "tx9" "alice" "alice" ∅ order.

(** A ledger with the public poll [P1], tied between [A] and [B], and the
    anonymous poll [P2] holding the commitment of a vote for [A]. *)
Definition tiedLedger : Ledger :=
  {[ "P1" := VThread (pollAB ["x"] ["y"]);
     "P2" := VAnonThread (anonPollAB ["P2|tx1|A|s1"] [] []) ]}.

(** The same ledger with [A] ahead in [P1]. *)
Definition sampleLedger : Ledger :=
  {[ "P1" := VThread (pollAB ["x"; "y"] ["z"]);
     "P2" := VAnonThread (anonPollAB ["P2|tx1|A|s1"] [] []) ]}.

(** The creator closing [P2] with the secret [s1] and the transaction
    [tx1]. *)
Definition revealCtx (order : nat → list string) : Ctx :=
  sampleCtx [] "tx9" "alice" "alice" {[ "option" := "P2|s1|tx1" ]} order.

(** A ledger with the anonymous poll [P2], still without commitments,
    and the token of the transaction [tx1] for the organization. *)
Definition tokenKey : string :=
  Eval vm_compute in
    default "" (fabricCompositeKey voteKeyType ["P2"; "tx1"; "_implicit_org_Org1MSP"]).

Definition commitLedger : Ledger :=
  {[ "P2" := VAnonThread (anonPollAB [] [] []); tokenKey := VBytes "vote" ]}.

(** A voter committing a vote for [A] on [P2] under the secret [s1]. *)
Definition commitCtx : Ctx :=
  sampleCtx [] "tx5" "bob" "bob" {[ "option" := "P2|tx1|A|s1" ]} orderAB.

(** The creator closing [P2] with the secret [s1] listed twice. *)
Definition doubleRevealCtx : Ctx :=
  sampleCtx [] "tx9" "alice" "alice" {[ "option" := "P2|s1,s1|tx1" ]} orderBA.

(** The open poll [P1] without votes, and the creator issuing a token in
    the transaction [txID]. *)
Definition issueLedger : Ledger := {[ "P1" := VThread (pollAB [] []) ]}.

Definition issueCtx (txID : string) : Ctx :=
  sampleCtx [] txID "alice" "alice" ∅ orderAB.

(** The keys of the tokens that the transactions [tx1] and [tx2] issue to
    [bob] on [P1] in the public contract. *)
Definition bobKey1 : string :=
  Eval vm_compute in
    default "" (fabricCompositeKey voteKeyType ["P1"; "tx1"; "_implicit_org_Org1MSP"; "bob"]).

Definition bobKey2 : string :=
  Eval vm_compute in
    default "" (fabricCompositeKey voteKeyType ["P1"; "tx2"; "_implicit_org_Org1MSP"; "bob"]).

(** The token of the plain contract for the transaction [tx1] on [P1]. *)
Definition plainKey1 : string :=
  Eval vm_compute in
    default "" (fabricCompositeKey voteKeyType ["P1"; "tx1"; "_implicit_org_Org1MSP"]).

Definition plainLedger : Ledger :=
  {[ "P1" := VThread (pollAB [] []); plainKey1 := VBytes "vote" ]}.

(** The voter [bob]. *)
Definition bobCtx : Ctx := sampleCtx [] "tx7" "bob" "bob" ∅ orderAB.

(** The ledger of the public contract after [P1] was created and a token
    issued to [bob] in the transaction [tx1]. *)
Definition publicLedger : Ledger :=
  {[ "P1" := VThread (pollAB [] []); bobKey1 := VBytes "true" ]}.

(** [alice] creating the poll [P1] with the options [A] and [B]. *)
Definition createArgs : list string :=
  ["CreateThread"; "P1"; "category"; "theme"; "description"; "A"; "B"].

Definition createCtx : Ctx :=
  sampleCtx createArgs "tx0" "alice" "alice" ∅ orderAB.

(** ** Specification of a cast *)

(** [thread'] is [thread] after [userID] voted for [option]: the label
    was a key, its vote list got [userID] appended, and nothing else
    changed. *)
Definition castOn (thread : Thread) (option userID : string) (thread' : Thread) : Prop :=
  Category thread' = Category thread ∧ Theme thread' = Theme thread ∧
  Description thread' = Description thread ∧ Creator thread' = Creator thread ∧
  WinOption thread' = WinOption thread ∧ Status thread' = Status thread ∧
  dom (Options thread') = dom (Options thread) ∧
  (∃ votes, Options thread !! option = Some votes ∧
            Options thread' !! option = Some (votes ++ [userID])) ∧
  (∀ o, o ≠ option → Options thread' !! o = Options thread !! o).

(** A stored value is a token, or a poll that has no winner while it is
    open and whose winners are among its option labels. *)
Definition winnersWithin (v : Value) : Prop :=
  match v with
  | VThread t =>
      (Status t = "open" → WinOption t = []) ∧
      (∀ k, k ∈ WinOption t → is_Some (Options t !! k))
  | VBytes _ => True
  | _ => False
  end.

(** ** Sample data for the anonymous contracts *)

(** The token of [bob] for the transaction [tx1] on [P2], as the public
    [CreateVote] issues it. *)
Definition anonBobKey : string :=
  Eval vm_compute in
    default "" (fabricCompositeKey voteKeyType ["P2"; "tx1"; "_implicit_org_Org1MSP"; "bob"]).

(** The anonymous poll [P2] with the unused token of [bob]. *)
Definition anon2Ledger : Ledger :=
  {[ "P2" := VAnonThread (anonPollAB [] [] []); anonBobKey := VBytes "true" ]}.

(** The poll [P1] of the voucher-index contract with the voucher of the
    transaction [tx1] issued to [bob]. *)
Definition voucherLedger : Ledger :=
  {[ "P1" := VThread (pollAB [] []);
     "P1_votes" := VIssued {[ "tx1" := false ]};
     bobKey1 := VBytes "vote" ]}.

(** The poll [P1] after the plain contract ended it, and the poll with
    its voucher index after the voucher-index contract ended it. *)
Definition endedPoll : Thread :=
  mkThread "category" "theme" "description" "alice" {[ "A" := ["x"]; "B" := [] ]} ["A"] "ended".

Definition endedLedger : Ledger :=
  {[ "P1" := VThread endedPoll; "P1_votes" := VIssued ∅ ]}.

(** The ledger of the public contract after [bob] voted for [A] on
    [P1], and after the creator then closed the poll. *)
Definition usedLedger : Ledger :=
  {[ "P1" := VThread (pollAB ["bob"] []); bobKey1 := VBytes "false" ]}.

Definition closedPoll : Thread :=
  mkThread "category" "theme" "description" "alice" {[ "A" := ["bob"]; "B" := [] ]} ["A"]
           "closed".

Definition closedLedger : Ledger :=
  {[ "P1" := VThread closedPoll; bobKey1 := VBytes "false" ]}.

(** The anonymous poll [P2] holding the given commitments, and the
    creator closing it with the keys and the transactions listed in one
    order and in the other. *)
Definition votesLedger (votes : list string) : Ledger :=
  {[ "P2" := VAnonThread (anonPollAB votes [] []) ]}.

Definition revealCtx12 : Ctx :=
  sampleCtx [] "tx9" "alice" "alice" {[ "option" := "P2|s1,s2|tx1,tx2" ]} orderAB.

Definition revealCtx21 : Ctx :=
  sampleCtx [] "tx9" "alice" "alice" {[ "option" := "P2|s2,s1|tx2,tx1" ]} orderBA.

(** The poll [P1] of the voucher-index contract as [CreateThread] leaves
    it, with the empty voucher index. *)
Definition indexLedger : Ledger :=
  {[ "P1" := VThread (pollAB [] []); "P1_votes" := VIssued ∅ ]}.

(** ** Ledger calls that return an error

    [GetState], [PutState] and [SetEvent] return an error in Go, and
    every call site returns on it.  The contracts above are read with
    ledger calls that succeed.  The module [Faulty] keeps the text of
    every operation and lets the platform refuse a call: what is left of
    the invocation is then skipped and the error returned, with the
    writes made so far still in the write set. *)

(** What the platform answers to the ledger calls of one invocation. *)
Record Platform := mkPlatform {
  getStateOk : string → bool;
  putStateOk : string → Value → bool;
  setEventOk : string → Value → bool
}.

(** The platform on which every ledger call succeeds. *)
Definition reliable : Platform := mkPlatform (λ _, true) (λ _ _, true) (λ _ _, true).

Module Faulty.

Definition GetState (P : Platform) (key : string) : M (option Value) :=
  if getStateOk P key then GetState key else fail ErrGetState.

Definition PutState (P : Platform) (key : string) (v : Value) : M unit :=
  if putStateOk P key v then PutState key v else fail ErrPutState.

Definition SetEvent (P : Platform) (name : string) (v : Value) : M unit :=
  if setEventOk P name v then SetEvent name v else fail ErrSetEvent.

Definition QueryThread (P : Platform) (threadID : string) : M Thread :=
  let* threadJSON := GetState P threadID in
  match threadJSON with
  | None => fail ErrThreadDoesNotExist
  | Some v => orFail (decodeThread v) ErrThreadUnmarshal
  end.

Definition QueryAnonThread (P : Platform) (threadID : string) : M AnonThread :=
  let* threadJSON := GetState P threadID in
  match threadJSON with
  | None => fail ErrThreadDoesNotExist
  | Some v => orFail (decodeAnonThread v) ErrThreadUnmarshal
  end.

Module Public.
Section ops.
Context {stub : Stub} (P : Platform).

Definition CreateThread (ctx : Ctx) : M unit :=
  let args := GetStringArgs ctx in
  if decide (length args < 4) then fail ErrNotEnoughArguments else
  let* threadID := index args 1 in
  let* category := index args 2 in
  let* theme := index args 3 in
  let* description := index args 4 in
  let* options := sliceFrom args 5 in
  let* threadJSON := GetState P threadID in
  match threadJSON with
  | Some _ => fail ErrThreadExists
  | None =>
      let* clientID := GetSubmittingClientIdentity ctx in
      let* clientOrgID := orFail (mspID ctx) ErrClientIdentity in
      let threadOptions := makeOptions options in
      let tread := mkThread category theme description clientID threadOptions [] "open" in
      PutState P threadID (VThread tread) ;;
      setAssetStateBasedEndorsement ctx threadID clientOrgID ;;
      SetEvent P ("CreateThread " +:+ threadID) (VThread tread)
  end.

Definition CreateVote (ctx : Ctx) (threadID userID : string) : M string :=
  let* clientID := GetSubmittingClientIdentity ctx in
  let* thread := QueryThread P threadID in
  if decide (Creator thread ≠ clientID) then fail ErrVoteOnlyByCreator else
  if decide (Status thread ≠ "open") then fail ErrNotOpen else
  let* collection := getCollectionName ctx in
  let txID := GetTxID ctx in
  let* voteKey := orFail (CreateCompositeKey voteKeyType [threadID; txID; collection; userID])
                         ErrCompositeKey in
  let* res := GetState P voteKey in
  match res with
  | Some _ => fail ErrUserAlreadyHasVote
  | None => PutState P voteKey (VBytes "true") ;; ret txID
  end.

Definition UseVote (ctx : Ctx) (threadID txID option : string) : M unit :=
  let* thread := QueryThread P threadID in
  if decide (Status thread ≠ "open") then fail ErrNotOpen else
  let* collection := getCollectionName ctx in
  let* userID := orFail (enrollmentID ctx) ErrEnrollmentID in
  let* voteKey := orFail (CreateCompositeKey voteKeyType [threadID; txID; collection; userID])
                         ErrCompositeKey in
  let* data := GetState P voteKey in
  match data with
  | None => fail ErrVoteDoesNotExist
  | Some d =>
      if lenIs5 d then fail ErrVoteAlreadyUsed else
      if negb (contains (Options thread) option) then fail ErrUnexpectedOption else
      let options' := <[option := (Options thread !!! option) ++ [userID]]> (Options thread) in
      let thread' := mkThread (Category thread) (Theme thread) (Description thread)
                              (Creator thread) options' (WinOption thread) (Status thread) in
      PutState P threadID (VThread thread') ;;
      PutState P voteKey (VBytes "false") ;;
      SetEvent P ("UseVote " +:+ threadID) (VThread thread')
  end.

Definition EndThread (ctx : Ctx) (threadID : string) : M unit :=
  let* thread := QueryThread P threadID in
  let* clientID := GetSubmittingClientIdentity ctx in
  if decide (Creator thread ≠ clientID) then fail ErrEndOnlyByCreator else
  if decide (Status thread ≠ "open") then fail ErrCloseNotOpen else
  let winOptions := winnerScan (rangeMap (rangeOrder ctx 0) (Options thread)) in
  let thread' := mkThread (Category thread) (Theme thread) (Description thread)
                          (Creator thread) (Options thread) winOptions "closed" in
  PutState P threadID (VThread thread') ;;
  SetEvent P ("EndThread " +:+ threadID) (VThread thread').

End ops.
End Public.

Module Plain.
Section ops.
Context {stub : Stub} (P : Platform).

Definition CreateThread (ctx : Ctx) : M unit := Public.CreateThread P ctx.

Definition CreateVote (ctx : Ctx) (threadID : string) : M string :=
  let* clientID := GetSubmittingClientIdentity ctx in
  let* thread := QueryThread P threadID in
  if decide (Creator thread ≠ clientID) then fail ErrVoteOnlyByCreator else
  let* collection := getCollectionName ctx in
  let txID := GetTxID ctx in
  let* voteKey := orFail (CreateCompositeKey voteKeyType [threadID; txID; collection])
                         ErrCompositeKey in
  PutState P voteKey (VBytes "vote") ;;
  ret txID.

Definition UseVote (ctx : Ctx) (threadID txID option : string) : M unit :=
  let* tread := QueryThread P threadID in
  if decide (Status tread ≠ "open") then fail ErrNotOpen else
  let* collection := getCollectionName ctx in
  let* voteKey := orFail (CreateCompositeKey voteKeyType [threadID; txID; collection])
                         ErrCompositeKey in
  let* data := GetState P voteKey in
  match data with
  | None => fail ErrVoteDoesNotExist
  | Some _ =>
      if negb (contains (Options tread) option) then fail ErrUnexpectedOption else
      let* userID := orFail (enrollmentID ctx) ErrEnrollmentID in
      let options' := <[option := (Options tread !!! option) ++ [userID]]> (Options tread) in
      let tread' := mkThread (Category tread) (Theme tread) (Description tread)
                             (Creator tread) options' (WinOption tread) (Status tread) in
      PutState P threadID (VThread tread') ;;
      SetEvent P ("UseVote " +:+ threadID) (VThread tread')
  end.

Definition EndThread (ctx : Ctx) (threadID : string) : M unit :=
  let* thread := QueryThread P threadID in
  let* clientID := GetSubmittingClientIdentity ctx in
  if decide (Creator thread ≠ clientID) then fail ErrEndOnlyByCreator else
  if decide (Status thread ≠ "open") then fail ErrCloseNotOpen else
  let thread1 := mkThread (Category thread) (Theme thread) (Description thread)
                          (Creator thread) (Options thread) (WinOption thread) "closed" in
  let winOptions := winnerScan (rangeMap (rangeOrder ctx 0) (Options thread1)) in
  let thread2 := mkThread (Category thread1) (Theme thread1) (Description thread1)
                          (Creator thread1) (Options thread1) winOptions "ended" in
  PutState P threadID (VThread thread2) ;;
  SetEvent P ("EndThread " +:+ threadID) (VThread thread2).

End ops.
End Plain.

Module Voucher.
Section ops.
Context {stub : Stub} (P : Platform).

Definition CreateThread (ctx : Ctx) : M unit :=
  let args := GetStringArgs ctx in
  if decide (length args < 4) then fail ErrNotEnoughArguments else
  let* threadID := index args 1 in
  let* category := index args 2 in
  let* theme := index args 3 in
  let* description := index args 4 in
  let* options := sliceFrom args 5 in
  let* threadJSON := GetState P threadID in
  match threadJSON with
  | Some _ => fail ErrThreadExists
  | None =>
      let* clientID := GetSubmittingClientIdentity ctx in
      let* clientOrgID := orFail (mspID ctx) ErrClientIdentity in
      let threadOptions := makeOptions options in
      let tread := mkThread category theme description clientID threadOptions [] "open" in
      PutState P threadID (VThread tread) ;;
      setAssetStateBasedEndorsement ctx threadID clientOrgID ;;
      let votesKey := threadID +:+ "_votes" in
      PutState P votesKey (VIssued ∅) ;;
      SetEvent P ("CreateThread " +:+ threadID) (VThread tread)
  end.

Definition CreateVote (ctx : Ctx) (threadID userID : string) : M string :=
  let* clientID := GetSubmittingClientIdentity ctx in
  let* thread := QueryThread P threadID in
  if decide (Creator thread ≠ clientID) then fail ErrVoteOnlyByCreator else
  let* collection := getCollectionName ctx in
  let txID := GetTxID ctx in
  let* voteKey := orFail (CreateCompositeKey voteKeyType [threadID; txID; collection; userID])
                         ErrCompositeKey in
  PutState P voteKey (VBytes "vote") ;;
  let votesKey := threadID +:+ "_votes" in
  let* votesJSON := GetState P votesKey in
  let* votes := orFail (decodeIssuedVotes votesJSON) ErrVotesUnmarshal in
  match IVotes votes with
  | None => panic
  | Some m =>
      PutState P votesKey (VIssued (<[txID := false]> m)) ;;
      ret txID
  end.

Definition UseVote (ctx : Ctx) (threadID txID option : string) : M unit :=
  let* tread := QueryThread P threadID in
  if decide (Status tread ≠ "open") then fail ErrNotOpen else
  let votesKey := threadID +:+ "_votes" in
  let* votesJSON := GetState P votesKey in
  let* votes := orFail (decodeIssuedVotes votesJSON) ErrVotesUnmarshal in
  match lookupVote votes txID with
  | None => fail ErrIssuedVoteMissing
  | Some vote =>
      if (vote : bool) then fail ErrIssuedVoteUsed else
      let* collection := getCollectionName ctx in
      let* userID := orFail (enrollmentID ctx) ErrEnrollmentID in
      let* voteKey := orFail (CreateCompositeKey voteKeyType [threadID; txID; collection; userID])
                             ErrCompositeKey in
      let* data := GetState P voteKey in
      match data with
      | None => fail ErrVoteDoesNotExist
      | Some _ =>
          if negb (contains (Options tread) option) then fail ErrUnexpectedOption else
          let options' := <[option := (Options tread !!! option) ++ [userID]]> (Options tread) in
          let tread' := mkThread (Category tread) (Theme tread) (Description tread)
                                 (Creator tread) options' (WinOption tread) (Status tread) in
          PutState P threadID (VThread tread') ;;
          PutState P votesKey (VIssued (<[txID := true]> (default ∅ (IVotes votes)))) ;;
          SetEvent P ("UseVote " +:+ threadID) (VThread tread')
      end
  end.

Definition EndThread (ctx : Ctx) (threadID : string) : M unit := Plain.EndThread P ctx threadID.

End ops.
End Voucher.

Module Anon.
Section ops.
Context {stub : Stub} (P : Platform).

Definition CreateAnonThread (ctx : Ctx) : M unit :=
  let args := GetStringArgs ctx in
  if decide (length args < 4) then fail ErrNotEnoughArguments else
  let* threadID := index args 1 in
  let* category := index args 2 in
  let* theme := index args 3 in
  let* description := index args 4 in
  let* options := sliceFrom args 5 in
  let* res := GetState P threadID in
  match res with
  | Some _ => fail ErrThreadExists
  | None =>
      let* clientID := GetSubmittingClientIdentity ctx in
      let* clientOrgID := orFail (mspID ctx) ErrClientIdentity in
      let threadOptions := makeOptions options in
      let tread := mkAnonThread category theme description clientID [] threadOptions [] "open" in
      PutState P threadID (VAnonThread tread) ;;
      setAssetStateBasedEndorsement ctx threadID clientOrgID ;;
      SetEvent P ("CreateAnonThread " +:+ threadID) (VAnonThread tread)
  end.

Definition UseAnonVote (ctx : Ctx) : M unit :=
  let* transientMap := orFail (GetTransient ctx) ErrTransient in
  let* transientOptionJSON := orFail (transientMap !! "option") ErrTransientKey in
  match jsonUnmarshalAnonVote transientOptionJSON with
  | JErr => fail ErrTransientUnmarshal
  | JNull => panic
  | JVal vote =>
      let* tread := QueryAnonThread P (ThreadID vote) in
      if decide (AStatus tread ≠ "open") then fail ErrNotOpen else
      let* collection := getCollectionName ctx in
      let* voteKey := orFail (CreateCompositeKey voteKeyType
                                [ThreadID vote; TxID vote; collection]) ErrCompositeKey in
      let* data := GetState P voteKey in
      match data with
      | None => fail ErrVoteDoesNotExist
      | Some _ =>
          if negb (contains (AOptions tread) (Option vote)) then fail ErrUnexpectedOption else
          let calculatedVoteJSONHash := sha256Base64 transientOptionJSON in
          let tread' := mkAnonThread (ACategory tread) (ATheme tread) (ADescription tread)
                          (ACreator tread) (Votes tread ++ [calculatedVoteJSONHash])
                          (AOptions tread) (AWinOption tread) (AStatus tread) in
          PutState P (ThreadID vote) (VAnonThread tread') ;;
          SetEvent P ("UseAnonVote " +:+ ThreadID vote) (VAnonThread tread')
      end
  end.

Definition EndAnonThread (ctx : Ctx) : M unit :=
  let* transientMap := orFail (GetTransient ctx) ErrTransient in
  let* transientEndDataJSON := orFail (transientMap !! "option") ErrTransientKey in
  match jsonUnmarshalEndData transientEndDataJSON with
  | JErr => fail ErrTransientUnmarshal
  | JNull => panic
  | JVal endData =>
      let* thread := QueryAnonThread P (EThreadID endData) in
      let* clientID := GetSubmittingClientIdentity ctx in
      if decide (ACreator thread ≠ clientID) then fail ErrEndOnlyByCreator else
      if decide (AStatus thread ≠ "open") then fail ErrCloseNotOpen else
      let st := revealVotes (rangeOrder ctx) (EThreadID endData) (Votes thread)
                            (VoteTxs endData) (Keys endData) (0, AOptions thread) in
      let winOptions := winnerScan (rangeMap (rangeOrder ctx st.1) st.2) in
      let thread' := mkAnonThread (ACategory thread) (ATheme thread) (ADescription thread)
                       (ACreator thread) (Votes thread) st.2 winOptions "ended" in
      PutState P (EThreadID endData) (VAnonThread thread') ;;
      SetEvent P ("EndAnonThread " +:+ EThreadID endData) (VAnonThread thread')
  end.

End ops.
End Anon.

Module Anon2.
Section ops.
Context {stub : Stub} (P : Platform).

Definition CreateAnonThread (ctx : Ctx) : M unit := Anon.CreateAnonThread P ctx.

Definition UseAnonVote (ctx : Ctx) : M unit :=
  let* transientMap := orFail (GetTransient ctx) ErrTransient in
  let* transientOptionJSON := orFail (transientMap !! "option") ErrTransientKey in
  match jsonUnmarshalAnonVote transientOptionJSON with
  | JErr => fail ErrTransientUnmarshal
  | JNull => panic
  | JVal vote =>
      let* tread := QueryAnonThread P (ThreadID vote) in
      if decide (AStatus tread ≠ "open") then fail ErrNotOpen else
      let* collection := getCollectionName ctx in
      let* userID := orFail (enrollmentID ctx) ErrEnrollmentID in
      let* voteKey := orFail (CreateCompositeKey voteKeyType
                                [ThreadID vote; TxID vote; collection; userID])
                             ErrCompositeKey in
      let* data := GetState P voteKey in
      match data with
      | None => fail ErrVoteDoesNotExist
      | Some d =>
          if lenIs5 d then fail ErrVoteAlreadyUsed else
          if negb (contains (AOptions tread) (Option vote)) then fail ErrUnexpectedOption else
          let calculatedVoteJSONHash := sha256Base64 transientOptionJSON in
          let tread' := mkAnonThread (ACategory tread) (ATheme tread) (ADescription tread)
                          (ACreator tread) (Votes tread ++ [calculatedVoteJSONHash])
                          (AOptions tread) (AWinOption tread) (AStatus tread) in
          PutState P (ThreadID vote) (VAnonThread tread') ;;
          PutState P voteKey (VBytes "false") ;;
          SetEvent P ("UseAnonVote " +:+ ThreadID vote) (VAnonThread tread')
      end
  end.

Definition EndAnonThread (ctx : Ctx) : M unit :=
  let* transientMap := orFail (GetTransient ctx) ErrTransient in
  let* transientEndDataJSON := orFail (transientMap !! "option") ErrTransientKey in
  match jsonUnmarshalEndData transientEndDataJSON with
  | JErr => fail ErrTransientUnmarshal
  | JNull => panic
  | JVal endData =>
      let* thread := QueryAnonThread P (EThreadID endData) in
      let* clientID := GetSubmittingClientIdentity ctx in
      if decide (ACreator thread ≠ clientID) then fail ErrEndOnlyByCreator else
      if decide (AStatus thread ≠ "open") then fail ErrCloseNotOpen else
      let st := revealVotes (rangeOrder ctx) (EThreadID endData) (Votes thread)
                            (VoteTxs endData) (Keys endData) (0, AOptions thread) in
      let winOptions := winnerScan (rangeMap (rangeOrder ctx st.1) st.2) in
      let thread' := mkAnonThread (ACategory thread) (ATheme thread) (ADescription thread)
                       (ACreator thread) (Votes thread) st.2 winOptions "closed" in
      PutState P (EThreadID endData) (VAnonThread thread') ;;
      SetEvent P ("EndAnonThread " +:+ EThreadID endData) (VAnonThread thread')
  end.

End ops.
End Anon2.

End Faulty.

(** ** The operations and their failures *)


Section operations.
Context {stub : Stub}.


End operations.



(** A platform that refuses every write under [key] and answers every
    other call. *)
Definition tokenRefused (key : string) : Platform :=
  mkPlatform (λ _, true) (λ k _, negb (String.eqb k key)) (λ _ _, true).

(** ** The winner loop computes the plurality winners *)

Lemma elements_dom_map_to_list (m : gmap string (list string)) :
  elements (dom m) ≡ₚ (map_to_list m).*1.
Proof.
  apply NoDup_Permutation.
  - apply NoDup_elements.
  - apply NoDup_fst_map_to_list.
  - intros k. rewrite elem_of_elements, elem_of_dom, list_elem_of_fmap. split.
    + intros [v Hv]. exists (k, v). split; [done |]. by apply elem_of_map_to_list.
    + intros [[k' v] [-> Hkv]]. exists v. by apply elem_of_map_to_list.
Qed.

Lemma rangeMap_fst (m : gmap string (list string)) (l : list (string * list string)) :
  (∀ kv, kv ∈ l → m !! kv.1 = Some kv.2) → rangeMap (l.*1) m = l.
Proof.
  unfold rangeMap. induction l as [| [k v] l IH]; intros Hl; [done |].
  simpl. pose proof (Hl (k, v) ltac:(left)) as Hk. simpl in Hk. rewrite Hk. simpl. f_equal.
  apply IH. intros kv Hkv. apply Hl. by right.
Qed.

Lemma rangeMap_map_to_list (ord : list string) (m : gmap string (list string)) :
  enumerates ord m → rangeMap ord m ≡ₚ map_to_list m.
Proof.
  unfold enumerates. intros Hord.
  rewrite <- (rangeMap_fst m (map_to_list m)).
  - unfold rangeMap. apply omap_Permutation.
    by rewrite Hord, elements_dom_map_to_list.
  - intros [k v] Hkv. by apply elem_of_map_to_list.
Qed.

Lemma elem_of_rangeMap (ord : list string) (m : gmap string (list string)) k v :
  enumerates ord m → (k, v) ∈ rangeMap ord m ↔ m !! k = Some v.
Proof.
  intros Hord. rewrite (rangeMap_map_to_list ord m Hord).
  apply elem_of_map_to_list.
Qed.

Lemma rangeKeys_enumerates (ord : list string) (m : gmap string (list string)) :
  enumerates ord m → rangeKeys ord m ≡ₚ elements (dom m).
Proof.
  intros Hord. unfold rangeKeys.
  by rewrite (rangeMap_map_to_list ord m Hord), elements_dom_map_to_list.
Qed.

Lemma maxVotes_snoc kvs kv : maxVotes (kvs ++ [kv]) = maxVotes kvs `max` length kv.2.
Proof.
  unfold maxVotes. induction kvs as [| x kvs IH]; simpl; [lia |].
  rewrite IH. lia.
Qed.

Lemma maxVotes_ge kvs kv : kv ∈ kvs → length kv.2 ≤ maxVotes kvs.
Proof.
  induction 1 as [| ? ? ? ? IH]; simpl; [lia |]. unfold maxVotes in *. simpl. lia.
Qed.

Lemma maxVotes_Permutation kvs1 kvs2 : kvs1 ≡ₚ kvs2 → maxVotes kvs1 = maxVotes kvs2.
Proof.
  unfold maxVotes. induction 1; simpl; [done | congruence | lia | congruence].
Qed.

Lemma last_of_snoc (l : list string) k : drop (length (l ++ [k]) - 1) (l ++ [k]) = [k].
Proof.
  rewrite length_app. simpl.
  replace (length l + 1 - 1) with (length l) by lia.
  apply drop_app_length.
Qed.

Lemma filter_votes_below (n : nat) (kvs : list (string * list string)) :
  (∀ kv, kv ∈ kvs → length kv.2 < n) →
  filter (λ kv : string * list string, length kv.2 = n) kvs = [].
Proof.
  intros Hlt. induction kvs as [| kv kvs IH]; [done |].
  rewrite filter_cons_False.
  - apply IH. intros kv' Hkv'. apply Hlt. by right.
  - specialize (Hlt kv ltac:(left)). lia.
Qed.

(** The loop state after any prefix of the enumeration. *)
Lemma winnerScan_state kvs :
  foldl winnerStep (0, []) kvs = (maxVotes kvs, pluralityWinners kvs).
Proof.
  induction kvs as [| kv kvs IH] using rev_ind; [done |].
  rewrite foldl_app, IH. simpl. unfold winnerStep, pluralityWinners. simpl.
  rewrite maxVotes_snoc, filter_app, fmap_app.
  repeat case_decide.
  - rewrite last_of_snoc.
    replace (maxVotes kvs `max` length kv.2) with (length kv.2) by lia.
    rewrite filter_votes_below.
    + by rewrite filter_cons_True.
    + intros kv' Hkv'. apply maxVotes_ge in Hkv'. lia.
  - replace (maxVotes kvs `max` length kv.2) with (maxVotes kvs) by lia.
    by rewrite (filter_cons_True _ kv) by done.
  - replace (maxVotes kvs `max` length kv.2) with (maxVotes kvs) by lia.
    rewrite (filter_cons_False _ kv) by done. simpl. by rewrite app_nil_r.
Qed.

Lemma winnerScan_pluralityWinners kvs : winnerScan kvs = pluralityWinners kvs.
Proof. unfold winnerScan. by rewrite winnerScan_state. Qed.

Lemma pluralityWinners_Permutation kvs1 kvs2 :
  kvs1 ≡ₚ kvs2 → pluralityWinners kvs1 ≡ₚ pluralityWinners kvs2.
Proof.
  intros Hp. unfold pluralityWinners.
  rewrite (maxVotes_Permutation _ _ Hp). by rewrite Hp.
Qed.

Lemma elem_of_pluralityWinners kvs k :
  k ∈ pluralityWinners kvs ↔ ∃ v, (k, v) ∈ kvs ∧ length v = maxVotes kvs.
Proof.
  unfold pluralityWinners. rewrite list_elem_of_fmap. split.
  - intros [[k' v] [-> [Hlen Hin]%list_elem_of_filter]]. by exists v.
  - intros (v & Hin & Hlen). exists (k, v). split; [done |].
    by apply list_elem_of_filter.
Qed.

(** No label is listed twice. *)
Lemma NoDup_pluralityWinners kvs : NoDup (kvs.*1) → NoDup (pluralityWinners kvs).
Proof.
  unfold pluralityWinners. generalize (maxVotes kvs). intros n.
  induction kvs as [| kv kvs IH]; simpl; intros Hnd; [constructor |].
  apply NoDup_cons in Hnd as [Hnotin Hnd].
  destruct (decide (length kv.2 = n)).
  - rewrite filter_cons_True by done. simpl. apply NoDup_cons. split; [| by apply IH].
    intros Hin. apply Hnotin. apply list_elem_of_fmap in Hin as [kv' [-> Hin]].
    apply list_elem_of_filter in Hin as [_ Hin]. apply list_elem_of_fmap. by exists kv'.
  - rewrite filter_cons_False by done. by apply IH.
Qed.

(** ** The reveal loop counts the matching triples *)

Lemma lookup_tallied options c o :
  tallied options c !! o = (λ l, l ++ replicate (c o) "vote") <$> options !! o.
Proof. unfold tallied. rewrite map_lookup_imap. by destruct (options !! o). Qed.

Lemma tallied_ext options c1 c2 :
  (∀ o, c1 o = c2 o) → tallied options c1 = tallied options c2.
Proof. intros Hc. apply map_eq. intros o. rewrite !lookup_tallied. by rewrite Hc. Qed.

Lemma tallied_zero options : tallied options (λ _, 0) = options.
Proof.
  apply map_eq. intros o. rewrite lookup_tallied.
  destruct (options !! o); simpl; [| done]. by rewrite app_nil_r.
Qed.

Lemma dom_tallied options c : dom (tallied options c) = dom options.
Proof.
  apply set_eq. intros o. rewrite !elem_of_dom, lookup_tallied.
  by rewrite fmap_is_Some.
Qed.

Lemma enumerates_tallied ord options c :
  enumerates ord options → enumerates ord (tallied options c).
Proof. unfold enumerates. by rewrite dom_tallied. Qed.

Section reveal_facts.
Context {stub : Stub}.

(** The innermost loop visits distinct keys, so every option is extended
    at most once, and exactly when its candidate matches. *)
Lemma revealOption_foldl threadID vote tx key ks (options : gmap string (list string)) o :
  NoDup ks → (∀ k, k ∈ ks → is_Some (options !! k)) →
  foldl (revealOption threadID vote tx key) options ks !! o =
    if decide (o ∈ ks ∧ calculatedVoteJSONHash threadID tx o key = vote)
    then (λ l, l ++ ["vote"]) <$> options !! o
    else options !! o.
Proof.
  revert options. induction ks as [| k ks IH]; intros options Hnd Hks; cbn [foldl].
  - rewrite decide_False; [done |]. intros [Hd _]. by apply elem_of_nil in Hd.
  - apply NoDup_cons in Hnd as [Hk Hnd].
    destruct (Hks k ltac:(left)) as [lk Hlk].
    rewrite IH; [| done |].
    + unfold revealOption. destruct (decide (o = k)) as [-> | Hne].
      * rewrite decide_False by tauto.
        destruct (decide (calculatedVoteJSONHash threadID tx k key = vote)) as [Hm | Hm].
        -- rewrite lookup_insert_eq, decide_True by (split; [left | done]).
           by rewrite Hlk, (lookup_total_correct _ _ _ Hlk).
        -- rewrite decide_False by tauto. done.
      * assert (Hiff : o ∈ k :: ks ↔ o ∈ ks).
        { rewrite elem_of_cons. tauto. }
        assert (Hlook : (if decide (calculatedVoteJSONHash threadID tx k key = vote)
                         then <[k:=(options !!! k) ++ ["vote"]]> options else options) !! o
                        = options !! o).
        { destruct (decide (calculatedVoteJSONHash threadID tx k key = vote));
            [by rewrite lookup_insert_ne | done]. }
        rewrite Hlook.
        repeat case_decide; try done; tauto.
    + intros k' Hk'. unfold revealOption.
      destruct (decide (calculatedVoteJSONHash threadID tx k key = vote)).
      * destruct (decide (k = k')) as [-> | Hne];
          [rewrite lookup_insert_eq; eauto | rewrite lookup_insert_ne by done].
        apply Hks. by right.
      * apply Hks. by right.
Qed.

(** One pass over the options for one candidate (transaction, key). *)
Lemma revealKey_tallied sched threadID vote tx key n options c :
  enumerates (sched n) options →
  revealKey sched threadID vote tx (n, tallied options c) key =
    (n + 1, tallied options (λ o, c o +
       (if decide (calculatedVoteJSONHash threadID tx o key = vote) then 1 else 0))).
Proof.
  intros Hord. unfold revealKey. simpl. f_equal; [lia |].
  pose proof (rangeKeys_enumerates _ _ (enumerates_tallied _ _ c Hord)) as Hperm.
  apply map_eq. intros o.
  rewrite revealOption_foldl.
  - rewrite !lookup_tallied.
    destruct (options !! o) as [l0 |] eqn:Ho; simpl.
    + assert (Hin : o ∈ rangeKeys (sched n) (tallied options c)).
      { rewrite Hperm, elem_of_elements, elem_of_dom, lookup_tallied, Ho. eauto. }
      destruct (decide (calculatedVoteJSONHash threadID tx o key = vote)) as [Hm | Hm].
      * rewrite decide_True by done. simpl.
        by rewrite <- app_assoc, replicate_add.
      * rewrite decide_False by tauto. by rewrite Nat.add_0_r.
    + by case_decide.
  - rewrite Hperm. apply NoDup_elements.
  - intros k. rewrite Hperm, elem_of_elements. apply elem_of_dom.
Qed.

(** A loop whose body adds [cnt x o] markers to every option [o] and
    does [ticks x] ranges adds their sums. *)
Lemma foldl_tallied {A} (step : nat * gmap string (list string) → A → nat * gmap string (list string))
    (ticks : A → nat) (cnt : A → string → nat) options :
  (∀ n c x, step (n, tallied options c) x =
            (n + ticks x, tallied options (λ o, c o + cnt x o))) →
  ∀ xs n c, foldl step (n, tallied options c) xs =
            (n + sum_list_with ticks xs,
             tallied options (λ o, c o + sum_list_with (λ x, cnt x o) xs)).
Proof.
  intros Hstep xs. induction xs as [| x xs IH]; intros n c; simpl.
  - f_equal; [lia |]. apply tallied_ext. intros o. lia.
  - rewrite Hstep, IH. f_equal; [lia |]. apply tallied_ext. intros o. lia.
Qed.

Lemma revealVotes_tallied sched threadID votes txs keys options :
  (∀ n, enumerates (sched n) options) →
  ∀ n c, revealVotes sched threadID votes txs keys (n, tallied options c) =
    (n + sum_list_with (λ _, sum_list_with (λ _, sum_list_with (λ _, 1) keys) txs) votes,
     tallied options (λ o, c o +
       sum_list_with (λ vote, sum_list_with (λ tx,
         sum_list_with (keyHit threadID vote tx o) keys) txs) votes)).
Proof.
  intros Hord. unfold revealVotes.
  apply (foldl_tallied (revealVote sched threadID txs keys)
           (λ _, sum_list_with (λ _, sum_list_with (λ _, 1) keys) txs)
           (λ vote o, sum_list_with (λ tx, sum_list_with (keyHit threadID vote tx o) keys) txs)).
  intros n c vote. unfold revealVote.
  apply (foldl_tallied (revealTx sched threadID keys vote)
           (λ _, sum_list_with (λ _, 1) keys)
           (λ tx o, sum_list_with (keyHit threadID vote tx o) keys)).
  intros n' c' tx. unfold revealTx.
  apply (foldl_tallied (revealKey sched threadID vote tx)
           (λ _, 1) (λ key o, keyHit threadID vote tx o key)).
  intros n'' c'' key. by apply revealKey_tallied.
Qed.

Lemma length_filter_list_prod {A B} (P : A * B → Prop) `{∀ x, Decision (P x)}
    (l1 : list A) (l2 : list B) :
  length (filter P (list_prod l1 l2)) =
    sum_list_with (λ a, length (filter (λ b, P (a, b)) l2)) l1.
Proof.
  induction l1 as [| a l1 IH]; simpl; [done |].
  rewrite filter_app, length_app, IH. f_equal. clear IH.
  induction l2 as [| b l2 IH2]; [done |].
  cbn [map]. destruct (decide (P (a, b))) as [Hp | Hp].
  - rewrite (filter_cons_True P) by done.
    rewrite (filter_cons_True (λ b' : B, P (a, b'))) by done.
    simpl. by rewrite IH2.
  - rewrite (filter_cons_False P) by done.
    rewrite (filter_cons_False (λ b' : B, P (a, b'))) by done.
    done.
Qed.

Lemma sum_list_with_ext {A} (f g : A → nat) (l : list A) :
  (∀ x, f x = g x) → sum_list_with f l = sum_list_with g l.
Proof. intros Hfg. induction l as [| x l IH]; simpl; [done |]. by rewrite Hfg, IH. Qed.

Lemma length_filter_sum {A} (P : A → Prop) `{∀ x, Decision (P x)} (l : list A) :
  length (filter P l) = sum_list_with (λ x, if decide (P x) then 1 else 0) l.
Proof.
  induction l as [| x l IH]; [done |]. cbn [sum_list_with].
  destruct (decide (P x)).
  - rewrite filter_cons_True by done. simpl. by rewrite IH.
  - rewrite filter_cons_False by done. by rewrite IH.
Qed.

Lemma matchCount_sum threadID votes txs keys o :
  matchCount threadID votes txs keys o =
    sum_list_with (λ vote, sum_list_with (λ tx,
      sum_list_with (keyHit threadID vote tx o) keys) txs) votes.
Proof.
  unfold matchCount. rewrite length_filter_list_prod.
  apply sum_list_with_ext. intros vote.
  rewrite (length_filter_list_prod (λ b, matches threadID o (vote, b))).
  apply sum_list_with_ext. intros tx.
  rewrite (length_filter_sum (λ key, matches threadID o (vote, (tx, key)))).
  apply sum_list_with_ext. intros key. unfold keyHit, matches. simpl.
  by repeat case_decide.
Qed.

(** The reveal loop, whatever the enumeration orders: every option gets
    one marker per matching triple. *)
Lemma revealVotes_matchCount sched threadID votes txs keys options :
  (∀ n, enumerates (sched n) options) →
  (revealVotes sched threadID votes txs keys (0, options)).2 =
    tallied options (matchCount threadID votes txs keys).
Proof.
  intros Hord. rewrite <- (tallied_zero options) at 1.
  rewrite (revealVotes_tallied _ _ _ _ _ _ Hord). simpl.
  apply tallied_ext. intros o. by rewrite matchCount_sum.
Qed.

End reveal_facts.

(** ** Running the operations *)

Ltac unfold_ops :=
  unfold Public.CreateThread, Public.CreateVote, Public.UseVote, Public.EndThread,
    Plain.CreateThread, Plain.CreateVote, Plain.UseVote, Plain.EndThread,
    Voucher.CreateThread, Voucher.CreateVote, Voucher.UseVote, Voucher.EndThread,
    Anon.CreateAnonThread, Anon.UseAnonVote, Anon.EndAnonThread,
    Anon2.CreateAnonThread, Anon2.UseAnonVote, Anon2.EndAnonThread,
    QueryThread, QueryAnonThread, GetSubmittingClientIdentity, getCollectionName,
    setAssetStateBasedEndorsement, index, sliceFrom, orFail, bind, ret, fail, panic,
    GetState, PutState, SetEvent in *.

Ltac crunch := unfold_ops; unfold_ops; repeat (case_match; simplify_eq; simpl in * ); simplify_eq; simpl in *.

Lemma maxVotes_le kvs n : (∀ kv, kv ∈ kvs → length kv.2 ≤ n) → maxVotes kvs ≤ n.
Proof.
  induction kvs as [| kv kvs IH]; intros Hle; simpl; [lia |].
  apply Nat.max_lub.
  - apply Hle. by left.
  - apply IH. intros kv' Hkv'. apply Hle. by right.
Qed.

(** The winners, for any enumeration order: the labels whose vote list
    is at least as long as every other. *)
Lemma elem_of_winnerScan ord (options : gmap string (list string)) k :
  enumerates ord options →
  k ∈ winnerScan (rangeMap ord options) ↔
  ∃ v, options !! k = Some v ∧
       ∀ k' v', options !! k' = Some v' → length v' ≤ length v.
Proof.
  intros Hord. rewrite winnerScan_pluralityWinners, elem_of_pluralityWinners. split.
  - intros (v & Hin & Hlen). exists v. split; [by apply (elem_of_rangeMap ord) |].
    intros k' v' Hk'. rewrite Hlen.
    apply (maxVotes_ge _ (k', v')). by apply elem_of_rangeMap.
  - intros (v & Hk & Hmax). exists v. split; [by apply elem_of_rangeMap |].
    apply Nat.le_antisymm.
    + apply (maxVotes_ge _ (k, v)). by apply elem_of_rangeMap.
    + apply maxVotes_le. intros [k' v'] Hin. simpl.
      apply (Hmax k'). by apply (elem_of_rangeMap ord).
Qed.

Lemma NoDup_winnerScan ord (options : gmap string (list string)) :
  enumerates ord options → NoDup (winnerScan (rangeMap ord options)).
Proof.
  intros Hord. rewrite winnerScan_pluralityWinners. apply NoDup_pluralityWinners.
  rewrite (rangeMap_map_to_list _ _ Hord). apply NoDup_fst_map_to_list.
Qed.

Lemma enumerates_AB ord (a b : list string) :
  enumerates ord {[ "A" := a; "B" := b ]} → ord = ["A"; "B"] ∨ ord = ["B"; "A"].
Proof.
  unfold enumerates. intros Hord.
  apply Permutation_length_2_inv. symmetry.
  replace (elements (dom ({[ "A" := a; "B" := b ]} : gmap string (list string))))
    with ["A"; "B"] in Hord; [done |].
  rewrite dom_insert_L, dom_singleton_L. vm_compute. reflexivity.
Qed.

Lemma winnerScan_order ord1 ord2 (options : gmap string (list string)) :
  enumerates ord1 options → enumerates ord2 options →
  winnerScan (rangeMap ord1 options) ≡ₚ winnerScan (rangeMap ord2 options).
Proof.
  intros H1 H2. rewrite !winnerScan_pluralityWinners.
  apply pluralityWinners_Permutation.
  by rewrite (rangeMap_map_to_list _ _ H1), (rangeMap_map_to_list _ _ H2).
Qed.

Lemma sameClose_refl (o : outcome unit) : sameClose (o, noEffects) (o, noEffects).
Proof. split; [done |]. split; constructor. Qed.


Section runs.
Context {stub : Stub}.

Lemma Public_EndThread_run ctx threadID (l : Ledger) v thread eff :
  l !! threadID = Some v →
  decodeThread v = Some thread →
  submittingClientIdentity ctx = Some (Creator thread) →
  Status thread = "open" →
  Public.EndThread ctx threadID l eff =
    (Ret (),
     let thread' := mkThread (Category thread) (Theme thread) (Description thread)
                      (Creator thread) (Options thread)
                      (winnerScan (rangeMap (rangeOrder ctx 0) (Options thread))) "closed" in
     mkEffects (writes eff ++ [(threadID, VThread thread')])
               (events eff ++ [("EndThread " +:+ threadID, VThread thread')])).
Proof.
  intros Hl Hv Hc Hs.
  unfold Public.EndThread, QueryThread, GetSubmittingClientIdentity, bind, GetState, orFail, ret.
  rewrite Hl, Hv, Hc. simpl.
  rewrite decide_False by (intros Hne; by apply Hne).
  rewrite decide_False by (intros Hne; by apply Hne).
  reflexivity.
Qed.

Lemma Plain_EndThread_run ctx threadID (l : Ledger) v thread eff :
  l !! threadID = Some v →
  decodeThread v = Some thread →
  submittingClientIdentity ctx = Some (Creator thread) →
  Status thread = "open" →
  Plain.EndThread ctx threadID l eff =
    (Ret (),
     let thread' := mkThread (Category thread) (Theme thread) (Description thread)
                      (Creator thread) (Options thread)
                      (winnerScan (rangeMap (rangeOrder ctx 0) (Options thread))) "ended" in
     mkEffects (writes eff ++ [(threadID, VThread thread')])
               (events eff ++ [("EndThread " +:+ threadID, VThread thread')])).
Proof.
  intros Hl Hv Hc Hs.
  unfold Plain.EndThread, QueryThread, GetSubmittingClientIdentity, bind, GetState, orFail, ret.
  rewrite Hl, Hv, Hc. simpl.
  rewrite decide_False by (intros Hne; by apply Hne).
  rewrite decide_False by (intros Hne; by apply Hne).
  reflexivity.
Qed.

Lemma endDataOf_Some ctx d :
  endDataOf ctx = Some d →
  ∃ transientMap raw, GetTransient ctx = Some transientMap ∧
    transientMap !! "option" = Some raw ∧ jsonUnmarshalEndData raw = JVal d.
Proof.
  unfold endDataOf. intros Hd.
  destruct (GetTransient ctx) as [tm |]; [| done].
  destruct (tm !! "option") as [raw |] eqn:Hopt; [| done].
  destruct (jsonUnmarshalEndData raw) as [| | d'] eqn:Hraw; [done .. |].
  exists tm, raw. by simplify_eq.
Qed.

Lemma sum_list_with_const {A} (c : nat) (l : list A) :
  sum_list_with (λ _, c) l = length l * c.
Proof. induction l as [| x l IH]; simpl; [done |]. rewrite IH. lia. Qed.

Lemma revealVotes_run sched threadID votes txs keys options :
  (∀ n, enumerates (sched n) options) →
  revealVotes sched threadID votes txs keys (0, options) =
    (revealRanges votes txs keys, tallied options (matchCount threadID votes txs keys)).
Proof.
  intros Hord.
  pose proof (revealVotes_tallied sched threadID votes txs keys options Hord 0 (λ _, 0)) as E.
  rewrite tallied_zero in E. rewrite E. f_equal.
  - unfold revealRanges. rewrite !sum_list_with_const. lia.
  - apply tallied_ext. intros o. by rewrite matchCount_sum.
Qed.

Lemma Anon_EndAnonThread_run ctx (l : Ledger) d v thread eff :
  endDataOf ctx = Some d →
  l !! EThreadID d = Some v →
  decodeAnonThread v = Some thread →
  submittingClientIdentity ctx = Some (ACreator thread) →
  AStatus thread = "open" →
  (∀ n, enumerates (rangeOrder ctx n) (AOptions thread)) →
  Anon.EndAnonThread ctx l eff =
    (Ret (),
     let options' := tallied (AOptions thread)
                       (matchCount (EThreadID d) (Votes thread) (VoteTxs d) (Keys d)) in
     let n := revealRanges (Votes thread) (VoteTxs d) (Keys d) in
     let thread' := mkAnonThread (ACategory thread) (ATheme thread) (ADescription thread)
                      (ACreator thread) (Votes thread) options'
                      (winnerScan (rangeMap (rangeOrder ctx n) options')) "ended" in
     mkEffects (writes eff ++ [(EThreadID d, VAnonThread thread')])
               (events eff ++ [("EndAnonThread " +:+ EThreadID d, VAnonThread thread')])).
Proof.
  intros (tm & raw & Htm & Hraw & Hd)%endDataOf_Some Hl Hv Hc Hs Hord.
  pose proof (revealVotes_run (rangeOrder ctx) (EThreadID d) (Votes thread) (VoteTxs d)
                (Keys d) (AOptions thread) Hord) as Hn.
  unfold Anon.EndAnonThread, QueryAnonThread, GetSubmittingClientIdentity, bind, GetState,
    orFail, ret.
  rewrite Htm, Hraw, Hd, Hl, Hv, Hc. simpl.
  rewrite decide_False by (intros Hne; by apply Hne).
  rewrite decide_False by (intros Hne; by apply Hne).
  rewrite Hn. reflexivity.
Qed.

Lemma Anon2_EndAnonThread_run ctx (l : Ledger) d v thread eff :
  endDataOf ctx = Some d →
  l !! EThreadID d = Some v →
  decodeAnonThread v = Some thread →
  submittingClientIdentity ctx = Some (ACreator thread) →
  AStatus thread = "open" →
  (∀ n, enumerates (rangeOrder ctx n) (AOptions thread)) →
  Anon2.EndAnonThread ctx l eff =
    (Ret (),
     let options' := tallied (AOptions thread)
                       (matchCount (EThreadID d) (Votes thread) (VoteTxs d) (Keys d)) in
     let n := revealRanges (Votes thread) (VoteTxs d) (Keys d) in
     let thread' := mkAnonThread (ACategory thread) (ATheme thread) (ADescription thread)
                      (ACreator thread) (Votes thread) options'
                      (winnerScan (rangeMap (rangeOrder ctx n) options')) "closed" in
     mkEffects (writes eff ++ [(EThreadID d, VAnonThread thread')])
               (events eff ++ [("EndAnonThread " +:+ EThreadID d, VAnonThread thread')])).
Proof.
  intros (tm & raw & Htm & Hraw & Hd)%endDataOf_Some Hl Hv Hc Hs Hord.
  pose proof (revealVotes_run (rangeOrder ctx) (EThreadID d) (Votes thread) (VoteTxs d)
                (Keys d) (AOptions thread) Hord) as Hn.
  unfold Anon2.EndAnonThread, QueryAnonThread, GetSubmittingClientIdentity, bind, GetState,
    orFail, ret.
  rewrite Htm, Hraw, Hd, Hl, Hv, Hc. simpl.
  rewrite decide_False by (intros Hne; by apply Hne).
  rewrite decide_False by (intros Hne; by apply Hne).
  rewrite Hn. reflexivity.
Qed.

End runs.

(** ** Determinism of the close operations *)

Section determinism.
Context {stub : Stub}.

(** C1, as amended: two runs of the same close operation, [EndThread] of
    the public contract or [EndAnonThread], on the same ledger and the
    same inputs end with the same result and write and emit the same
    poll under the same key, whatever the orders in which the two runs
    enumerate the options map; only the order of the labels inside
    [WinOption] may differ: the two sequences hold the same labels, each
    once, and are permutations of each other. *)
Theorem close_same_up_to_winner_order (ctx : Ctx) (ord1 ord2 : nat → list string)
    (l : Ledger) (threadID : string) :
  ((∀ v thread, l !! threadID = Some v → decodeThread v = Some thread →
      enumerates (ord1 0) (Options thread) ∧ enumerates (ord2 0) (Options thread)) →
   sameClose (Public.EndThread (withOrder ctx ord1) threadID l noEffects)
             (Public.EndThread (withOrder ctx ord2) threadID l noEffects)) ∧
  ((∀ d v thread, endDataOf ctx = Some d → l !! EThreadID d = Some v →
      decodeAnonThread v = Some thread →
      ∀ n, enumerates (ord1 n) (AOptions thread) ∧ enumerates (ord2 n) (AOptions thread)) →
   sameClose (Anon.EndAnonThread (withOrder ctx ord1) l noEffects)
             (Anon.EndAnonThread (withOrder ctx ord2) l noEffects)).
Proof.
  split.
  - intros Hpub. unfold Public.EndThread, QueryThread, GetSubmittingClientIdentity, bind, GetState, orFail,
      ret, fail. simpl.
    destruct (l !! threadID) as [v |] eqn:Hl; [| apply sameClose_refl].
    destruct (decodeThread v) as [thread |] eqn:Hv; [| apply sameClose_refl].
    destruct (submittingClientIdentity ctx) as [clientID |]; [| apply sameClose_refl].
    destruct (decide (Creator thread ≠ clientID)) as [Hc | Hc]; [apply sameClose_refl |].
    destruct (decide (Status thread ≠ "open")) as [Hs | Hs]; [apply sameClose_refl |].
    destruct (Hpub v thread eq_refl Hv) as [H1 H2].
    pose proof (winnerScan_order _ _ _ H1 H2) as Hw.
    pose proof (NoDup_winnerScan _ _ H1) as Hnd1.
    pose proof (NoDup_winnerScan _ _ H2) as Hnd2.
    split; [done |]. split; simpl; (constructor; [| constructor]); split; simpl; done.
  - intros Hanon.
    unfold Anon.EndAnonThread, QueryAnonThread, GetSubmittingClientIdentity, bind, GetState,
      orFail, ret, fail, panic. simpl.
    pose proof Hanon as Hanon'. unfold endDataOf in Hanon'.
    destruct (GetTransient ctx) as [tm |]; [| apply sameClose_refl].
    destruct (tm !! "option") as [raw |]; [| apply sameClose_refl].
    destruct (jsonUnmarshalEndData raw) as [| | d]; [apply sameClose_refl .. |].
    destruct (l !! EThreadID d) as [v |] eqn:Hl; [| apply sameClose_refl].
    destruct (decodeAnonThread v) as [thread |] eqn:Hv; [| apply sameClose_refl].
    destruct (submittingClientIdentity ctx) as [clientID |]; [| apply sameClose_refl].
    destruct (decide (ACreator thread ≠ clientID)) as [Hc | Hc]; [apply sameClose_refl |].
    destruct (decide (AStatus thread ≠ "open")) as [Hs | Hs]; [apply sameClose_refl |].
    pose proof (Hanon' d v thread eq_refl Hl Hv) as Hord.
    assert (H1 : ∀ n, enumerates (ord1 n) (AOptions thread)) by (intros k; apply Hord).
    assert (H2 : ∀ n, enumerates (ord2 n) (AOptions thread)) by (intros k; apply Hord).
    pose proof (revealVotes_tallied ord1 (EThreadID d) (Votes thread) (VoteTxs d) (Keys d)
                  (AOptions thread) H1 0 (λ _, 0)) as E1.
    pose proof (revealVotes_tallied ord2 (EThreadID d) (Votes thread) (VoteTxs d) (Keys d)
                  (AOptions thread) H2 0 (λ _, 0)) as E2.
    rewrite tallied_zero in E1, E2. rewrite E1, E2. simpl.
    match goal with |- context [winnerScan (rangeMap (ord1 ?n) ?o)] =>
      pose proof (winnerScan_order (ord1 n) (ord2 n) o
                    (enumerates_tallied _ _ _ (H1 n)) (enumerates_tallied _ _ _ (H2 n))) as Hw;
      pose proof (NoDup_winnerScan (ord1 n) o (enumerates_tallied _ _ _ (H1 n))) as Hnd1;
      pose proof (NoDup_winnerScan (ord2 n) o (enumerates_tallied _ _ _ (H2 n))) as Hnd2 end.
    split; [done |]. split; simpl; (constructor; [| constructor]); split; simpl; done.
Qed.

End determinism.

Lemma enumerates_AB_l (a b : list string) : enumerates ["A"; "B"] {[ "A" := a; "B" := b ]}.
Proof.
  unfold enumerates. rewrite dom_insert_L, dom_singleton_L.
  vm_compute. reflexivity.
Defined.

Lemma enumerates_AB_r (a b : list string) : enumerates ["B"; "A"] {[ "A" := a; "B" := b ]}.
Proof.
  unfold enumerates. rewrite dom_insert_L, dom_singleton_L.
  vm_compute. apply perm_swap.
Defined.

(** The two runs of the amended C1 on the tied ledger, one enumerating
    [A] first and the other [B] first. *)
Lemma close_same_up_to_winner_order_witness :
  sameClose (Public.EndThread (withOrder (revealCtx orderAB) orderAB) "P1"
               tiedLedger noEffects)
            (Public.EndThread (withOrder (revealCtx orderAB) orderBA) "P1"
               tiedLedger noEffects) ∧
  sameClose (Anon.EndAnonThread (stub := testStub) (withOrder (revealCtx orderAB) orderAB)
               tiedLedger noEffects)
            (Anon.EndAnonThread (stub := testStub) (withOrder (revealCtx orderAB) orderBA)
               tiedLedger noEffects).
Proof.
  destruct (close_same_up_to_winner_order (stub := testStub) (revealCtx orderAB)
              orderAB orderBA tiedLedger "P1") as [Hpub Hanon].
  split; [apply Hpub | apply Hanon].
  - intros v thread Hl Hv. vm_compute in Hl. injection Hl as <-.
    simpl in Hv. injection Hv as <-.
    split; [apply enumerates_AB_l | apply enumerates_AB_r].
  - intros d v thread Hd Hl Hv n. vm_compute in Hd. injection Hd as <-.
    vm_compute in Hl. injection Hl as <-. simpl in Hv. injection Hv as <-.
    split; [apply enumerates_AB_l | apply enumerates_AB_r].
Defined.

(** C1, as stated, fails: on the tied poll [P1] the run that enumerates
    [A] first persists the winners [A; B] and the run that enumerates [B]
    first persists [B; A], so the two output states differ. *)
Lemma close_winner_order_follows_enumeration :
  enumerates (orderAB 0) (Options (pollAB ["x"] ["y"])) ∧
  enumerates (orderBA 0) (Options (pollAB ["x"] ["y"])) ∧
  writes (Public.EndThread (withOrder (aliceCtx orderAB) orderAB) "P1"
            tiedLedger noEffects).2 =
    [("P1", VThread (mkThread "category" "theme" "description" "alice"
                       {[ "A" := ["x"]; "B" := ["y"] ]} ["A"; "B"] "closed"))] ∧
  writes (Public.EndThread (withOrder (aliceCtx orderAB) orderBA) "P1"
            tiedLedger noEffects).2 =
    [("P1", VThread (mkThread "category" "theme" "description" "alice"
                       {[ "A" := ["x"]; "B" := ["y"] ]} ["B"; "A"] "closed"))] ∧
  Public.EndThread (withOrder (aliceCtx orderAB) orderAB) "P1"
    tiedLedger noEffects ≠
  Public.EndThread (withOrder (aliceCtx orderAB) orderBA) "P1"
    tiedLedger noEffects.
Proof.
  split; [apply enumerates_AB_l |]. split; [apply enumerates_AB_r |].
  split; [vm_compute; reflexivity |]. split; [vm_compute; reflexivity |].
  intros Heq. vm_compute in Heq. discriminate.
Qed.

(** ** The winners of a closed poll *)

Section winners.
Context {stub : Stub}.

(** C3: closing an open poll persists the plurality winners with ties
    preserved, for every order in which the options map is enumerated:
    a label is in [WinOption] exactly when its vote list is at least as
    long as that of every option, and no label is listed twice; with the
    options [{A: [x, y], B: [z]}] the winners are [[A]], with
    [{A: [x], B: [y]}] they are [A] and [B].  The same holds for
    [EndAnonThread] on the options map the reveal loop leaves. *)
Theorem close_plurality_winners (ctx : Ctx) (l : Ledger) :
  (∀ threadID thread,
   l !! threadID = Some (VThread thread) →
   Status thread = "open" →
   submittingClientIdentity ctx = Some (Creator thread) →
   enumerates (rangeOrder ctx 0) (Options thread) →
   ∃ winOptions,
     let thread' := mkThread (Category thread) (Theme thread) (Description thread)
                      (Creator thread) (Options thread) winOptions "closed" in
     Public.EndThread ctx threadID l noEffects =
       (Ret (), mkEffects [(threadID, VThread thread')]
                          [("EndThread " +:+ threadID, VThread thread')]) ∧
     (∀ k, k ∈ winOptions ↔ attainsMax (Options thread) k) ∧
     NoDup winOptions ∧
     (∀ x y z, Options thread = {[ "A" := [x; y]; "B" := [z] ]} → winOptions = ["A"]) ∧
     (∀ x y, Options thread = {[ "A" := [x]; "B" := [y] ]} → winOptions ≡ₚ ["A"; "B"])) ∧
  (∀ d athread,
   endDataOf ctx = Some d →
   l !! EThreadID d = Some (VAnonThread athread) →
   AStatus athread = "open" →
   submittingClientIdentity ctx = Some (ACreator athread) →
   (∀ n, enumerates (rangeOrder ctx n) (AOptions athread)) →
   ∃ options' winOptions,
     let thread' := mkAnonThread (ACategory athread) (ATheme athread) (ADescription athread)
                      (ACreator athread) (Votes athread) options' winOptions "ended" in
     Anon.EndAnonThread ctx l noEffects =
       (Ret (), mkEffects [(EThreadID d, VAnonThread thread')]
                          [("EndAnonThread " +:+ EThreadID d, VAnonThread thread')]) ∧
     (∀ k, k ∈ winOptions ↔ attainsMax options' k) ∧
     NoDup winOptions).
Proof.
  split.
  - intros threadID thread Hl Hs Hc Hord.
    exists (winnerScan (rangeMap (rangeOrder ctx 0) (Options thread))).
    split; [| split; [| split; [| split]]].
    + by rewrite (Public_EndThread_run ctx threadID l (VThread thread) thread).
    + intros k. by apply elem_of_winnerScan.
    + by apply NoDup_winnerScan.
    + intros x y z Hopts. rewrite Hopts in Hord |- *.
      destruct (enumerates_AB _ _ _ Hord) as [-> | ->]; vm_compute; reflexivity.
    + intros x y Hopts. rewrite Hopts in Hord |- *.
      destruct (enumerates_AB _ _ _ Hord) as [-> | ->]; vm_compute;
        [reflexivity | apply perm_swap].
  - intros d athread Hd Hal Has Hac Haord.
    pose proof (Anon_EndAnonThread_run ctx l d (VAnonThread athread) athread noEffects
                  Hd Hal eq_refl Hac Has Haord) as Hrun.
    eexists _, _. split; [exact Hrun |].
    split.
    + intros k. apply elem_of_winnerScan. by apply enumerates_tallied.
    + apply NoDup_winnerScan. by apply enumerates_tallied.
Qed.

End winners.

(** C3 on the sample ledger: [A] wins [P1] when [B] is enumerated first,
    and the creator closes [P2]. *)
Lemma close_plurality_winners_witness :
  (∃ winOptions,
     Public.EndThread (revealCtx orderBA) "P1" sampleLedger noEffects =
       (Ret (), mkEffects
          [("P1", VThread (mkThread "category" "theme" "description" "alice"
                             {[ "A" := ["x"; "y"]; "B" := ["z"] ]} winOptions "closed"))]
          [("EndThread P1", VThread (mkThread "category" "theme" "description" "alice"
                             {[ "A" := ["x"; "y"]; "B" := ["z"] ]} winOptions "closed"))]) ∧
     winOptions = ["A"]) ∧
  (∃ options' winOptions,
     Anon.EndAnonThread (stub := testStub) (revealCtx orderBA) sampleLedger noEffects =
       (Ret (), mkEffects
          [("P2", VAnonThread (mkAnonThread "category" "theme" "description" "alice"
                                 ["P2|tx1|A|s1"] options' winOptions "ended"))]
          [("EndAnonThread P2",
            VAnonThread (mkAnonThread "category" "theme" "description" "alice"
                           ["P2|tx1|A|s1"] options' winOptions "ended"))]) ∧
     ∀ k, k ∈ winOptions ↔ attainsMax options' k).
Proof.
  destruct (close_plurality_winners (stub := testStub) (revealCtx orderBA) sampleLedger)
    as [Hpub Hanon].
  split.
  - destruct (Hpub "P1" (pollAB ["x"; "y"] ["z"]))
      as (winOptions & Hrun & _ & _ & HA & _).
    + vm_compute. reflexivity.
    + reflexivity.
    + reflexivity.
    + apply enumerates_AB_r.
    + exists winOptions. split; [exact Hrun | by apply (HA "x" "y" "z")].
  - destruct (Hanon (mkEndData "P2" ["s1"] ["tx1"]) (anonPollAB ["P2|tx1|A|s1"] [] []))
      as (options' & winOptions & Hrun & Hmax & _).
    + vm_compute. reflexivity.
    + vm_compute. reflexivity.
    + reflexivity.
    + reflexivity.
    + intros n. apply enumerates_AB_r.
    + exists options', winOptions. split; [exact Hrun | exact Hmax].
Defined.

(** ** Commit and reveal *)

Lemma invoke_Ret {A} (op : M A) (l : Ledger) a eff :
  op l noEffects = (Ret a, eff) → invoke op l = (Ret a, commit l eff).
Proof. intros Hop. unfold invoke. by rewrite Hop. Qed.

Section commit_reveal.
Context {stub : Stub}.



(** A single commitment contributes one increment per matching pair of
    the cross-product of transactions and keys. *)
Lemma matchCount_single threadID vote txs keys o :
  matchCount threadID [vote] txs keys o =
    length (filter (λ c, calculatedVoteJSONHash threadID c.1 o c.2 = vote)
                   (list_prod txs keys)).
Proof.
  unfold matchCount. rewrite length_filter_list_prod. simpl. rewrite Nat.add_0_r.
  f_equal.
Qed.

Lemma Anon_UseAnonVote_run ctx (l : Ledger) tm raw vote v tread coll voteKey eff :
  GetTransient ctx = Some tm →
  tm !! "option" = Some raw →
  jsonUnmarshalAnonVote raw = JVal vote →
  l !! ThreadID vote = Some v →
  decodeAnonThread v = Some tread →
  AStatus tread = "open" →
  collectionName ctx = Some coll →
  CreateCompositeKey voteKeyType [ThreadID vote; TxID vote; coll] = Some voteKey →
  is_Some (l !! voteKey) →
  is_Some (AOptions tread !! Option vote) →
  Anon.UseAnonVote ctx l eff =
    (Ret (),
     let tread' := mkAnonThread (ACategory tread) (ATheme tread) (ADescription tread)
                     (ACreator tread) (Votes tread ++ [sha256Base64 raw])
                     (AOptions tread) (AWinOption tread) (AStatus tread) in
     mkEffects (writes eff ++ [(ThreadID vote, VAnonThread tread')])
               (events eff ++ [("UseAnonVote " +:+ ThreadID vote, VAnonThread tread')])).
Proof.
  intros Htm Hraw Hvote Hl Hv Hs Hcoll Hkey [data Hdata] Hopt.
  unfold Anon.UseAnonVote, QueryAnonThread, getCollectionName, bind, GetState, orFail, ret.
  rewrite Htm, Hraw, Hvote, Hl, Hv. simpl.
  rewrite decide_False by (intros Hne; by apply Hne).
  rewrite Hcoll, Hkey. simpl. rewrite Hdata.
  unfold contains. rewrite bool_decide_eq_true_2 by done. reflexivity.
Qed.

End commit_reveal.

Section tallies.
Context {stub : Stub}.

(** C7: on a successful reveal-and-close, of either anonymous variant,
    every option ends with one marker appended per candidate triple
    (commitment, transaction, key) of the cross-product whose recomputed
    hash equals the commitment, counted with multiplicity and without
    deduplication, whatever the enumeration orders of the options map;
    a single stored commitment contributes as many increments as pairs
    (transaction, key) match it. *)
Theorem reveal_counts_every_match (ctx : Ctx) (l : Ledger) (d : EndData) (thread : AnonThread) :
  endDataOf ctx = Some d →
  l !! EThreadID d = Some (VAnonThread thread) →
  AStatus thread = "open" →
  submittingClientIdentity ctx = Some (ACreator thread) →
  (∀ n, enumerates (rangeOrder ctx n) (AOptions thread)) →
  ∃ options' winOptions,
    let ended := mkAnonThread (ACategory thread) (ATheme thread) (ADescription thread)
                   (ACreator thread) (Votes thread) options' winOptions "ended" in
    let closed := mkAnonThread (ACategory thread) (ATheme thread) (ADescription thread)
                   (ACreator thread) (Votes thread) options' winOptions "closed" in
    Anon.EndAnonThread ctx l noEffects =
      (Ret (), mkEffects [(EThreadID d, VAnonThread ended)]
                         [("EndAnonThread " +:+ EThreadID d, VAnonThread ended)]) ∧
    Anon2.EndAnonThread ctx l noEffects =
      (Ret (), mkEffects [(EThreadID d, VAnonThread closed)]
                         [("EndAnonThread " +:+ EThreadID d, VAnonThread closed)]) ∧
    dom options' = dom (AOptions thread) ∧
    (∀ o votes0, AOptions thread !! o = Some votes0 →
       options' !! o =
         Some (votes0 ++ replicate (matchCount (EThreadID d) (Votes thread) (VoteTxs d)
                                      (Keys d) o) "vote")) ∧
    (∀ vote o, Votes thread = [vote] →
       matchCount (EThreadID d) (Votes thread) (VoteTxs d) (Keys d) o =
         length (filter (λ c, calculatedVoteJSONHash (EThreadID d) c.1 o c.2 = vote)
                        (list_prod (VoteTxs d) (Keys d)))).
Proof.
  intros Hd Hl Hs Hc Hord.
  pose proof (Anon_EndAnonThread_run ctx l d (VAnonThread thread) thread noEffects
                Hd Hl eq_refl Hc Hs Hord) as Hrun.
  pose proof (Anon2_EndAnonThread_run ctx l d (VAnonThread thread) thread noEffects
                Hd Hl eq_refl Hc Hs Hord) as Hrun2.
  eexists _, _. split; [exact Hrun |]. split; [exact Hrun2 |].
  split; [apply dom_tallied |]. split.
  - intros o votes0 Ho. by rewrite lookup_tallied, Ho.
  - intros vote o Hvotes. rewrite Hvotes. apply matchCount_single.
Qed.


End tallies.

(** C7 on the tied ledger: the secret [s1] listed twice in the reveal
    payload makes the single commitment of [P2] match two candidate
    triples, and [A] gets two markers. *)
Lemma reveal_counts_every_match_witness :
  ∃ options' winOptions,
    Anon.EndAnonThread (stub := testStub) doubleRevealCtx tiedLedger noEffects =
      (Ret (), mkEffects
         [("P2", VAnonThread (mkAnonThread "category" "theme" "description" "alice"
                                ["P2|tx1|A|s1"] options' winOptions "ended"))]
         [("EndAnonThread P2",
           VAnonThread (mkAnonThread "category" "theme" "description" "alice"
                          ["P2|tx1|A|s1"] options' winOptions "ended"))]) ∧
    options' !! "A" = Some ["vote"; "vote"].
Proof.
  destruct (reveal_counts_every_match (stub := testStub) doubleRevealCtx tiedLedger
              (mkEndData "P2" ["s1"; "s1"] ["tx1"]) (anonPollAB ["P2|tx1|A|s1"] [] []))
    as (options' & winOptions & Hrun & _ & _ & Hcount & _).
  - vm_compute. reflexivity.
  - vm_compute. reflexivity.
  - reflexivity.
  - reflexivity.
  - intros n. apply enumerates_AB_r.
  - exists options', winOptions. split; [exact Hrun |].
    rewrite (Hcount "A" []); [| vm_compute; reflexivity].
    vm_compute. reflexivity.
Defined.


(** ** Creating a poll *)

Lemma lookup_makeOptions_foldl (options : list string) (m : gmap string (list string)) o :
  foldl (λ m option, <[option := []]> m) m options !! o =
    if decide (o ∈ options) then Some [] else m !! o.
Proof.
  revert m. induction options as [| x options IH]; intros m; cbn [foldl].
  - rewrite decide_False; [done | apply not_elem_of_nil].
  - rewrite IH. destruct (decide (o ∈ options)) as [Hin | Hnin].
    + rewrite decide_True; [done | by right].
    + destruct (decide (o = x)) as [-> | Hne].
      * rewrite lookup_insert_eq, decide_True; [done | by left].
      * rewrite lookup_insert_ne by done. rewrite decide_False; [done |].
        rewrite elem_of_cons. tauto.
Qed.

Lemma lookup_makeOptions options o :
  makeOptions options !! o = if decide (o ∈ options) then Some [] else None.
Proof. unfold makeOptions. by rewrite lookup_makeOptions_foldl, lookup_empty. Qed.

Lemma votes_key_ne (threadID : string) : threadID +:+ "_votes" ≠ threadID.
Proof.
  induction threadID as [| a s IH]; simpl; [done |].
  intros Heq. injection Heq as Heq. by apply IH.
Qed.

Lemma Public_CreateThread_exists ctx (l : Ledger) threadID eff :
  5 ≤ length (GetStringArgs ctx) →
  GetStringArgs ctx !! 1 = Some threadID →
  is_Some (l !! threadID) →
  Public.CreateThread ctx l eff = (Err ErrThreadExists, eff).
Proof.
  intros Hlen Hid [v Hv].
  unfold Public.CreateThread, index, sliceFrom, bind, GetState, ret, fail.
  destruct (GetStringArgs ctx) as [| a0 [| a1 [| a2 [| a3 [| a4 rest]]]]];
    simpl in *; try lia.
  simplify_eq. by rewrite Hv.
Qed.

Lemma Voucher_CreateThread_exists ctx (l : Ledger) threadID eff :
  5 ≤ length (GetStringArgs ctx) →
  GetStringArgs ctx !! 1 = Some threadID →
  is_Some (l !! threadID) →
  Voucher.CreateThread ctx l eff = (Err ErrThreadExists, eff).
Proof.
  intros Hlen Hid [v Hv].
  unfold Voucher.CreateThread, index, sliceFrom, bind, GetState, ret, fail.
  destruct (GetStringArgs ctx) as [| a0 [| a1 [| a2 [| a3 [| a4 rest]]]]];
    simpl in *; try lia.
  simplify_eq. by rewrite Hv.
Qed.

(** C9: creating a poll.  With the arguments
    [fn, threadID, category, theme, description, options...]:
    when a record exists at [threadID] the creation fails with the
    already-exists error and writes nothing; when none exists and the
    platform answers, it succeeds and persists the poll with every
    supplied label mapped to the empty vote list and no other label, the
    status ["open"] and no winner; it succeeds only when no record
    exists; and after a success every further creation with that
    identifier fails with the already-exists error.  This holds for
    [CreateThread] of the public contract and of the voucher-index
    contract, which also writes the empty voucher index. *)
Theorem create_poll_once (ctx : Ctx) (l : Ledger)
    (fn threadID category theme description : string) (options : list string) :
  let ctx' := withArgs ctx (fn :: threadID :: category :: theme :: description :: options) in
  (is_Some (l !! threadID) →
     Public.CreateThread ctx' l noEffects = (Err ErrThreadExists, noEffects) ∧
     Voucher.CreateThread ctx' l noEffects = (Err ErrThreadExists, noEffects)) ∧
  (∀ eff, Public.CreateThread ctx' l noEffects = (Ret (), eff) ∨
          Voucher.CreateThread ctx' l noEffects = (Ret (), eff) → l !! threadID = None) ∧
  (∀ clientID org,
     l !! threadID = None →
     submittingClientIdentity ctx = Some clientID →
     mspID ctx = Some org →
     endorsement ctx threadID org = true →
     let poll := mkThread category theme description clientID (makeOptions options) [] "open" in
     Public.CreateThread ctx' l noEffects =
       (Ret (), mkEffects [(threadID, VThread poll)]
                          [("CreateThread " +:+ threadID, VThread poll)]) ∧
     Voucher.CreateThread ctx' l noEffects =
       (Ret (), mkEffects [(threadID, VThread poll); (threadID +:+ "_votes", VIssued ∅)]
                          [("CreateThread " +:+ threadID, VThread poll)]) ∧
     (∀ o, o ∈ options → Options poll !! o = Some []) ∧
     (∀ o, o ∉ options → Options poll !! o = None) ∧
     Status poll = "open" ∧ WinOption poll = [] ∧
     ∀ ctx2 l1,
       invoke (Public.CreateThread ctx') l = (Ret (), l1) ∨
       invoke (Voucher.CreateThread ctx') l = (Ret (), l1) →
       5 ≤ length (GetStringArgs ctx2) →
       GetStringArgs ctx2 !! 1 = Some threadID →
       invoke (Public.CreateThread ctx2) l1 = (Err ErrThreadExists, l1) ∧
       invoke (Voucher.CreateThread ctx2) l1 = (Err ErrThreadExists, l1)).
Proof.
  intros ctx'. split; [| split].
  - intros Hex. split.
    + apply Public_CreateThread_exists with threadID; simpl; [lia | done | done].
    + apply Voucher_CreateThread_exists with threadID; simpl; [lia | done | done].
  - intros eff [Hrun | Hrun]; (destruct (l !! threadID) as [v |] eqn:Hl; [| done]).
    + rewrite (Public_CreateThread_exists ctx' l threadID) in Hrun;
        simpl; [done | lia | done | by rewrite Hl].
    + rewrite (Voucher_CreateThread_exists ctx' l threadID) in Hrun;
        simpl; [done | lia | done | by rewrite Hl].
  - intros clientID org Hfree Hc Horg Hend poll.
    assert (Hpub : Public.CreateThread ctx' l noEffects =
              (Ret (), mkEffects [(threadID, VThread poll)]
                                 [("CreateThread " +:+ threadID, VThread poll)])).
    { unfold Public.CreateThread, index, sliceFrom, bind, GetState, ret, fail,
        GetSubmittingClientIdentity, setAssetStateBasedEndorsement, orFail, PutState, SetEvent.
      simpl. rewrite Hfree, Hc, Horg. simpl. by rewrite Hend. }
    assert (Hvou : Voucher.CreateThread ctx' l noEffects =
              (Ret (), mkEffects [(threadID, VThread poll); (threadID +:+ "_votes", VIssued ∅)]
                                 [("CreateThread " +:+ threadID, VThread poll)])).
    { unfold Voucher.CreateThread, index, sliceFrom, bind, GetState, ret, fail,
        GetSubmittingClientIdentity, setAssetStateBasedEndorsement, orFail, PutState, SetEvent.
      simpl. rewrite Hfree, Hc, Horg. simpl. by rewrite Hend. }
    split; [exact Hpub |]. split; [exact Hvou |].
    split; [| split; [| split; [done | split; [done |]]]].
    + intros o Ho. simpl. by rewrite lookup_makeOptions, decide_True.
    + intros o Ho. simpl. by rewrite lookup_makeOptions, decide_False.
    + intros ctx2 l1 Hl1 Hlen Hid.
      assert (Hex : is_Some (l1 !! threadID)).
      { destruct Hl1 as [Hl1 | Hl1].
        - rewrite (invoke_Ret _ _ _ _ Hpub) in Hl1. simplify_eq. unfold commit. simpl.
          rewrite lookup_insert_eq. eauto.
        - rewrite (invoke_Ret _ _ _ _ Hvou) in Hl1. simplify_eq. unfold commit. simpl.
          rewrite lookup_insert_ne by apply votes_key_ne.
          rewrite lookup_insert_eq. eauto. }
      unfold invoke.
      rewrite (Public_CreateThread_exists ctx2 l1 threadID noEffects Hlen Hid Hex).
      by rewrite (Voucher_CreateThread_exists ctx2 l1 threadID noEffects Hlen Hid Hex).
Qed.

(** C9 on the empty ledger: [alice] creates [P1] with the options [A]
    and [B], and a second creation of [P1] fails. *)
Lemma create_poll_once_witness :
  Public.CreateThread (withArgs createCtx createArgs) ∅ noEffects =
    (Ret (), mkEffects [("P1", VThread (pollAB [] []))]
                       [("CreateThread P1", VThread (pollAB [] []))]) ∧
  invoke (Public.CreateThread createCtx) issueLedger = (Err ErrThreadExists, issueLedger).
Proof.
  destruct (create_poll_once createCtx ∅ "CreateThread" "P1" "category" "theme"
              "description" ["A"; "B"]) as (_ & _ & Hok).
  destruct (Hok "alice" "Org1MSP" (lookup_empty _) eq_refl eq_refl eq_refl)
    as (Hpub & _ & _ & _ & _ & _ & Htwice).
  split.
  - exact Hpub.
  - apply (Htwice createCtx issueLedger).
    + left. rewrite (invoke_Ret _ _ _ _ Hpub). vm_compute. reflexivity.
    + simpl. lia.
    + reflexivity.
Defined.

(** ** The argument-count guard *)

(** A list shorter than four arguments is refused. *)
Lemma create_with_few_arguments ctx (l : Ledger) eff :
  length (GetStringArgs ctx) < 4 →
  Public.CreateThread ctx l eff = (Err ErrNotEnoughArguments, eff) ∧
  Anon.CreateAnonThread ctx l eff = (Err ErrNotEnoughArguments, eff).
Proof.
  intros Hlen. unfold Public.CreateThread, Anon.CreateAnonThread, fail.
  by rewrite !decide_True by done.
Qed.

(** From five arguments on every positional access is in range. *)
Lemma create_with_five_arguments_in_range ctx (l : Ledger) eff :
  5 ≤ length (GetStringArgs ctx) →
  (Public.CreateThread ctx l eff).1 ≠ Panic ∧
  (Anon.CreateAnonThread ctx l eff).1 ≠ Panic.
Proof.
  intros Hlen.
  destruct (GetStringArgs ctx) as [| a0 [| a1 [| a2 [| a3 [| a4 rest]]]]] eqn:Hargs;
    simpl in Hlen; try lia.
  split; unfold Public.CreateThread, Anon.CreateAnonThread; rewrite Hargs; crunch; done.
Qed.

(** C10, the failing input: with exactly four arguments the guard
    [len(args) < 4] lets the call through and [args[4]] is out of range,
    so [CreateThread] and [CreateAnonThread] panic instead of returning
    the not-enough-arguments error; with exactly five arguments they do
    not return that error either but go on to create a poll without
    options. *)
Theorem create_with_four_arguments_panics (ctx : Ctx) (l : Ledger) (a0 a1 a2 a3 a4 : string) :
  Public.CreateThread (withArgs ctx [a0; a1; a2; a3]) l noEffects = (Panic, noEffects) ∧
  Anon.CreateAnonThread (withArgs ctx [a0; a1; a2; a3]) l noEffects = (Panic, noEffects) ∧
  (Public.CreateThread (withArgs ctx [a0; a1; a2; a3; a4]) l noEffects).1
    ≠ Err ErrNotEnoughArguments ∧
  (Anon.CreateAnonThread (withArgs ctx [a0; a1; a2; a3; a4]) l noEffects).1
    ≠ Err ErrNotEnoughArguments.
Proof.
  split; [reflexivity |]. split; [reflexivity |].
  split; crunch; done.
Qed.

(** ** Redeeming a token *)

Section redeem.
Context {stub : Stub}.

(** In the public contract a redeemed token is refused: after a
    successful [UseVote] the same call fails with the already-used error
    and leaves the ledger, the tallies included, as it was. *)
Lemma Public_UseVote_once ctx (l l1 : Ledger) threadID txID option collection userID voteKey :
  collectionName ctx = Some collection →
  enrollmentID ctx = Some userID →
  CreateCompositeKey voteKeyType [threadID; txID; collection; userID] = Some voteKey →
  voteKey ≠ threadID →
  invoke (Public.UseVote ctx threadID txID option) l = (Ret (), l1) →
  l1 !! voteKey = Some (VBytes "false") ∧
  invoke (Public.UseVote ctx threadID txID option) l1 = (Err ErrVoteAlreadyUsed, l1).
Proof.
  intros Hcoll Huser Hkey Hne Hrun.
  unfold invoke in Hrun.
  destruct (Public.UseVote ctx threadID txID option l noEffects) as [[[] | e |] eff] eqn:Hop;
    simplify_eq.
  revert Hop. unfold Public.UseVote, QueryThread, getCollectionName, bind, GetState, orFail,
    ret, fail, PutState, SetEvent.
  rewrite Hcoll, Huser, Hkey. simpl.
  destruct (l !! threadID) as [v |] eqn:Hl; [| done]. simpl.
  destruct (decodeThread v) as [thread |] eqn:Hv; [| done]. simpl.
  destruct (decide (Status thread ≠ "open")) as [Hs | Hs]; [done |].
  apply dec_stable in Hs.
  destruct (l !! voteKey) as [d |] eqn:Hd; [| done].
  destruct (lenIs5 d); [done |].
  destruct (negb (contains (Options thread) option)); [done |].
  intros Hop. simplify_eq. unfold commit. simpl.
  split; [apply lookup_insert_eq |].
  unfold invoke, Public.UseVote, QueryThread, getCollectionName, bind, GetState, orFail,
    ret, fail.
  rewrite lookup_insert_ne, lookup_insert_eq by done. simpl.
  rewrite Hs. simpl.
  by rewrite lookup_insert_eq.
Qed.

End redeem.

(** The public contract on the sample ledger: [bob] redeems his token
    once and is refused the second time. *)
Lemma Public_UseVote_once_example :
  ∃ l1, invoke (Public.UseVote (stub := testStub) bobCtx "P1" "tx1" "A") publicLedger
          = (Ret (), l1) ∧
        l1 !! "P1" = Some (VThread (pollAB ["bob"] [])) ∧
        invoke (Public.UseVote (stub := testStub) bobCtx "P1" "tx1" "A") l1
          = (Err ErrVoteAlreadyUsed, l1).
Proof.
  eexists. split; [vm_compute; reflexivity |]. split; [vm_compute; reflexivity |].
  refine (proj2 (Public_UseVote_once (stub := testStub) bobCtx publicLedger _ "P1" "tx1" "A"
                   "_implicit_org_Org1MSP" "bob" bobKey1 eq_refl eq_refl _ _ _)).
  - vm_compute. reflexivity.
  - discriminate.
  - vm_compute. reflexivity.
Qed.

(** C2, the failing input: in the plain contract the token has no used
    flag.  [bob] redeems the token of [tx1] on [P1] for [A], and the same
    call succeeds a second time and appends [bob] to [A] once more. *)
Theorem plain_token_redeemed_twice :
  let r1 := invoke (Plain.UseVote (stub := testStub) bobCtx "P1" "tx1" "A") plainLedger in
  let r2 := invoke (Plain.UseVote (stub := testStub) bobCtx "P1" "tx1" "A") r1.2 in
  r1.1 = Ret () ∧
  r1.2 !! "P1" = Some (VThread (pollAB ["bob"] [])) ∧
  r2.1 = Ret () ∧
  r2.2 !! "P1" = Some (VThread (pollAB ["bob"; "bob"] [])).
Proof. vm_compute. repeat split; reflexivity. Qed.

(** C5, the failing input: the key that [CreateVote] of the public
    contract looks up holds the fresh transaction identifier, so the
    check for an earlier token of the recipient finds nothing.  [alice]
    issues a token to [bob] on [P1] in [tx1] and again in [tx2]; both
    calls succeed and the ledger holds two unused tokens of [bob] on
    [P1]. *)
Theorem second_token_for_same_recipient :
  let r1 := invoke (Public.CreateVote (stub := testStub) (issueCtx "tx1") "P1" "bob")
                   issueLedger in
  let r2 := invoke (Public.CreateVote (stub := testStub) (issueCtx "tx2") "P1" "bob") r1.2 in
  r1.1 = Ret "tx1" ∧
  r2.1 = Ret "tx2" ∧
  fabricCompositeKey voteKeyType ["P1"; "tx1"; "_implicit_org_Org1MSP"; "bob"] = Some bobKey1 ∧
  fabricCompositeKey voteKeyType ["P1"; "tx2"; "_implicit_org_Org1MSP"; "bob"] = Some bobKey2 ∧
  bobKey1 ≠ bobKey2 ∧
  r2.2 !! bobKey1 = Some (VBytes "true") ∧
  r2.2 !! bobKey2 = Some (VBytes "true").
Proof. vm_compute. repeat split; try reflexivity. discriminate. Qed.

(** ** Failures and writes *)



Section failures.
Context {stub : Stub}.

(** On the reliable platform the operations of [Faulty] are the
    operations of the contracts. *)
Lemma Faulty_reliable (ctx : Ctx) (threadID userID txID option : string) :
  Faulty.Public.CreateThread reliable ctx = Public.CreateThread ctx ∧
  Faulty.Public.CreateVote reliable ctx threadID userID = Public.CreateVote ctx threadID userID ∧
  Faulty.Public.UseVote reliable ctx threadID txID option
    = Public.UseVote ctx threadID txID option ∧
  Faulty.Public.EndThread reliable ctx threadID = Public.EndThread ctx threadID ∧
  Faulty.Plain.CreateThread reliable ctx = Plain.CreateThread ctx ∧
  Faulty.Plain.CreateVote reliable ctx threadID = Plain.CreateVote ctx threadID ∧
  Faulty.Plain.UseVote reliable ctx threadID txID option
    = Plain.UseVote ctx threadID txID option ∧
  Faulty.Plain.EndThread reliable ctx threadID = Plain.EndThread ctx threadID ∧
  Faulty.Voucher.CreateThread reliable ctx = Voucher.CreateThread ctx ∧
  Faulty.Voucher.CreateVote reliable ctx threadID userID
    = Voucher.CreateVote ctx threadID userID ∧
  Faulty.Voucher.UseVote reliable ctx threadID txID option
    = Voucher.UseVote ctx threadID txID option ∧
  Faulty.Voucher.EndThread reliable ctx threadID = Voucher.EndThread ctx threadID ∧
  Faulty.Anon.CreateAnonThread reliable ctx = Anon.CreateAnonThread ctx ∧
  Faulty.Anon.UseAnonVote reliable ctx = Anon.UseAnonVote ctx ∧
  Faulty.Anon.EndAnonThread reliable ctx = Anon.EndAnonThread ctx ∧
  Faulty.Anon2.CreateAnonThread reliable ctx = Anon2.CreateAnonThread ctx ∧
  Faulty.Anon2.UseAnonVote reliable ctx = Anon2.UseAnonVote ctx ∧
  Faulty.Anon2.EndAnonThread reliable ctx = Anon2.EndAnonThread ctx.
Proof. repeat apply conj; reflexivity. Qed.



(** The failures on the index in [CreateVote] of the voucher-index
    contract do not occur on a poll that is stored with its index, as
    [CreateThread] of that contract stores it. *)
Lemma voucher_issue_with_index (P : Platform) (ctx : Ctx) (l : Ledger)
    (threadID userID : string) (thread : Thread) (m : gmap string bool)
    (o : outcome string) (eff : Effects) :
  l !! threadID = Some (VThread thread) →
  l !! (threadID +:+ "_votes") = Some (VIssued m) →
  Faulty.Voucher.CreateVote P ctx threadID userID l noEffects = (o, eff) →
  o ≠ Err ErrVotesUnmarshal ∧ o ≠ Panic.
Proof.
  intros Hl Hidx Hrun.
  unfold Faulty.Voucher.CreateVote, Faulty.QueryThread, Faulty.GetState, Faulty.PutState,
    GetSubmittingClientIdentity, getCollectionName, bind, GetState, PutState, orFail, ret,
    fail in Hrun.
  remember (threadID +:+ "_votes") as votesKey eqn:Hkey. clear Hkey.
  repeat (case_match; simplify_eq; simpl in * ); try (by split);
    match goal with
    | H : decodeIssuedVotes _ = _ |- _ => rewrite Hidx in H; simpl in H; by simplify_eq
    end.
Qed.

End failures.

(** When the platform refuses the second write of the public [UseVote],
    the operation returns the error with the poll in its write set, and
    the ledger stays as it was. *)
Lemma UseVote_token_write_refused :
  Faulty.Public.UseVote (stub := testStub) (tokenRefused bobKey1) bobCtx "P1" "tx1" "A"
    publicLedger noEffects =
    (Err ErrPutState, mkEffects [("P1", VThread (pollAB ["bob"] []))] []) ∧
  invoke (Faulty.Public.UseVote (stub := testStub) (tokenRefused bobKey1) bobCtx "P1" "tx1" "A")
    publicLedger = (Err ErrPutState, publicLedger).
Proof. vm_compute. split; reflexivity. Qed.


(** ** The status of a poll *)

Lemma commit_statusWithin s1 s2 (l : Ledger) eff :
  map_Forall (λ _ v, statusWithin s1 s2 v) l →
  Forall (λ kv, statusWithin s1 s2 kv.2) (writes eff) →
  map_Forall (λ _ v, statusWithin s1 s2 v) (commit l eff).
Proof.
  unfold commit. generalize (writes eff). intros ws. revert l.
  induction ws as [| [k v] ws IH]; intros l Hl Hws; simpl; [done |].
  apply Forall_cons in Hws as [Hv Hws].
  apply IH; [| done]. by apply map_Forall_insert_2.
Qed.

Lemma invoke_statusWithin s1 s2 (op : M unit) (l l' : Ledger) o :
  (∀ o eff, op l noEffects = (o, eff) → Forall (λ kv, statusWithin s1 s2 kv.2) (writes eff)) →
  map_Forall (λ _ v, statusWithin s1 s2 v) l →
  invoke op l = (o, l') →
  map_Forall (λ _ v, statusWithin s1 s2 v) l'.
Proof.
  intros Hop Hl Hrun. unfold invoke in Hrun.
  destruct (op l noEffects) as [[a | e |] eff] eqn:Hrun'; simplify_eq; try done.
  apply commit_statusWithin; [done |]. by apply (Hop (Ret a)).
Qed.

Ltac status_writes :=
  crunch; repeat (apply Forall_cons; split); try apply Forall_nil; simpl;
  first [done | by left | by right | left; by apply dec_stable].

Section status.
Context {stub : Stub}.

Lemma publicRun_writes ctx c (l : Ledger) o eff :
  publicRun ctx c l noEffects = (o, eff) →
  Forall (λ kv, statusWithin "open" "closed" kv.2) (writes eff).
Proof. intros Hrun. destruct c; unfold publicRun in Hrun; status_writes. Qed.

Lemma plainRun_writes ctx c (l : Ledger) o eff :
  plainRun ctx c l noEffects = (o, eff) →
  Forall (λ kv, statusWithin "open" "ended" kv.2) (writes eff).
Proof. intros Hrun. destruct c; unfold plainRun in Hrun; status_writes. Qed.

Lemma reachable_public_status (l : Ledger) :
  reachable publicRun l → map_Forall (λ _ v, statusWithin "open" "closed" v) l.
Proof.
  induction 1 as [| l ctx c o l' _ IH Hrun]; [apply map_Forall_empty |].
  eapply invoke_statusWithin; [| exact IH | exact Hrun].
  intros o' eff. apply publicRun_writes.
Qed.

Lemma reachable_plain_status (l : Ledger) :
  reachable plainRun l → map_Forall (λ _ v, statusWithin "open" "ended" v) l.
Proof.
  induction 1 as [| l ctx c o l' _ IH Hrun]; [apply map_Forall_empty |].
  eapply invoke_statusWithin; [| exact IH | exact Hrun].
  intros o' eff. apply plainRun_writes.
Qed.

(** The statuses the two contracts persist: every poll on a ledger that
    the operations of the public contract reach has the status ["open"]
    or ["closed"], and a successful [EndThread] of that contract on an
    open poll persists it with the status ["closed"]; in the plain
    contract a successful [EndThread] persists the poll with the status
    ["ended"], so the polls on the ledgers that its operations reach
    have the status ["open"] or ["ended"]. *)
Theorem poll_status_open_closed_or_ended (l : Ledger) (threadID : string) (thread : Thread) :
  l !! threadID = Some (VThread thread) →
  (reachable publicRun l → Status thread = "open" ∨ Status thread = "closed") ∧
  (reachable plainRun l → Status thread = "open" ∨ Status thread = "ended") ∧
  (∀ ctx, Status thread = "open" →
          submittingClientIdentity ctx = Some (Creator thread) →
     (∃ winOptions,
        invoke (Public.EndThread ctx threadID) l =
          (Ret (), <[threadID := VThread (mkThread (Category thread) (Theme thread)
                                    (Description thread) (Creator thread) (Options thread)
                                    winOptions "closed")]> l)) ∧
     (∃ winOptions,
        invoke (Plain.EndThread ctx threadID) l =
          (Ret (), <[threadID := VThread (mkThread (Category thread) (Theme thread)
                                    (Description thread) (Creator thread) (Options thread)
                                    winOptions "ended")]> l))).
Proof.
  intros Hl. split; [| split].
  - intros Hreach. by apply (reachable_public_status l Hreach threadID (VThread thread)).
  - intros Hreach. by apply (reachable_plain_status l Hreach threadID (VThread thread)).
  - intros ctx Hs Hc. split; eexists.
    + by rewrite (invoke_Ret _ _ _ _
                    (Public_EndThread_run ctx threadID l _ thread noEffects Hl eq_refl Hc Hs)).
    + by rewrite (invoke_Ret _ _ _ _
                    (Plain_EndThread_run ctx threadID l _ thread noEffects Hl eq_refl Hc Hs)).
Qed.

End status.

(** The status of [P1] on the ledger reached by creating it. *)
Lemma poll_status_open_closed_or_ended_witness :
  Status (pollAB [] []) = "open" ∨ Status (pollAB [] []) = "closed".
Proof.
  destruct (poll_status_open_closed_or_ended (stub := testStub) issueLedger "P1" (pollAB [] []))
    as (Hpub & _ & _).
  - vm_compute. reflexivity.
  - apply Hpub.
    apply (reachable_invoke _ ∅ createCtx CallCreateThread (Ret ()));
      [apply reachable_empty | vm_compute; reflexivity].
Defined.

(** C4, the failing input: [EndThread] of the plain contract, whose
    comment says that it changes the status to closed, assigns
    ["closed"] and, after the winner loop, ["ended"], and persists the
    latter.  The creator closes the tied poll [P1]; the poll is stored
    with the status ["ended"], which is neither ["open"] nor
    ["closed"]. *)
Theorem plain_close_persists_ended :
  ∃ winOptions,
    invoke (Plain.EndThread (aliceCtx orderAB) "P1") tiedLedger =
      (Ret (), <["P1" := VThread (mkThread "category" "theme" "description" "alice"
                                     {[ "A" := ["x"]; "B" := ["y"] ]} winOptions "ended")]>
                 tiedLedger) ∧
    "ended" ≠ "open" ∧ "ended" ≠ "closed".
Proof. exists ["A"; "B"]. split; [vm_compute; reflexivity | done]. Qed.

(** ** Casting a vote *)

Lemma castOn_insert (thread : Thread) option userID votes :
  Options thread !! option = Some votes →
  castOn thread option userID
    (mkThread (Category thread) (Theme thread) (Description thread) (Creator thread)
       (<[option := (Options thread !!! option) ++ [userID]]> (Options thread))
       (WinOption thread) (Status thread)).
Proof.
  intros Hopt. unfold castOn. simpl. repeat split.
  - apply set_eq. intros o. rewrite dom_insert, elem_of_union, elem_of_singleton, !elem_of_dom.
    split; [| tauto]. intros [-> | Ho]; [by rewrite Hopt | done].
  - exists votes. split; [done |].
    by rewrite lookup_insert_eq, (lookup_total_correct _ _ _ Hopt).
  - intros o Ho. by rewrite lookup_insert_ne.
Qed.

Lemma contains_true (m : gmap string (list string)) option :
  negb (contains m option) = false → ∃ votes, m !! option = Some votes.
Proof.
  unfold contains. intros Hc. apply negb_false_iff, bool_decide_eq_true_1 in Hc.
  by destruct Hc as [votes Hv]; exists votes.
Qed.

Section cast.
Context {stub : Stub}.

(** X6: what a successful cast does.  When [UseVote] of the public, the
    plain or the voucher-index contract returns without error, the poll
    was open, the chosen label was one of its options, and the one poll
    it writes is the poll it read with the caller's enrollment identity
    appended to the vote list of that label: every other vote list, the
    set of option labels, the creator, the texts, the winners and the
    status are unchanged. *)
Theorem cast_adds_one_vote (ctx : Ctx) (l : Ledger) (threadID txID option : string)
    (eff : Effects) :
  Public.UseVote ctx threadID txID option l noEffects = (Ret (), eff) ∨
  Plain.UseVote ctx threadID txID option l noEffects = (Ret (), eff) ∨
  Voucher.UseVote ctx threadID txID option l noEffects = (Ret (), eff) →
  ∃ v thread thread' userID,
    l !! threadID = Some v ∧ decodeThread v = Some thread ∧ Status thread = "open" ∧
    enrollmentID ctx = Some userID ∧
    castOn thread option userID thread' ∧
    (threadID, VThread thread') ∈ writes eff ∧
    (∀ k w, (k, VThread w) ∈ writes eff → k = threadID ∧ w = thread') ∧
    events eff = [("UseVote " +:+ threadID, VThread thread')].
Proof.
  intros [Hrun | [Hrun | Hrun]]; crunch;
    match goal with
    | H : negb (contains _ _) = false |- _ => destruct (contains_true _ _ H) as [votes Hvotes]
    end;
    (eexists _, _, _, _; split; [done |]; split; [done |];
     split; [by apply dec_stable |]; split; [done |];
     split; [by eapply castOn_insert |];
     split; [by left |]; split; [| done];
     intros k w Hin;
     repeat (apply elem_of_cons in Hin as [Hin | Hin]; [by simplify_eq |]);
     by apply elem_of_nil in Hin).
Qed.

End cast.

Lemma cast_adds_one_vote_witness :
  let eff := (Public.UseVote (stub := testStub) bobCtx "P1" "tx1" "A" publicLedger noEffects).2 in
  ∃ v thread thread' userID,
    publicLedger !! "P1" = Some v ∧ decodeThread v = Some thread ∧ Status thread = "open" ∧
    enrollmentID bobCtx = Some userID ∧
    castOn thread "A" userID thread' ∧
    ("P1", VThread thread') ∈ writes eff ∧
    (∀ k w, (k, VThread w) ∈ writes eff → k = "P1" ∧ w = thread') ∧
    events eff = [("UseVote " +:+ "P1", VThread thread')].
Proof.
  apply (cast_adds_one_vote (stub := testStub) bobCtx publicLedger "P1" "tx1" "A").
  left. vm_compute. reflexivity.
Defined.

(** ** A token is redeemed once *)

Lemma invoke_inv {A} (op : M A) (l l1 : Ledger) a :
  invoke op l = (Ret a, l1) → ∃ eff, op l noEffects = (Ret a, eff) ∧ l1 = commit l eff.
Proof.
  unfold invoke. destruct (op l noEffects) as [[a' | e |] eff] eqn:Hop; intros Heq;
    simplify_eq. by exists eff.
Qed.

Lemma invoke_Err {A} (op : M A) (l : Ledger) e eff :
  op l noEffects = (Err e, eff) → invoke op l = (Err e, l).
Proof. intros Hop. unfold invoke. by rewrite Hop. Qed.

Section single_use.
Context {stub : Stub}.

(** X7: in the public contract a token is redeemed once.  After a
    successful [UseVote] the token holds the used flag, and the same
    voter presenting the same transaction identifier again, for any
    option, is refused with the already-used error; the ledger, tallies
    included, stays as it was. *)
Theorem public_token_single_use (ctx : Ctx) (l l1 : Ledger)
    (threadID txID option option' collection userID voteKey : string) :
  collectionName ctx = Some collection →
  enrollmentID ctx = Some userID →
  CreateCompositeKey voteKeyType [threadID; txID; collection; userID] = Some voteKey →
  voteKey ≠ threadID →
  invoke (Public.UseVote ctx threadID txID option) l = (Ret (), l1) →
  l1 !! voteKey = Some (VBytes "false") ∧
  invoke (Public.UseVote ctx threadID txID option') l1 = (Err ErrVoteAlreadyUsed, l1).
Proof.
  intros Hcoll Huser Hkey Hne (eff & Hop & ->)%invoke_inv.
  crunch. unfold commit. simpl.
  split; [apply lookup_insert_eq |].
  eapply invoke_Err. unfold_ops.
  rewrite lookup_insert_ne, lookup_insert_eq by done. simpl.
  match goal with |- context [decide (Status ?t ≠ "open")] =>
    destruct (decide (Status t ≠ "open")); [done |] end.
  by rewrite lookup_insert_eq.
Qed.

(** X9: in the second anonymous contract a token is redeemed once.
    After a successful [UseAnonVote] the token holds the used flag, and
    the same invocation again is refused with the already-used error,
    so no second commitment is stored. *)
Theorem anon_token_single_use (ctx : Ctx) (l l1 : Ledger) (tm : gmap string bytes)
    (raw : bytes) (vote : AnonVote) (collection userID voteKey : string) :
  GetTransient ctx = Some tm →
  tm !! "option" = Some raw →
  jsonUnmarshalAnonVote raw = JVal vote →
  collectionName ctx = Some collection →
  enrollmentID ctx = Some userID →
  CreateCompositeKey voteKeyType [ThreadID vote; TxID vote; collection; userID] = Some voteKey →
  voteKey ≠ ThreadID vote →
  invoke (Anon2.UseAnonVote ctx) l = (Ret (), l1) →
  l1 !! voteKey = Some (VBytes "false") ∧
  invoke (Anon2.UseAnonVote ctx) l1 = (Err ErrVoteAlreadyUsed, l1).
Proof.
  intros Htm Hraw Hvote Hcoll Huser Hkey Hne (eff & Hop & ->)%invoke_inv.
  revert Hop. unfold Anon2.UseAnonVote at 1. unfold_ops.
  rewrite Htm, Hraw, Hvote. simpl.
  destruct (l !! ThreadID vote) as [v |] eqn:Hl; [| done]. simpl.
  destruct (decodeAnonThread v) as [tread |] eqn:Hv; [| done]. simpl.
  destruct (decide (AStatus tread ≠ "open")) as [Hs | Hs]; [done |].
  rewrite Hcoll, Huser. simpl. rewrite Hkey. simpl.
  destruct (l !! voteKey) as [d |] eqn:Hd; [| done].
  destruct (lenIs5 d); [done |].
  destruct (negb (contains (AOptions tread) (Option vote))); [done |].
  intros Hop. simplify_eq. unfold commit. simpl.
  split; [apply lookup_insert_eq |].
  eapply invoke_Err.
  rewrite lookup_insert_ne, lookup_insert_eq by done. simpl.
  rewrite decide_False by done.
  by rewrite lookup_insert_eq.
Qed.

Lemma Voucher_UseVote_inv ctx threadID txID option (l : Ledger) eff :
  Voucher.UseVote ctx threadID txID option l noEffects = (Ret (), eff) →
  ∃ thread' m,
    Status thread' = "open" ∧
    writes eff = [(threadID, VThread thread'); (threadID +:+ "_votes", VIssued (<[txID := true]> m))].
Proof.
  intros Hop. crunch. eexists _, _. split; [| done]. simpl. by apply dec_stable.
Qed.

(** X8: in the voucher-index contract a voucher is redeemed once.  After
    a successful [UseVote] with a transaction identifier, every later
    [UseVote] on that poll with that identifier, by any caller and for
    any option, is refused with the already-used error and changes
    nothing. *)
Theorem voucher_single_use (ctx ctx' : Ctx) (l l1 : Ledger)
    (threadID txID option option' : string) :
  invoke (Voucher.UseVote ctx threadID txID option) l = (Ret (), l1) →
  invoke (Voucher.UseVote ctx' threadID txID option') l1 = (Err ErrIssuedVoteUsed, l1).
Proof.
  intros (eff & Hop & ->)%invoke_inv.
  destruct (Voucher_UseVote_inv _ _ _ _ _ _ Hop) as (thread' & m & Hs & Hw).
  unfold commit. rewrite Hw. simpl.
  eapply invoke_Err. unfold Voucher.UseVote, QueryThread, bind, GetState, orFail, ret, fail.
  rewrite lookup_insert_ne by apply votes_key_ne. rewrite lookup_insert_eq. simpl.
  rewrite decide_False by (intros Hne; by apply Hne).
  rewrite lookup_insert_eq. simpl. unfold lookupVote. simpl.
  by rewrite lookup_insert_eq.
Qed.

End single_use.

Lemma public_token_single_use_witness :
  let l1 := (invoke (Public.UseVote (stub := testStub) bobCtx "P1" "tx1" "A") publicLedger).2 in
  l1 !! bobKey1 = Some (VBytes "false") ∧
  invoke (Public.UseVote (stub := testStub) bobCtx "P1" "tx1" "B") l1
    = (Err ErrVoteAlreadyUsed, l1).
Proof.
  apply (public_token_single_use (stub := testStub) bobCtx publicLedger _ "P1" "tx1" "A" "B"
           "_implicit_org_Org1MSP" "bob" bobKey1).
  - reflexivity.
  - reflexivity.
  - vm_compute. reflexivity.
  - discriminate.
  - vm_compute. reflexivity.
Defined.

Lemma anon_token_single_use_witness :
  let l1 := (invoke (Anon2.UseAnonVote (stub := testStub) commitCtx) anon2Ledger).2 in
  l1 !! anonBobKey = Some (VBytes "false") ∧
  invoke (Anon2.UseAnonVote (stub := testStub) commitCtx) l1 = (Err ErrVoteAlreadyUsed, l1).
Proof.
  apply (anon_token_single_use (stub := testStub) commitCtx anon2Ledger _
           {[ "option" := "P2|tx1|A|s1" ]} "P2|tx1|A|s1" (mkAnonVote "P2" "tx1" "A" "s1")
           "_implicit_org_Org1MSP" "bob" anonBobKey).
  - reflexivity.
  - vm_compute. reflexivity.
  - vm_compute. reflexivity.
  - reflexivity.
  - reflexivity.
  - vm_compute. reflexivity.
  - discriminate.
  - vm_compute. reflexivity.
Defined.

Lemma voucher_single_use_witness :
  let l1 := (invoke (Voucher.UseVote (stub := testStub) bobCtx "P1" "tx1" "A") voucherLedger).2 in
  invoke (Voucher.UseVote (stub := testStub) (aliceCtx orderAB) "P1" "tx1" "B") l1
    = (Err ErrIssuedVoteUsed, l1).
Proof.
  apply (voucher_single_use (stub := testStub) bobCtx (aliceCtx orderAB) voucherLedger _
           "P1" "tx1" "A" "B").
  vm_compute. reflexivity.
Defined.

(** ** Issuing a token *)

Section issue.
Context {stub : Stub}.

Lemma Public_CreateVote_run ctx (l : Ledger) threadID userID v thread collection voteKey eff :
  l !! threadID = Some v →
  decodeThread v = Some thread →
  submittingClientIdentity ctx = Some (Creator thread) →
  Status thread = "open" →
  collectionName ctx = Some collection →
  CreateCompositeKey voteKeyType [threadID; GetTxID ctx; collection; userID] = Some voteKey →
  l !! voteKey = None →
  Public.CreateVote ctx threadID userID l eff =
    (Ret (GetTxID ctx), mkEffects (writes eff ++ [(voteKey, VBytes "true")]) (events eff)).
Proof.
  intros Hl Hv Hc Hs Hcoll Hkey Hfree.
  unfold Public.CreateVote, QueryThread, GetSubmittingClientIdentity, getCollectionName,
    bind, GetState, orFail, ret, fail, PutState.
  rewrite Hc, Hl, Hv. simpl.
  rewrite decide_False by (intros Hne; by apply Hne).
  rewrite decide_False by (intros Hne; by apply Hne).
  rewrite Hcoll. simpl. rewrite Hkey. simpl. by rewrite Hfree.
Qed.

(** X3: issuing a token in the public contract.  [CreateVote] returns
    without error exactly when the caller is the creator of the poll,
    the poll is open, the platform answers and no value is stored under
    the composite key of (poll, this transaction, organization,
    recipient); it then returns the identifier of the transaction as the
    handle and writes one entry, the unused token under that key, and no
    event. *)
Theorem public_issue (ctx : Ctx) (l : Ledger) (threadID userID : string) :
  (∀ handle eff,
     Public.CreateVote ctx threadID userID l noEffects = (Ret handle, eff) →
     handle = GetTxID ctx ∧
     ∃ v thread collection voteKey,
       l !! threadID = Some v ∧ decodeThread v = Some thread ∧
       submittingClientIdentity ctx = Some (Creator thread) ∧ Status thread = "open" ∧
       collectionName ctx = Some collection ∧
       CreateCompositeKey voteKeyType [threadID; GetTxID ctx; collection; userID]
         = Some voteKey ∧
       l !! voteKey = None ∧
       eff = mkEffects [(voteKey, VBytes "true")] []) ∧
  (∀ v thread collection voteKey,
     l !! threadID = Some v → decodeThread v = Some thread →
     submittingClientIdentity ctx = Some (Creator thread) → Status thread = "open" →
     collectionName ctx = Some collection →
     CreateCompositeKey voteKeyType [threadID; GetTxID ctx; collection; userID]
       = Some voteKey →
     l !! voteKey = None →
     Public.CreateVote ctx threadID userID l noEffects =
       (Ret (GetTxID ctx), mkEffects [(voteKey, VBytes "true")] [])).
Proof.
  split.
  - intros handle eff Hrun. crunch. split; [done |].
    eexists _, _, _, _. repeat split; try done.
    + f_equal. symmetry. by apply dec_stable.
    + by apply dec_stable.
  - intros v thread collection voteKey Hl Hv Hc Hs Hcoll Hkey Hfree.
    by rewrite (Public_CreateVote_run ctx l threadID userID v thread collection voteKey).
Qed.

(** X4: issuing on a poll that is not open.  [CreateVote] of the public
    contract refuses the creator with the not-open error, while
    [CreateVote] of the plain and of the voucher-index contract does not
    look at the status and issues the token all the same. *)
Theorem issue_on_closed_poll (ctx : Ctx) (l : Ledger) (threadID userID : string)
    (v : Value) (thread : Thread) (collection : string) :
  l !! threadID = Some v →
  decodeThread v = Some thread →
  submittingClientIdentity ctx = Some (Creator thread) →
  Status thread ≠ "open" →
  collectionName ctx = Some collection →
  Public.CreateVote ctx threadID userID l noEffects = (Err ErrNotOpen, noEffects) ∧
  (∀ voteKey,
     CreateCompositeKey voteKeyType [threadID; GetTxID ctx; collection] = Some voteKey →
     Plain.CreateVote ctx threadID l noEffects =
       (Ret (GetTxID ctx), mkEffects [(voteKey, VBytes "vote")] [])) ∧
  (∀ voteKey m,
     CreateCompositeKey voteKeyType [threadID; GetTxID ctx; collection; userID]
       = Some voteKey →
     l !! (threadID +:+ "_votes") = Some (VIssued m) →
     Voucher.CreateVote ctx threadID userID l noEffects =
       (Ret (GetTxID ctx),
        mkEffects [(voteKey, VBytes "vote");
                   (threadID +:+ "_votes", VIssued (<[GetTxID ctx := false]> m))] [])).
Proof.
  intros Hl Hv Hc Hs Hcoll. split; [| split].
  - unfold Public.CreateVote, QueryThread, GetSubmittingClientIdentity, bind, GetState,
      orFail, ret, fail.
    rewrite Hc, Hl, Hv. simpl.
    rewrite decide_False by (intros Hne; by apply Hne).
    by rewrite decide_True.
  - intros voteKey Hkey.
    unfold Plain.CreateVote, QueryThread, GetSubmittingClientIdentity, getCollectionName,
      bind, GetState, orFail, ret, fail, PutState.
    rewrite Hc, Hl, Hv. simpl.
    rewrite decide_False by (intros Hne; by apply Hne).
    rewrite Hcoll. simpl. by rewrite Hkey.
  - intros voteKey m Hkey Hidx.
    unfold Voucher.CreateVote, QueryThread, GetSubmittingClientIdentity, getCollectionName,
      bind, GetState, orFail, ret, fail, PutState.
    rewrite Hc, Hl, Hv. simpl.
    rewrite decide_False by (intros Hne; by apply Hne).
    rewrite Hcoll. simpl. rewrite Hkey. simpl. by rewrite Hidx.
Qed.

(** X5: a token issued to a voter is redeemable by that voter, and by
    that voter only.  The creator issues a token to [userID] on an open
    poll; the transaction is committed; then [UseVote] with the returned
    handle by a caller of the same organization whose enrollment
    identity is [userID] succeeds for any option of the poll, appends
    [userID] to that option and marks the token used, while a caller
    with another enrollment identity, for whom no token is stored, is
    refused with the does-not-exist error. *)
Theorem issue_then_redeem (ictx vctx octx : Ctx) (l : Ledger) (threadID userID other option : string)
    (thread : Thread) (votes : list string) (collection voteKey otherKey : string) :
  l !! threadID = Some (VThread thread) →
  Status thread = "open" →
  submittingClientIdentity ictx = Some (Creator thread) →
  collectionName ictx = Some collection →
  CreateCompositeKey voteKeyType [threadID; GetTxID ictx; collection; userID] = Some voteKey →
  l !! voteKey = None →
  collectionName vctx = Some collection →
  enrollmentID vctx = Some userID →
  Options thread !! option = Some votes →
  collectionName octx = Some collection →
  enrollmentID octx = Some other →
  CreateCompositeKey voteKeyType [threadID; GetTxID ictx; collection; other] = Some otherKey →
  otherKey ≠ voteKey →
  l !! otherKey = None →
  let l1 := <[voteKey := VBytes "true"]> l in
  let thread' := mkThread (Category thread) (Theme thread) (Description thread)
                   (Creator thread) (<[option := votes ++ [userID]]> (Options thread))
                   (WinOption thread) (Status thread) in
  invoke (Public.CreateVote ictx threadID userID) l = (Ret (GetTxID ictx), l1) ∧
  invoke (Public.UseVote vctx threadID (GetTxID ictx) option) l1 =
    (Ret (), <[voteKey := VBytes "false"]> (<[threadID := VThread thread']> l1)) ∧
  invoke (Public.UseVote octx threadID (GetTxID ictx) option) l1 =
    (Err ErrVoteDoesNotExist, l1).
Proof.
  intros Hl Hs Hc Hcoll Hkey Hfree Hvcoll Hvuser Hopt Hocoll Houser Hokey Hone Hofree l1 thread'.
  assert (Hne : voteKey ≠ threadID).
  { intros ->. by rewrite Hl in Hfree. }
  assert (Hl1 : l1 !! threadID = Some (VThread thread)).
  { unfold l1. by rewrite lookup_insert_ne. }
  split; [| split].
  - by rewrite (invoke_Ret _ _ _ _
                  (Public_CreateVote_run ictx l threadID userID _ thread collection voteKey
                     noEffects Hl eq_refl Hc Hs Hcoll Hkey Hfree)).
  - unfold invoke, Public.UseVote, QueryThread, getCollectionName, bind, GetState, orFail,
      ret, fail, PutState, SetEvent.
    rewrite Hl1. simpl. rewrite decide_False by (intros Hn; by apply Hn).
    rewrite Hvcoll, Hvuser. simpl. rewrite Hkey. simpl.
    unfold l1 at 1. rewrite lookup_insert_eq. simpl.
    unfold contains. rewrite bool_decide_eq_true_2 by (by rewrite Hopt). simpl.
    unfold commit. simpl. by rewrite (lookup_total_correct _ _ _ Hopt).
  - unfold invoke, Public.UseVote, QueryThread, getCollectionName, bind, GetState, orFail,
      ret, fail, PutState, SetEvent.
    rewrite Hl1. simpl. rewrite decide_False by (intros Hn; by apply Hn).
    rewrite Hocoll, Houser. simpl. rewrite Hokey. simpl.
    unfold l1 at 1. rewrite lookup_insert_ne by done. by rewrite Hofree.
Qed.

End issue.

Lemma public_issue_witness :
  Public.CreateVote (stub := testStub) (issueCtx "tx1") "P1" "bob" issueLedger noEffects =
    (Ret "tx1", mkEffects [(bobKey1, VBytes "true")] []) ∧
  ∃ v thread collection voteKey,
    issueLedger !! "P1" = Some v ∧ decodeThread v = Some thread ∧
    submittingClientIdentity (issueCtx "tx1") = Some (Creator thread) ∧
    Status thread = "open" ∧
    collectionName (issueCtx "tx1") = Some collection ∧
    fabricCompositeKey voteKeyType ["P1"; "tx1"; collection; "bob"] = Some voteKey ∧
    issueLedger !! voteKey = None ∧
    mkEffects [(bobKey1, VBytes "true")] [] = mkEffects [(voteKey, VBytes "true")] [].
Proof.
  destruct (public_issue (stub := testStub) (issueCtx "tx1") issueLedger "P1" "bob")
    as [Hinv Hrun].
  assert (H : Public.CreateVote (stub := testStub) (issueCtx "tx1") "P1" "bob" issueLedger
                noEffects = (Ret "tx1", mkEffects [(bobKey1, VBytes "true")] [])).
  { apply (Hrun (VThread (pollAB [] [])) (pollAB [] []) "_implicit_org_Org1MSP" bobKey1).
    - vm_compute. reflexivity.
    - reflexivity.
    - reflexivity.
    - reflexivity.
    - reflexivity.
    - vm_compute. reflexivity.
    - vm_compute. reflexivity. }
  split; [exact H |]. exact (proj2 (Hinv _ _ H)).
Defined.

Lemma issue_on_closed_poll_witness :
  Public.CreateVote (stub := testStub) (issueCtx "tx1") "P1" "bob" endedLedger noEffects =
    (Err ErrNotOpen, noEffects) ∧
  (∃ voteKey,
     Plain.CreateVote (stub := testStub) (issueCtx "tx1") "P1" endedLedger noEffects =
       (Ret "tx1", mkEffects [(voteKey, VBytes "vote")] [])) ∧
  (∃ voteKey,
     Voucher.CreateVote (stub := testStub) (issueCtx "tx1") "P1" "bob" endedLedger noEffects =
       (Ret "tx1", mkEffects [(voteKey, VBytes "vote");
                              ("P1_votes", VIssued {[ "tx1" := false ]})] [])).
Proof.
  destruct (issue_on_closed_poll (stub := testStub) (issueCtx "tx1") endedLedger "P1" "bob"
              (VThread endedPoll) endedPoll "_implicit_org_Org1MSP")
    as (Hpub & Hplain & Hvoucher).
  - vm_compute. reflexivity.
  - reflexivity.
  - reflexivity.
  - discriminate.
  - reflexivity.
  - split; [exact Hpub |]. split.
    + exists plainKey1. apply Hplain. vm_compute. reflexivity.
    + exists bobKey1. apply (Hvoucher bobKey1 ∅); vm_compute; reflexivity.
Defined.

Lemma issue_then_redeem_witness :
  let l1 := <[bobKey1 := VBytes "true"]> issueLedger in
  invoke (Public.CreateVote (stub := testStub) (issueCtx "tx1") "P1" "bob") issueLedger
    = (Ret "tx1", l1) ∧
  invoke (Public.UseVote (stub := testStub) bobCtx "P1" "tx1" "A") l1 =
    (Ret (), <[bobKey1 := VBytes "false"]> (<["P1" := VThread (pollAB ["bob"] [])]> l1)) ∧
  invoke (Public.UseVote (stub := testStub) (sampleCtx [] "tx8" "carol" "carol" ∅ orderAB)
            "P1" "tx1" "A") l1 =
    (Err ErrVoteDoesNotExist, l1).
Proof.
  apply (issue_then_redeem (stub := testStub) (issueCtx "tx1") bobCtx
           (sampleCtx [] "tx8" "carol" "carol" ∅ orderAB) issueLedger "P1" "bob" "carol" "A"
           (pollAB [] []) [] "_implicit_org_Org1MSP" bobKey1
           (default "" (fabricCompositeKey voteKeyType
                          ["P1"; "tx1"; "_implicit_org_Org1MSP"; "carol"]))).
  - vm_compute. reflexivity.
  - reflexivity.
  - reflexivity.
  - reflexivity.
  - vm_compute. reflexivity.
  - vm_compute. reflexivity.
  - reflexivity.
  - reflexivity.
  - vm_compute. reflexivity.
  - reflexivity.
  - reflexivity.
  - vm_compute. reflexivity.
  - vm_compute. discriminate.
  - vm_compute. reflexivity.
Defined.

(** ** After the close *)

Section closed.
Context {stub : Stub}.

Lemma Public_EndThread_inv ctx threadID (l l1 : Ledger) :
  invoke (Public.EndThread ctx threadID) l = (Ret (), l1) →
  ∃ v thread,
    l !! threadID = Some v ∧ decodeThread v = Some thread ∧
    submittingClientIdentity ctx = Some (Creator thread) ∧ Status thread = "open" ∧
    l1 = <[threadID := VThread (mkThread (Category thread) (Theme thread)
                             (Description thread) (Creator thread) (Options thread)
                             (winnerScan (rangeMap (rangeOrder ctx 0) (Options thread)))
                             "closed")]> l.
Proof.
  intros (eff & Hop & ->)%invoke_inv. crunch.
  eexists _, _. split; [done |]. split; [done |].
  split; [f_equal; symmetry; by apply dec_stable |]. split; [by apply dec_stable | done].
Qed.

Lemma Plain_EndThread_inv ctx threadID (l l1 : Ledger) :
  invoke (Plain.EndThread ctx threadID) l = (Ret (), l1) →
  ∃ v thread,
    l !! threadID = Some v ∧ decodeThread v = Some thread ∧
    submittingClientIdentity ctx = Some (Creator thread) ∧ Status thread = "open" ∧
    l1 = <[threadID := VThread (mkThread (Category thread) (Theme thread)
                             (Description thread) (Creator thread) (Options thread)
                             (winnerScan (rangeMap (rangeOrder ctx 0) (Options thread)))
                             "ended")]> l.
Proof.
  intros (eff & Hop & ->)%invoke_inv. crunch.
  eexists _, _. split; [done |]. split; [done |].
  split; [f_equal; symmetry; by apply dec_stable |]. split; [by apply dec_stable | done].
Qed.

(** Every operation that needs an open poll fails on a poll that is not
    open. *)
Lemma UseVote_not_open ctx threadID txID option (l : Ledger) v thread :
  l !! threadID = Some v → decodeThread v = Some thread → Status thread ≠ "open" →
  invoke (Public.UseVote ctx threadID txID option) l = (Err ErrNotOpen, l) ∧
  invoke (Plain.UseVote ctx threadID txID option) l = (Err ErrNotOpen, l) ∧
  invoke (Voucher.UseVote ctx threadID txID option) l = (Err ErrNotOpen, l).
Proof.
  intros Hl Hv Hs.
  unfold invoke, Public.UseVote, Plain.UseVote, Voucher.UseVote, QueryThread, bind, GetState,
    orFail, ret, fail.
  rewrite Hl, Hv. simpl. by rewrite !decide_True by done.
Qed.

Lemma EndThread_not_open ctx threadID (l : Ledger) v thread :
  l !! threadID = Some v → decodeThread v = Some thread → Status thread ≠ "open" →
  ∃ e,
    invoke (Public.EndThread ctx threadID) l = (Err e, l) ∧
    invoke (Plain.EndThread ctx threadID) l = (Err e, l) ∧
    (submittingClientIdentity ctx = Some (Creator thread) → e = ErrCloseNotOpen).
Proof.
  intros Hl Hv Hs.
  unfold invoke, Public.EndThread, Plain.EndThread, QueryThread, GetSubmittingClientIdentity,
    bind, GetState, orFail, ret, fail.
  rewrite Hl, Hv. simpl.
  destruct (submittingClientIdentity ctx) as [clientID |]; simpl.
  - destruct (decide (Creator thread ≠ clientID)) as [Hc | Hc].
    + rewrite ?decide_True by done.
      exists ErrEndOnlyByCreator. split; [done |]. split; [done |].
      intros Heq. by simplify_eq.
    + rewrite ?decide_False by done. rewrite ?decide_True by done.
      by exists ErrCloseNotOpen.
  - by exists ErrClientIdentity.
Qed.

(** X12: no vote is cast on a closed poll.  After a successful
    [EndThread], of the public or of the plain contract, every [UseVote]
    on that poll, by any caller, with any token and for any option, is
    refused with the not-open error and changes nothing. *)
Theorem cast_after_close_fails (ctx ctx' : Ctx) (l l1 : Ledger)
    (threadID txID option : string) :
  (invoke (Public.EndThread ctx threadID) l = (Ret (), l1) →
   invoke (Public.UseVote ctx' threadID txID option) l1 = (Err ErrNotOpen, l1)) ∧
  (invoke (Plain.EndThread ctx threadID) l = (Ret (), l1) →
   invoke (Plain.UseVote ctx' threadID txID option) l1 = (Err ErrNotOpen, l1) ∧
   invoke (Voucher.UseVote ctx' threadID txID option) l1 = (Err ErrNotOpen, l1)).
Proof.
  split.
  - intros (v & thread & _ & _ & _ & _ & ->)%Public_EndThread_inv.
    match goal with |- context [<[threadID := VThread ?t]> l] =>
      destruct (UseVote_not_open ctx' threadID txID option (<[threadID := VThread t]> l)
                  (VThread t) t (lookup_insert_eq _ _ _) eq_refl) as (Hpub & _ & _);
        [simpl; discriminate |] end.
    exact Hpub.
  - intros (v & thread & _ & _ & _ & _ & ->)%Plain_EndThread_inv.
    match goal with |- context [<[threadID := VThread ?t]> l] =>
      destruct (UseVote_not_open ctx' threadID txID option (<[threadID := VThread t]> l)
                  (VThread t) t (lookup_insert_eq _ _ _) eq_refl) as (_ & Hplain & Hvoucher);
        [simpl; discriminate |] end.
    split; [exact Hplain | exact Hvoucher].
Qed.

(** X13: a poll is closed once.  A successful [EndThread], of the public
    or of the plain contract, was called by the creator on an open poll
    and replaces the poll by itself with the winners set and the status
    ["closed"] (["ended"] in the plain contract), the options and
    everything else unchanged; every later [EndThread] on that poll
    fails and leaves the ledger, the winners included, as it is, and it
    fails with the not-open error when the creator calls. *)
Theorem close_once (ctx ctx2 : Ctx) (l l1 : Ledger) (threadID : string) :
  (invoke (Public.EndThread ctx threadID) l = (Ret (), l1) →
   ∃ v thread winOptions e,
     l !! threadID = Some v ∧ decodeThread v = Some thread ∧
     submittingClientIdentity ctx = Some (Creator thread) ∧ Status thread = "open" ∧
     l1 = <[threadID := VThread (mkThread (Category thread) (Theme thread)
                              (Description thread) (Creator thread) (Options thread)
                              winOptions "closed")]> l ∧
     invoke (Public.EndThread ctx2 threadID) l1 = (Err e, l1) ∧
     (submittingClientIdentity ctx2 = Some (Creator thread) → e = ErrCloseNotOpen)) ∧
  (invoke (Plain.EndThread ctx threadID) l = (Ret (), l1) →
   ∃ v thread winOptions e,
     l !! threadID = Some v ∧ decodeThread v = Some thread ∧
     submittingClientIdentity ctx = Some (Creator thread) ∧ Status thread = "open" ∧
     l1 = <[threadID := VThread (mkThread (Category thread) (Theme thread)
                              (Description thread) (Creator thread) (Options thread)
                              winOptions "ended")]> l ∧
     invoke (Plain.EndThread ctx2 threadID) l1 = (Err e, l1) ∧
     (submittingClientIdentity ctx2 = Some (Creator thread) → e = ErrCloseNotOpen)).
Proof.
  split.
  - intros (v & thread & Hl & Hv & Hc & Hs & ->)%Public_EndThread_inv.
    set (closed := mkThread (Category thread) (Theme thread) (Description thread)
                     (Creator thread) (Options thread)
                     (winnerScan (rangeMap (rangeOrder ctx 0) (Options thread))) "closed").
    destruct (EndThread_not_open ctx2 threadID (<[threadID := VThread closed]> l)
                (VThread closed) closed (lookup_insert_eq _ _ _) eq_refl)
      as (e & Hpub & _ & He); [simpl; discriminate |].
    exists v, thread, (WinOption closed), e. repeat split; try done.
  - intros (v & thread & Hl & Hv & Hc & Hs & ->)%Plain_EndThread_inv.
    set (ended := mkThread (Category thread) (Theme thread) (Description thread)
                    (Creator thread) (Options thread)
                    (winnerScan (rangeMap (rangeOrder ctx 0) (Options thread))) "ended").
    destruct (EndThread_not_open ctx2 threadID (<[threadID := VThread ended]> l)
                (VThread ended) ended (lookup_insert_eq _ _ _) eq_refl)
      as (e & _ & Hplain & He); [simpl; discriminate |].
    exists v, thread, (WinOption ended), e. repeat split; try done.
Qed.

End closed.

Lemma cast_after_close_fails_witness :
  let l1 := (invoke (Public.EndThread (aliceCtx orderAB) "P1") publicLedger).2 in
  let l2 := (invoke (Plain.EndThread (aliceCtx orderAB) "P1") plainLedger).2 in
  invoke (Public.UseVote (stub := testStub) bobCtx "P1" "tx1" "A") l1 = (Err ErrNotOpen, l1) ∧
  invoke (Plain.UseVote (stub := testStub) bobCtx "P1" "tx1" "A") l2 = (Err ErrNotOpen, l2) ∧
  invoke (Voucher.UseVote (stub := testStub) bobCtx "P1" "tx1" "A") l2 = (Err ErrNotOpen, l2).
Proof.
  split.
  - apply (proj1 (cast_after_close_fails (stub := testStub) (aliceCtx orderAB) bobCtx
                    publicLedger _ "P1" "tx1" "A")).
    vm_compute. reflexivity.
  - apply (proj2 (cast_after_close_fails (stub := testStub) (aliceCtx orderAB) bobCtx
                    plainLedger _ "P1" "tx1" "A")).
    vm_compute. reflexivity.
Defined.

Lemma close_once_witness :
  let l1 := (invoke (Public.EndThread (aliceCtx orderAB) "P1") tiedLedger).2 in
  let l2 := (invoke (Plain.EndThread (aliceCtx orderAB) "P1") tiedLedger).2 in
  invoke (Public.EndThread (aliceCtx orderBA) "P1") l1 = (Err ErrCloseNotOpen, l1) ∧
  invoke (Plain.EndThread (aliceCtx orderBA) "P1") l2 = (Err ErrCloseNotOpen, l2).
Proof.
  split.
  - destruct (proj1 (close_once (aliceCtx orderAB) (aliceCtx orderBA) tiedLedger
                       (invoke (Public.EndThread (aliceCtx orderAB) "P1") tiedLedger).2 "P1"))
      as (v & thread & w & e & Hl & Hv & _ & _ & _ & Hrun & He).
    + vm_compute. reflexivity.
    + vm_compute in Hl. injection Hl as <-. simpl in Hv. injection Hv as <-.
      by rewrite <- (He eq_refl).
  - destruct (proj2 (close_once (aliceCtx orderAB) (aliceCtx orderBA) tiedLedger
                       (invoke (Plain.EndThread (aliceCtx orderAB) "P1") tiedLedger).2 "P1"))
      as (v & thread & w & e & Hl & Hv & _ & _ & _ & Hrun & He).
    + vm_compute. reflexivity.
    + vm_compute in Hl. injection Hl as <-. simpl in Hv. injection Hv as <-.
      by rewrite <- (He eq_refl).
Defined.

(** ** Winners and option labels *)

(** Whatever the enumeration order holds, the loop only sees labels of
    the map. *)
Lemma elem_of_rangeMap_lookup ord (m : gmap string (list string)) k v :
  (k, v) ∈ rangeMap ord m → m !! k = Some v.
Proof.
  unfold rangeMap. rewrite list_elem_of_omap. intros (k' & _ & Hk').
  destruct (m !! k') as [v' |] eqn:Hm; simpl in Hk'; [| done]. by simplify_eq.
Qed.

Lemma winnerScan_within ord (m : gmap string (list string)) k :
  k ∈ winnerScan (rangeMap ord m) → is_Some (m !! k).
Proof.
  rewrite winnerScan_pluralityWinners, elem_of_pluralityWinners.
  intros (v & Hin & _). exists v. by apply (elem_of_rangeMap_lookup ord).
Qed.

Lemma commit_winnersWithin (l : Ledger) eff :
  map_Forall (λ _ v, winnersWithin v) l →
  Forall (λ kv, winnersWithin kv.2) (writes eff) →
  map_Forall (λ _ v, winnersWithin v) (commit l eff).
Proof.
  unfold commit. generalize (writes eff). intros ws. revert l.
  induction ws as [| [k v] ws IH]; intros l Hl Hws; simpl; [done |].
  apply Forall_cons in Hws as [Hv Hws].
  apply IH; [| done]. by apply map_Forall_insert_2.
Qed.

Lemma winnersWithin_decode (v : Value) (thread : Thread) :
  winnersWithin v → decodeThread v = Some thread →
  (Status thread = "open" → WinOption thread = []) ∧
  (∀ k, k ∈ WinOption thread → is_Some (Options thread !! k)).
Proof. destruct v; simpl; intros Hv Hd; by simplify_eq. Qed.

Section within.
Context {stub : Stub}.

Lemma run_winnersWithin ctx c (l : Ledger) o eff :
  map_Forall (λ _ v, winnersWithin v) l →
  publicRun ctx c l noEffects = (o, eff) ∨ plainRun ctx c l noEffects = (o, eff) →
  Forall (λ kv, winnersWithin kv.2) (writes eff).
Proof.
  intros Hinv Hrun.
  destruct Hrun as [Hrun | Hrun]; destruct c; unfold publicRun, plainRun in Hrun; crunch;
    repeat (apply Forall_cons; split); try apply Forall_nil; simpl; try done;
    try (split; [done | intros k Hk; by apply elem_of_nil in Hk]);
    try (split; [discriminate | intros k Hk; by eapply winnerScan_within]);
    match goal with
    | Hl : l !! ?id = Some ?v, Hd : decodeThread ?v = Some ?t |- _ =>
        destruct (winnersWithin_decode v t (Hinv id v Hl) Hd) as [Hopen Hin]
    end;
    (split; [done |]; intros k Hk; apply Hin in Hk;
     match goal with
     | |- is_Some (<[?o := _]> _ !! k) =>
         destruct (decide (o = k)) as [-> | Hne];
           [rewrite lookup_insert_eq; eauto | by rewrite lookup_insert_ne]
     end).
Qed.

(** X14: two invariants of the ledgers that the public contract, and
    the plain contract, reach from the empty ledger: a poll that is open
    has no winners, and the winners of a poll are labels of its options,
    whatever orders the maps were enumerated in. *)
Theorem reachable_winners_within (l : Ledger) (threadID : string) (thread : Thread) :
  reachable publicRun l ∨ reachable plainRun l →
  l !! threadID = Some (VThread thread) →
  (Status thread = "open" → WinOption thread = []) ∧
  (∀ k, k ∈ WinOption thread → is_Some (Options thread !! k)).
Proof.
  intros Hreach.
  assert (Hinv : map_Forall (λ _ v, winnersWithin v) l).
  { destruct Hreach as [Hreach | Hreach];
      (induction Hreach as [| l0 ctx c o l' _ IH Hrun]; [apply map_Forall_empty |]);
      unfold invoke in Hrun;
      match type of Hrun with context [?op l0 noEffects] =>
        destruct (op l0 noEffects) as [[a | e |] eff] eqn:Hop end;
      simplify_eq; try done;
      (apply commit_winnersWithin; [done |]);
      eapply run_winnersWithin; eauto. }
  intros Hl. exact (Hinv threadID (VThread thread) Hl).
Qed.

End within.

(** The public contract reaches [closedLedger]: the poll is created, a
    token is issued to [bob], [bob] votes, the creator closes. *)
Lemma reachable_closedLedger : reachable (publicRun (stub := testStub)) closedLedger.
Proof.
  apply (reachable_invoke _ usedLedger (aliceCtx orderAB) (CallEndThread "P1") (Ret ()));
    [| vm_compute; reflexivity].
  apply (reachable_invoke _ publicLedger bobCtx (CallUseVote "P1" "tx1" "A") (Ret ()));
    [| vm_compute; reflexivity].
  apply (reachable_invoke _ issueLedger (issueCtx "tx1") (CallCreateVote "P1" "bob") (Ret ()));
    [| vm_compute; reflexivity].
  apply (reachable_invoke _ ∅ createCtx CallCreateThread (Ret ()));
    [apply reachable_empty | vm_compute; reflexivity].
Defined.

Lemma reachable_winners_within_witness :
  (Status closedPoll = "open" → WinOption closedPoll = []) ∧
  (∀ k, k ∈ WinOption closedPoll → is_Some (Options closedPoll !! k)).
Proof.
  apply (reachable_winners_within (stub := testStub) closedLedger "P1" closedPoll).
  - left. apply reachable_closedLedger.
  - vm_compute. reflexivity.
Defined.

(** ** The winners at the edges *)

Lemma maxVotes_attained kvs :
  kvs ≠ [] → ∃ kv, kv ∈ kvs ∧ length kv.2 = maxVotes kvs.
Proof.
  induction kvs as [| x kvs IH]; [done |]. intros _.
  destruct kvs as [| y kvs].
  - exists x. split; [by left |]. simpl. lia.
  - destruct (IH ltac:(done)) as (kv & Hin & Hlen).
    change (maxVotes (x :: y :: kvs)) with (length x.2 `max` maxVotes (y :: kvs)).
    destruct (decide (maxVotes (y :: kvs) ≤ length x.2)).
    + exists x. split; [by left | lia].
    + exists kv. split; [by right | lia].
Qed.

Lemma winnerScan_nil ord (options : gmap string (list string)) :
  enumerates ord options →
  winnerScan (rangeMap ord options) = [] ↔ options = ∅.
Proof.
  intros Hord. split.
  - intros Hnil. apply map_to_list_empty_iff.
    destruct (map_to_list options) as [| kv kvs] eqn:Hlist; [done |].
    assert (Hne : rangeMap ord options ≠ []).
    { intros Hr. pose proof (rangeMap_map_to_list _ _ Hord) as Hp.
      rewrite Hr, Hlist in Hp. by apply Permutation_nil_cons in Hp. }
    destruct (maxVotes_attained _ Hne) as ([k v] & Hin & Hlen).
    assert (Hk : k ∈ winnerScan (rangeMap ord options)).
    { rewrite winnerScan_pluralityWinners. apply elem_of_pluralityWinners. by exists v. }
    rewrite Hnil in Hk. by apply elem_of_nil in Hk.
  - intros ->. apply elem_of_nil_inv. intros k Hk.
    apply (elem_of_winnerScan ord ∅ k Hord) in Hk as (v & Hv & _).
    by rewrite lookup_empty in Hv.
Qed.

Lemma list_singleton_NoDup (w : list string) k :
  NoDup w → (∀ x, x ∈ w ↔ x = k) → w = [k].
Proof.
  intros Hnd Hiff. destruct w as [| a w].
  - assert (Hk : k ∈ []) by by apply Hiff. by apply elem_of_nil in Hk.
  - assert (a = k) as -> by (apply Hiff; by left).
    destruct w as [| b w]; [done |].
    assert (b = k) as -> by (apply Hiff; right; by left).
    apply NoDup_cons in Hnd as [Hnotin _]. destruct Hnotin. by left.
Qed.

(** X15: the winners at the edges, for every enumeration order.  Closing
    an open poll persists no winner exactly when the poll has no option;
    when no vote was cast at all, every option is a winner; and an
    option with strictly more votes than every other is the only
    winner. *)
Theorem close_edge_winners (ctx : Ctx) (l : Ledger) (threadID : string) (thread : Thread) :
  l !! threadID = Some (VThread thread) →
  Status thread = "open" →
  submittingClientIdentity ctx = Some (Creator thread) →
  enumerates (rangeOrder ctx 0) (Options thread) →
  ∃ winOptions,
    invoke (Public.EndThread ctx threadID) l =
      (Ret (), <[threadID := VThread (mkThread (Category thread) (Theme thread)
                                (Description thread) (Creator thread) (Options thread)
                                winOptions "closed")]> l) ∧
    (winOptions = [] ↔ Options thread = ∅) ∧
    ((∀ k v, Options thread !! k = Some v → v = []) →
     winOptions ≡ₚ elements (dom (Options thread))) ∧
    (∀ k v, Options thread !! k = Some v →
       (∀ k' v', k' ≠ k → Options thread !! k' = Some v' → length v' < length v) →
       winOptions = [k]).
Proof.
  intros Hl Hs Hc Hord.
  exists (winnerScan (rangeMap (rangeOrder ctx 0) (Options thread))).
  split; [| split; [| split]].
  - by rewrite (invoke_Ret _ _ _ _
                  (Public_EndThread_run ctx threadID l _ thread noEffects Hl eq_refl Hc Hs)).
  - by apply winnerScan_nil.
  - intros Hempty. apply NoDup_Permutation.
    + by apply NoDup_winnerScan.
    + apply NoDup_elements.
    + intros k. rewrite (elem_of_winnerScan _ _ k Hord), elem_of_elements, elem_of_dom.
      split; [intros (v & Hv & _); eauto |].
      intros [v Hv]. exists v. split; [done |].
      intros k' v' Hv'. rewrite (Hempty k' v' Hv'). simpl. lia.
  - intros k v Hv Hlead. apply list_singleton_NoDup; [by apply NoDup_winnerScan |].
    intros x. rewrite (elem_of_winnerScan _ _ x Hord). split.
    + intros (vx & Hvx & Hmax). destruct (decide (x = k)) as [-> | Hne]; [done |].
      pose proof (Hmax k v Hv). pose proof (Hlead x vx Hne Hvx). lia.
    + intros ->. exists v. split; [done |].
      intros k' v' Hv'. destruct (decide (k' = k)) as [-> | Hne].
      * rewrite Hv in Hv'. by simplify_eq.
      * pose proof (Hlead k' v' Hne Hv'). lia.
Qed.

(** On the poll [P1] without votes both options win. *)
Lemma close_edge_winners_witness :
  ∃ winOptions,
    invoke (Public.EndThread (aliceCtx orderBA) "P1") issueLedger =
      (Ret (), <["P1" := VThread (mkThread "category" "theme" "description" "alice"
                                    {[ "A" := []; "B" := [] ]} winOptions "closed")]>
                 issueLedger) ∧
    winOptions ≡ₚ ["A"; "B"].
Proof.
  destruct (close_edge_winners (aliceCtx orderBA) issueLedger "P1" (pollAB [] []))
    as (winOptions & Hrun & _ & Hall & _).
  - vm_compute. reflexivity.
  - reflexivity.
  - reflexivity.
  - apply enumerates_AB_r.
  - exists winOptions. split; [exact Hrun |].
    rewrite Hall.
    + simpl. rewrite dom_insert_L, dom_singleton_L. vm_compute. reflexivity.
    + intros k v Hv. simpl in Hv.
      destruct (decide (k = "A")) as [-> | HA].
      * rewrite lookup_insert_eq in Hv. by simplify_eq.
      * rewrite lookup_insert_ne in Hv by done.
        apply lookup_singleton_Some in Hv as [_ <-]. done.
Defined.

(** ** The reveal and its lists *)

Section reveal_lists.
Context {stub : Stub}.

Lemma matchCount_no_candidates threadID votes txs keys o :
  votes = [] ∨ txs = [] ∨ keys = [] → matchCount threadID votes txs keys o = 0.
Proof.
  rewrite matchCount_sum. intros [-> | [-> | ->]]; simpl; [done | |].
  - by rewrite sum_list_with_const, Nat.mul_0_r.
  - rewrite (sum_list_with_ext _ (λ _, 0)); [by rewrite sum_list_with_const, Nat.mul_0_r |].
    intros vote. by rewrite sum_list_with_const, Nat.mul_0_r.
Qed.

Lemma matchCount_Permutation threadID votes votes' txs txs' keys keys' o :
  votes ≡ₚ votes' → txs ≡ₚ txs' → keys ≡ₚ keys' →
  matchCount threadID votes txs keys o = matchCount threadID votes' txs' keys' o.
Proof.
  intros Hv Ht Hk. rewrite !matchCount_sum. rewrite Hv.
  apply sum_list_with_ext. intros vote. rewrite Ht.
  apply sum_list_with_ext. intros tx. by rewrite Hk.
Qed.

(** X16: a reveal without candidates.  When the poll holds no
    commitment, or the reveal payload lists no transaction or no key,
    [EndAnonThread] closes the poll with every vote list as it was
    stored, so the winners are those of the stored lists. *)
Theorem reveal_without_candidates (ctx : Ctx) (l : Ledger) (d : EndData) (thread : AnonThread) :
  endDataOf ctx = Some d →
  l !! EThreadID d = Some (VAnonThread thread) →
  AStatus thread = "open" →
  submittingClientIdentity ctx = Some (ACreator thread) →
  (∀ n, enumerates (rangeOrder ctx n) (AOptions thread)) →
  Votes thread = [] ∨ VoteTxs d = [] ∨ Keys d = [] →
  ∃ winOptions,
    let ended := mkAnonThread (ACategory thread) (ATheme thread) (ADescription thread)
                   (ACreator thread) (Votes thread) (AOptions thread) winOptions "ended" in
    Anon.EndAnonThread ctx l noEffects =
      (Ret (), mkEffects [(EThreadID d, VAnonThread ended)]
                         [("EndAnonThread " +:+ EThreadID d, VAnonThread ended)]) ∧
    ∀ k, k ∈ winOptions ↔ attainsMax (AOptions thread) k.
Proof.
  intros Hd Hl Hs Hc Hord Hnone.
  pose proof (Anon_EndAnonThread_run ctx l d (VAnonThread thread) thread noEffects
                Hd Hl eq_refl Hc Hs Hord) as Hrun.
  assert (Hsame : tallied (AOptions thread)
                    (matchCount (EThreadID d) (Votes thread) (VoteTxs d) (Keys d))
                  = AOptions thread).
  { rewrite <- (tallied_zero (AOptions thread)) at 2. apply tallied_ext.
    intros o. by apply matchCount_no_candidates. }
  simpl in Hrun. rewrite Hsame in Hrun.
  eexists. split; [exact Hrun |].
  intros k. by apply elem_of_winnerScan.
Qed.

(** X17: the tallies of a reveal do not depend on the order of the
    lists.  Two closes of polls with the same options, whose stored
    commitments, listed transactions and listed keys are the same up to
    their order, persist the same vote list for every option, and
    winners that are the same up to their order. *)
Theorem reveal_listing_order (ctx1 ctx2 : Ctx) (l1 l2 : Ledger) (d1 d2 : EndData)
    (thread1 thread2 : AnonThread) :
  endDataOf ctx1 = Some d1 →
  endDataOf ctx2 = Some d2 →
  EThreadID d1 = EThreadID d2 →
  VoteTxs d1 ≡ₚ VoteTxs d2 →
  Keys d1 ≡ₚ Keys d2 →
  l1 !! EThreadID d1 = Some (VAnonThread thread1) →
  l2 !! EThreadID d2 = Some (VAnonThread thread2) →
  Votes thread1 ≡ₚ Votes thread2 →
  AOptions thread1 = AOptions thread2 →
  AStatus thread1 = "open" → AStatus thread2 = "open" →
  submittingClientIdentity ctx1 = Some (ACreator thread1) →
  submittingClientIdentity ctx2 = Some (ACreator thread2) →
  (∀ n, enumerates (rangeOrder ctx1 n) (AOptions thread1)) →
  (∀ n, enumerates (rangeOrder ctx2 n) (AOptions thread2)) →
  ∃ options' winOptions1 winOptions2,
    let ended1 := mkAnonThread (ACategory thread1) (ATheme thread1) (ADescription thread1)
                    (ACreator thread1) (Votes thread1) options' winOptions1 "ended" in
    let ended2 := mkAnonThread (ACategory thread2) (ATheme thread2) (ADescription thread2)
                    (ACreator thread2) (Votes thread2) options' winOptions2 "ended" in
    invoke (Anon.EndAnonThread ctx1) l1 =
      (Ret (), <[EThreadID d1 := VAnonThread ended1]> l1) ∧
    invoke (Anon.EndAnonThread ctx2) l2 =
      (Ret (), <[EThreadID d2 := VAnonThread ended2]> l2) ∧
    winOptions1 ≡ₚ winOptions2.
Proof.
  intros Hd1 Hd2 Hid Htx Hkeys Hl1 Hl2 Hvotes Hopts Hs1 Hs2 Hc1 Hc2 Hord1 Hord2.
  pose proof (Anon_EndAnonThread_run ctx1 l1 d1 _ thread1 noEffects
                Hd1 Hl1 eq_refl Hc1 Hs1 Hord1) as Hrun1.
  pose proof (Anon_EndAnonThread_run ctx2 l2 d2 _ thread2 noEffects
                Hd2 Hl2 eq_refl Hc2 Hs2 Hord2) as Hrun2.
  simpl in Hrun1, Hrun2.
  assert (Hsame : tallied (AOptions thread2)
                    (matchCount (EThreadID d2) (Votes thread2) (VoteTxs d2) (Keys d2))
                  = tallied (AOptions thread1)
                      (matchCount (EThreadID d1) (Votes thread1) (VoteTxs d1) (Keys d1))).
  { rewrite <- Hopts, <- Hid. apply tallied_ext. intros o.
    symmetry. by apply matchCount_Permutation. }
  rewrite Hsame in Hrun2.
  eexists _, _, _.
  split; [by rewrite (invoke_Ret _ _ _ _ Hrun1) |].
  split; [by rewrite (invoke_Ret _ _ _ _ Hrun2) |].
  apply winnerScan_order.
  - by apply enumerates_tallied.
  - apply enumerates_tallied. rewrite Hopts. apply Hord2.
Qed.

End reveal_lists.

Lemma reveal_without_candidates_witness :
  ∃ winOptions,
    Anon.EndAnonThread (stub := testStub) (revealCtx orderAB) commitLedger noEffects =
      (Ret (), mkEffects
         [("P2", VAnonThread (mkAnonThread "category" "theme" "description" "alice" []
                                {[ "A" := []; "B" := [] ]} winOptions "ended"))]
         [("EndAnonThread P2",
           VAnonThread (mkAnonThread "category" "theme" "description" "alice" []
                          {[ "A" := []; "B" := [] ]} winOptions "ended"))]) ∧
    ∀ k, k ∈ winOptions ↔ attainsMax {[ "A" := []; "B" := [] ]} k.
Proof.
  apply (reveal_without_candidates (stub := testStub) (revealCtx orderAB) commitLedger
           (mkEndData "P2" ["s1"] ["tx1"]) (anonPollAB [] [] [])).
  - vm_compute. reflexivity.
  - vm_compute. reflexivity.
  - reflexivity.
  - reflexivity.
  - intros n. apply enumerates_AB_l.
  - by left.
Defined.

Lemma reveal_listing_order_witness :
  ∃ options' winOptions1 winOptions2,
    invoke (Anon.EndAnonThread (stub := testStub) revealCtx12)
           (votesLedger ["P2|tx1|A|s1"; "P2|tx2|B|s2"]) =
      (Ret (), <["P2" := VAnonThread
                   (mkAnonThread "category" "theme" "description" "alice"
                      ["P2|tx1|A|s1"; "P2|tx2|B|s2"] options' winOptions1 "ended")]>
                 (votesLedger ["P2|tx1|A|s1"; "P2|tx2|B|s2"])) ∧
    invoke (Anon.EndAnonThread (stub := testStub) revealCtx21)
           (votesLedger ["P2|tx2|B|s2"; "P2|tx1|A|s1"]) =
      (Ret (), <["P2" := VAnonThread
                   (mkAnonThread "category" "theme" "description" "alice"
                      ["P2|tx2|B|s2"; "P2|tx1|A|s1"] options' winOptions2 "ended")]>
                 (votesLedger ["P2|tx2|B|s2"; "P2|tx1|A|s1"])) ∧
    winOptions1 ≡ₚ winOptions2.
Proof.
  apply (reveal_listing_order (stub := testStub) revealCtx12 revealCtx21
           (votesLedger ["P2|tx1|A|s1"; "P2|tx2|B|s2"])
           (votesLedger ["P2|tx2|B|s2"; "P2|tx1|A|s1"])
           (mkEndData "P2" ["s1"; "s2"] ["tx1"; "tx2"])
           (mkEndData "P2" ["s2"; "s1"] ["tx2"; "tx1"])
           (anonPollAB ["P2|tx1|A|s1"; "P2|tx2|B|s2"] [] [])
           (anonPollAB ["P2|tx2|B|s2"; "P2|tx1|A|s1"] [] [])).
  - vm_compute. reflexivity.
  - vm_compute. reflexivity.
  - reflexivity.
  - apply perm_swap.
  - apply perm_swap.
  - vm_compute. reflexivity.
  - vm_compute. reflexivity.
  - apply perm_swap.
  - reflexivity.
  - reflexivity.
  - reflexivity.
  - reflexivity.
  - reflexivity.
  - intros n. apply enumerates_AB_l.
  - intros n. apply enumerates_AB_r.
Defined.

(** ** Creating and querying *)

(** X1: a created poll is what the query returns.  On a ledger without a
    record at the identifier the query fails with the does-not-exist
    error; after a successful [CreateThread] (or [CreateAnonThread]) the
    query at that identifier returns the poll built from the arguments,
    open, without winners (and without commitments), and every other key
    of the ledger is as it was.  The queries never write. *)
Theorem create_then_query (ctx : Ctx) (l : Ledger)
    (fn threadID category theme description : string) (options : list string)
    (clientID org : string) (eff : Effects) :
  l !! threadID = None →
  submittingClientIdentity ctx = Some clientID →
  mspID ctx = Some org →
  endorsement ctx threadID org = true →
  let ctx' := withArgs ctx (fn :: threadID :: category :: theme :: description :: options) in
  let poll := mkThread category theme description clientID (makeOptions options) [] "open" in
  let apoll := mkAnonThread category theme description clientID [] (makeOptions options) []
                 "open" in
  QueryThread threadID l eff = (Err ErrThreadDoesNotExist, eff) ∧
  QueryAnonThread threadID l eff = (Err ErrThreadDoesNotExist, eff) ∧
  (∃ l1, invoke (Public.CreateThread ctx') l = (Ret (), l1) ∧
         QueryThread threadID l1 eff = (Ret poll, eff) ∧
         ∀ other, other ≠ threadID → l1 !! other = l !! other) ∧
  (∃ l1, invoke (Anon.CreateAnonThread ctx') l = (Ret (), l1) ∧
         QueryAnonThread threadID l1 eff = (Ret apoll, eff) ∧
         ∀ other, other ≠ threadID → l1 !! other = l !! other).
Proof.
  intros Hfree Hc Horg Hend ctx' poll apoll.
  split; [| split; [| split]].
  - unfold QueryThread, bind, GetState, fail. by rewrite Hfree.
  - unfold QueryAnonThread, bind, GetState, fail. by rewrite Hfree.
  - exists (<[threadID := VThread poll]> l). split; [| split].
    + unfold invoke, Public.CreateThread, index, sliceFrom, bind, GetState, ret, fail,
        GetSubmittingClientIdentity, setAssetStateBasedEndorsement, orFail, PutState, SetEvent.
      simpl. rewrite Hfree, Hc, Horg. simpl. by rewrite Hend.
    + unfold QueryThread, bind, GetState, orFail, ret. by rewrite lookup_insert_eq.
    + intros other Hne. by rewrite lookup_insert_ne.
  - exists (<[threadID := VAnonThread apoll]> l). split; [| split].
    + unfold invoke, Anon.CreateAnonThread, index, sliceFrom, bind, GetState, ret, fail,
        GetSubmittingClientIdentity, setAssetStateBasedEndorsement, orFail, PutState, SetEvent.
      simpl. rewrite Hfree, Hc, Horg. simpl. by rewrite Hend.
    + unfold QueryAnonThread, bind, GetState, orFail, ret. by rewrite lookup_insert_eq.
    + intros other Hne. by rewrite lookup_insert_ne.
Qed.

Lemma create_then_query_witness :
  QueryThread "P1" ∅ noEffects = (Err ErrThreadDoesNotExist, noEffects) ∧
  ∃ l1, invoke (Public.CreateThread (withArgs createCtx createArgs)) ∅ = (Ret (), l1) ∧
        QueryThread "P1" l1 noEffects = (Ret (pollAB [] []), noEffects).
Proof.
  destruct (create_then_query createCtx ∅ "CreateThread" "P1" "category" "theme" "description"
              ["A"; "B"] "alice" "Org1MSP" noEffects (lookup_empty _) eq_refl eq_refl eq_refl)
    as (Hnone & _ & (l1 & Hrun & Hquery & _) & _).
  split; [exact Hnone |]. exists l1. split; [exact Hrun | exact Hquery].
Defined.


Lemma Voucher_create_in_range ctx (l : Ledger) eff :
  5 ≤ length (GetStringArgs ctx) → (Voucher.CreateThread ctx l eff).1 ≠ Panic.
Proof.
  intros Hlen.
  destruct (GetStringArgs ctx) as [| a0 [| a1 [| a2 [| a3 [| a4 rest]]]]] eqn:Hargs;
    simpl in Hlen; try lia.
  unfold Voucher.CreateThread; rewrite Hargs; crunch; done.
Qed.

(** X2: the bounds of the argument list.  With fewer than four arguments
    every creation returns the not-enough-arguments error before it
    reads anything, whatever the ledger holds, and writes nothing; with
    five arguments or more no positional access of a creation is out of
    range, so none of them panics. *)
Theorem create_argument_bounds (ctx : Ctx) (l : Ledger) (eff : Effects) :
  (length (GetStringArgs ctx) < 4 →
   Public.CreateThread ctx l eff = (Err ErrNotEnoughArguments, eff) ∧
   Plain.CreateThread ctx l eff = (Err ErrNotEnoughArguments, eff) ∧
   Voucher.CreateThread ctx l eff = (Err ErrNotEnoughArguments, eff) ∧
   Anon.CreateAnonThread ctx l eff = (Err ErrNotEnoughArguments, eff) ∧
   Anon2.CreateAnonThread ctx l eff = (Err ErrNotEnoughArguments, eff)) ∧
  (5 ≤ length (GetStringArgs ctx) →
   (Public.CreateThread ctx l eff).1 ≠ Panic ∧
   (Plain.CreateThread ctx l eff).1 ≠ Panic ∧
   (Voucher.CreateThread ctx l eff).1 ≠ Panic ∧
   (Anon.CreateAnonThread ctx l eff).1 ≠ Panic ∧
   (Anon2.CreateAnonThread ctx l eff).1 ≠ Panic).
Proof.
  split.
  - intros Hlen.
    unfold Plain.CreateThread, Anon2.CreateAnonThread, Public.CreateThread,
      Voucher.CreateThread, Anon.CreateAnonThread, fail.
    rewrite !decide_True by exact Hlen. repeat apply conj; reflexivity.
  - intros Hlen.
    unfold Plain.CreateThread, Anon2.CreateAnonThread.
    destruct (create_with_five_arguments_in_range ctx l eff) as [Hp Ha];
      [done |].
    pose proof (Voucher_create_in_range ctx l eff Hlen) as Hv.
    repeat apply conj; assumption.
Qed.

Lemma create_argument_bounds_witness :
  Public.CreateThread (withArgs createCtx ["CreateThread"; "P1"; "category"]) issueLedger
    noEffects = (Err ErrNotEnoughArguments, noEffects) ∧
  (Voucher.CreateThread (withArgs createCtx ["CreateThread"; "P1"; "c"; "t"; "d"]) ∅
     noEffects).1 ≠ Panic.
Proof.
  split.
  - destruct (create_argument_bounds
                (withArgs createCtx ["CreateThread"; "P1"; "category"]) issueLedger noEffects)
      as [Hfew _].
    destruct Hfew as (Hpub & _); [simpl; lia | exact Hpub].
  - destruct (create_argument_bounds
                (withArgs createCtx ["CreateThread"; "P1"; "c"; "t"; "d"]) ∅ noEffects)
      as [_ Hfive].
    destruct Hfive as (_ & _ & Hvoucher & _); [simpl; lia | exact Hvoucher].
Defined.

(** ** Committing an anonymous vote *)

Section commit.
Context {stub : Stub}.

Lemma Anon2_UseAnonVote_run ctx (l : Ledger) tm raw vote v tread coll userID voteKey d eff :
  GetTransient ctx = Some tm →
  tm !! "option" = Some raw →
  jsonUnmarshalAnonVote raw = JVal vote →
  l !! ThreadID vote = Some v →
  decodeAnonThread v = Some tread →
  AStatus tread = "open" →
  collectionName ctx = Some coll →
  enrollmentID ctx = Some userID →
  CreateCompositeKey voteKeyType [ThreadID vote; TxID vote; coll; userID] = Some voteKey →
  l !! voteKey = Some d →
  lenIs5 d = false →
  is_Some (AOptions tread !! Option vote) →
  Anon2.UseAnonVote ctx l eff =
    (Ret (),
     let tread' := mkAnonThread (ACategory tread) (ATheme tread) (ADescription tread)
                     (ACreator tread) (Votes tread ++ [sha256Base64 raw])
                     (AOptions tread) (AWinOption tread) (AStatus tread) in
     mkEffects (writes eff ++ [(ThreadID vote, VAnonThread tread'); (voteKey, VBytes "false")])
               (events eff ++ [("UseAnonVote " +:+ ThreadID vote, VAnonThread tread')])).
Proof.
  intros Htm Hraw Hvote Hl Hv Hs Hcoll Huser Hkey Hdata Hlen Hopt.
  unfold Anon2.UseAnonVote, QueryAnonThread, getCollectionName, bind, GetState, orFail, ret,
    PutState, SetEvent.
  rewrite Htm, Hraw, Hvote, Hl, Hv. simpl.
  rewrite decide_False by (intros Hne; by apply Hne).
  rewrite Hcoll, Huser. simpl. rewrite Hkey. simpl. rewrite Hdata, Hlen.
  unfold contains. rewrite bool_decide_eq_true_2 by done. simpl.
  by rewrite <- app_assoc.
Qed.

(** X10: what a successful commitment does.  When [UseAnonVote], of
    either anonymous contract, returns without error, the poll was open
    and the label of the payload was one of its options, and the one
    poll it writes is the poll it read with one commitment appended, the
    hash of the transient bytes as they were sent: the option lists, the
    label set, the winners, the status and the creator are unchanged, so
    nothing of the choice shows on the ledger. *)
Theorem commit_appends_hash (ctx : Ctx) (l : Ledger) (eff : Effects) :
  Anon.UseAnonVote ctx l noEffects = (Ret (), eff) ∨
  Anon2.UseAnonVote ctx l noEffects = (Ret (), eff) →
  ∃ tm raw vote v tread,
    GetTransient ctx = Some tm ∧ tm !! "option" = Some raw ∧
    jsonUnmarshalAnonVote raw = JVal vote ∧
    l !! ThreadID vote = Some v ∧ decodeAnonThread v = Some tread ∧
    AStatus tread = "open" ∧ is_Some (AOptions tread !! Option vote) ∧
    let tread' := mkAnonThread (ACategory tread) (ATheme tread) (ADescription tread)
                    (ACreator tread) (Votes tread ++ [sha256Base64 raw])
                    (AOptions tread) (AWinOption tread) (AStatus tread) in
    (ThreadID vote, VAnonThread tread') ∈ writes eff ∧
    (∀ k w, (k, VAnonThread w) ∈ writes eff → k = ThreadID vote ∧ w = tread') ∧
    events eff = [("UseAnonVote " +:+ ThreadID vote, VAnonThread tread')].
Proof.
  intros [Hrun | Hrun]; crunch;
    match goal with
    | H : negb (contains _ _) = false |- _ => destruct (contains_true _ _ H) as [votes Hvotes]
    end;
    (eexists _, _, _, _, _; split; [done |]; split; [done |]; split; [done |];
     split; [done |]; split; [done |]; split; [by apply dec_stable |];
     split; [by eexists |]; split; [by left |]; split; [| done];
     intros k w Hin;
     repeat (apply elem_of_cons in Hin as [Hin | Hin]; [by simplify_eq |]);
     by apply elem_of_nil in Hin).
Qed.

(** X11: the first anonymous contract does not consume the token.  Its
    [UseAnonVote] writes the poll and nothing else, so after a
    successful call the same call succeeds again and appends the same
    commitment a second time. *)
Theorem commit_replayed (ctx : Ctx) (l l1 : Ledger) :
  invoke (Anon.UseAnonVote ctx) l = (Ret (), l1) →
  ∃ raw vote poll l2,
    GetTransient ctx ≫= (λ tm, tm !! "option") = Some raw ∧
    jsonUnmarshalAnonVote raw = JVal vote ∧
    l1 !! ThreadID vote = Some (VAnonThread poll) ∧
    (∃ votes, Votes poll = votes ++ [sha256Base64 raw]) ∧
    invoke (Anon.UseAnonVote ctx) l1 = (Ret (), l2) ∧
    l2 !! ThreadID vote =
      Some (VAnonThread (mkAnonThread (ACategory poll) (ATheme poll) (ADescription poll)
                           (ACreator poll) (Votes poll ++ [sha256Base64 raw])
                           (AOptions poll) (AWinOption poll) (AStatus poll))).
Proof.
  intros (eff & Hop & ->)%invoke_inv.
  unfold Anon.UseAnonVote, QueryAnonThread, getCollectionName, bind, GetState, orFail, ret,
    fail, panic, PutState, SetEvent in Hop.
  destruct (GetTransient ctx) as [tm |] eqn:Htm; [| done]. simpl in Hop.
  destruct (tm !! "option") as [raw |] eqn:Hraw; [| done]. simpl in Hop.
  destruct (jsonUnmarshalAnonVote raw) as [| | vote] eqn:Hvote; [done | done |].
  destruct (l !! ThreadID vote) as [v |] eqn:Hl; [| done]. simpl in Hop.
  destruct (decodeAnonThread v) as [tread |] eqn:Hv; [| done]. simpl in Hop.
  destruct (decide (AStatus tread ≠ "open")) as [Hs | Hs]; [done |].
  apply dec_stable in Hs.
  destruct (collectionName ctx) as [coll |] eqn:Hcoll; [| done]. simpl in Hop.
  destruct (CreateCompositeKey voteKeyType [ThreadID vote; TxID vote; coll])
    as [voteKey |] eqn:Hkey; [| done]. simpl in Hop.
  destruct (l !! voteKey) as [d |] eqn:Hd; [| done].
  destruct (negb (contains (AOptions tread) (Option vote))) eqn:Hc; [done |].
  destruct (contains_true _ _ Hc) as [votes Hvotes].
  simplify_eq. unfold commit. simpl.
  set (poll := mkAnonThread (ACategory tread) (ATheme tread) (ADescription tread)
                 (ACreator tread) (Votes tread ++ [sha256Base64 raw])
                 (AOptions tread) (AWinOption tread) (AStatus tread)).
  set (l1 := <[ThreadID vote := VAnonThread poll]> l).
  assert (Htoken : is_Some (l1 !! voteKey)).
  { unfold l1. destruct (decide (ThreadID vote = voteKey)) as [<- | Hne].
    - rewrite lookup_insert_eq. eauto.
    - rewrite lookup_insert_ne by done. eauto. }
  pose proof (Anon_UseAnonVote_run ctx l1 tm raw vote (VAnonThread poll) poll coll voteKey
                noEffects Htm Hraw Hvote (lookup_insert_eq _ _ _) eq_refl Hs Hcoll Hkey Htoken
                (ex_intro _ votes Hvotes)) as Hrun2.
  eexists raw, vote, poll, _.
  split; [done |]. split; [done |].
  split; [apply lookup_insert_eq |]. split; [by eexists |].
  split; [by rewrite (invoke_Ret _ _ _ _ Hrun2) |].
  unfold commit. simpl. apply lookup_insert_eq.
Qed.

(** X18: a token issued by the public [CreateVote] on an anonymous poll
    is the token the second anonymous contract redeems.  The creator
    issues a token to [userID] on an open anonymous poll; once that
    transaction is committed, [UseAnonVote] by a caller of the same
    organization enrolled as [userID], whose payload names the poll, the
    issuing transaction and one of the options, succeeds: it appends the
    hash of the payload to the commitments and marks the token used. *)
Theorem anonymous_issue_then_commit (ictx vctx : Ctx) (l : Ledger) (poll : AnonThread)
    (tm : gmap string bytes) (raw : bytes) (vote : AnonVote)
    (collection userID voteKey : string) :
  l !! ThreadID vote = Some (VAnonThread poll) →
  AStatus poll = "open" →
  submittingClientIdentity ictx = Some (ACreator poll) →
  collectionName ictx = Some collection →
  GetTxID ictx = TxID vote →
  CreateCompositeKey voteKeyType [ThreadID vote; TxID vote; collection; userID] = Some voteKey →
  l !! voteKey = None →
  GetTransient vctx = Some tm →
  tm !! "option" = Some raw →
  jsonUnmarshalAnonVote raw = JVal vote →
  collectionName vctx = Some collection →
  enrollmentID vctx = Some userID →
  is_Some (AOptions poll !! Option vote) →
  let l1 := <[voteKey := VBytes "true"]> l in
  let poll' := mkAnonThread (ACategory poll) (ATheme poll) (ADescription poll) (ACreator poll)
                 (Votes poll ++ [sha256Base64 raw]) (AOptions poll) (AWinOption poll)
                 (AStatus poll) in
  invoke (Public.CreateVote ictx (ThreadID vote) userID) l = (Ret (TxID vote), l1) ∧
  invoke (Anon2.UseAnonVote vctx) l1 =
    (Ret (), <[voteKey := VBytes "false"]> (<[ThreadID vote := VAnonThread poll']> l1)).
Proof.
  intros Hl Hs Hc Hcoll Htx Hkey Hfree Htm Hraw Hvote Hvcoll Hvuser Hopt l1 poll'.
  assert (Hne : voteKey ≠ ThreadID vote).
  { intros Heq. rewrite Heq in Hfree. by rewrite Hl in Hfree. }
  assert (Hl1 : l1 !! ThreadID vote = Some (VAnonThread poll)).
  { unfold l1. by rewrite lookup_insert_ne. }
  split.
  - rewrite <- Htx in Hkey.
    rewrite (invoke_Ret _ _ _ _
               (Public_CreateVote_run ictx l (ThreadID vote) userID _ _ collection voteKey
                  noEffects Hl eq_refl Hc Hs Hcoll Hkey Hfree)).
    by rewrite Htx.
  - by rewrite (invoke_Ret _ _ _ _
                  (Anon2_UseAnonVote_run vctx l1 tm raw vote _ poll collection userID voteKey
                     (VBytes "true") noEffects Htm Hraw Hvote Hl1 eq_refl Hs Hvcoll Hvuser
                     Hkey (lookup_insert_eq _ _ _) eq_refl Hopt)).
Qed.

(** X19: the public [EndThread] closes an anonymous poll as if it were a
    public one.  Called by the creator on an open anonymous poll it
    succeeds and stores a public poll record in its place: read back as
    an anonymous poll the record has no commitments and the status
    closed, so the votes committed before are gone and a later
    [EndAnonThread] by the creator, of either anonymous contract, is
    refused with the not-open error. *)
Theorem public_close_of_anonymous_poll (ctx rctx : Ctx) (l : Ledger) (threadID : string)
    (poll : AnonThread) (d : EndData) :
  l !! threadID = Some (VAnonThread poll) →
  submittingClientIdentity ctx = Some (ACreator poll) →
  AStatus poll = "open" →
  endDataOf rctx = Some d →
  EThreadID d = threadID →
  submittingClientIdentity rctx = Some (ACreator poll) →
  ∃ l1 winners,
    invoke (Public.EndThread ctx threadID) l = (Ret (), l1) ∧
    QueryAnonThread threadID l1 noEffects =
      (Ret (mkAnonThread (ACategory poll) (ATheme poll) (ADescription poll) (ACreator poll)
              [] (AOptions poll) winners "closed"), noEffects) ∧
    invoke (Anon.EndAnonThread rctx) l1 = (Err ErrCloseNotOpen, l1) ∧
    invoke (Anon2.EndAnonThread rctx) l1 = (Err ErrCloseNotOpen, l1).
Proof.
  intros Hl Hc Hs (tm & raw & Htm & Hraw & Hd)%endDataOf_Some <- Hrc.
  pose proof (Public_EndThread_run ctx (EThreadID d) l _ _ noEffects Hl eq_refl Hc Hs) as Hrun.
  simpl in Hrun.
  set (closed := mkThread (ACategory poll) (ATheme poll) (ADescription poll) (ACreator poll)
                   (AOptions poll) (winnerScan (rangeMap (rangeOrder ctx 0) (AOptions poll)))
                   "closed") in *.
  set (l1 := <[EThreadID d := VThread closed]> l).
  assert (Hl1 : l1 !! EThreadID d = Some (VThread closed)) by apply lookup_insert_eq.
  exists l1, (WinOption closed).
  split; [by rewrite (invoke_Ret _ _ _ _ Hrun) |].
  clearbody l1.
  unfold invoke, Anon.EndAnonThread, Anon2.EndAnonThread, QueryAnonThread,
    GetSubmittingClientIdentity, bind, GetState, orFail, ret, fail.
  rewrite Htm, Hraw, Hd, Hrc, Hl1. simpl.
  rewrite !decide_False by (intros Hne; by apply Hne).
  done.
Qed.

End commit.

Lemma commit_appends_hash_witness :
  ∃ tm raw vote v tread,
    GetTransient commitCtx = Some tm ∧ tm !! "option" = Some raw ∧
    testUnmarshalAnonVote raw = JVal vote ∧
    commitLedger !! ThreadID vote = Some v ∧ decodeAnonThread v = Some tread ∧
    AStatus tread = "open" ∧ is_Some (AOptions tread !! Option vote) ∧
    let tread' := mkAnonThread (ACategory tread) (ATheme tread) (ADescription tread)
                    (ACreator tread) (Votes tread ++ [raw])
                    (AOptions tread) (AWinOption tread) (AStatus tread) in
    let eff := (Anon.UseAnonVote (stub := testStub) commitCtx commitLedger noEffects).2 in
    (ThreadID vote, VAnonThread tread') ∈ writes eff ∧
    (∀ k w, (k, VAnonThread w) ∈ writes eff → k = ThreadID vote ∧ w = tread') ∧
    events eff = [("UseAnonVote " +:+ ThreadID vote, VAnonThread tread')].
Proof.
  apply (commit_appends_hash (stub := testStub) commitCtx commitLedger
           (Anon.UseAnonVote (stub := testStub) commitCtx commitLedger noEffects).2).
  left. vm_compute. reflexivity.
Defined.

Lemma commit_replayed_witness :
  let l1 := (invoke (Anon.UseAnonVote (stub := testStub) commitCtx) commitLedger).2 in
  ∃ raw vote poll l2,
    GetTransient commitCtx ≫= (λ tm, tm !! "option") = Some raw ∧
    testUnmarshalAnonVote raw = JVal vote ∧
    l1 !! ThreadID vote = Some (VAnonThread poll) ∧
    (∃ votes, Votes poll = votes ++ [raw]) ∧
    invoke (Anon.UseAnonVote (stub := testStub) commitCtx) l1 = (Ret (), l2) ∧
    l2 !! ThreadID vote =
      Some (VAnonThread (mkAnonThread (ACategory poll) (ATheme poll) (ADescription poll)
                           (ACreator poll) (Votes poll ++ [raw])
                           (AOptions poll) (AWinOption poll) (AStatus poll))).
Proof.
  apply (commit_replayed (stub := testStub) commitCtx commitLedger).
  vm_compute. reflexivity.
Defined.

Lemma anonymous_issue_then_commit_witness :
  let l1 := <[anonBobKey := VBytes "true"]> (votesLedger []) in
  invoke (Public.CreateVote (stub := testStub) (issueCtx "tx1") "P2" "bob") (votesLedger []) =
    (Ret "tx1", l1) ∧
  invoke (Anon2.UseAnonVote (stub := testStub) commitCtx) l1 =
    (Ret (), <[anonBobKey := VBytes "false"]>
               (<["P2" := VAnonThread (anonPollAB ["P2|tx1|A|s1"] [] [])]> l1)).
Proof.
  apply (anonymous_issue_then_commit (stub := testStub) (issueCtx "tx1") commitCtx
           (votesLedger []) (anonPollAB [] [] []) {[ "option" := "P2|tx1|A|s1" ]}
           "P2|tx1|A|s1" (mkAnonVote "P2" "tx1" "A" "s1") "_implicit_org_Org1MSP" "bob"
           anonBobKey).
  - vm_compute. reflexivity.
  - reflexivity.
  - reflexivity.
  - reflexivity.
  - reflexivity.
  - vm_compute. reflexivity.
  - vm_compute. reflexivity.
  - reflexivity.
  - vm_compute. reflexivity.
  - vm_compute. reflexivity.
  - reflexivity.
  - reflexivity.
  - vm_compute. eexists. reflexivity.
Defined.

Lemma public_close_of_anonymous_poll_witness :
  ∃ l1 winners,
    invoke (Public.EndThread (aliceCtx orderAB) "P2") tiedLedger = (Ret (), l1) ∧
    QueryAnonThread "P2" l1 noEffects =
      (Ret (mkAnonThread "category" "theme" "description" "alice" []
              {[ "A" := []; "B" := [] ]} winners "closed"), noEffects) ∧
    invoke (Anon.EndAnonThread (stub := testStub) (revealCtx orderAB)) l1
      = (Err ErrCloseNotOpen, l1) ∧
    invoke (Anon2.EndAnonThread (stub := testStub) (revealCtx orderAB)) l1
      = (Err ErrCloseNotOpen, l1).
Proof.
  apply (public_close_of_anonymous_poll (stub := testStub) (aliceCtx orderAB)
           (revealCtx orderAB) tiedLedger "P2" (anonPollAB ["P2|tx1|A|s1"] [] [])
           (mkEndData "P2" ["s1"] ["tx1"])).
  - vm_compute. reflexivity.
  - reflexivity.
  - reflexivity.
  - vm_compute. reflexivity.
  - reflexivity.
  - reflexivity.
Defined.

(** ** Issuing and redeeming a voucher *)

Section voucher.
Context {stub : Stub}.

(** X20: a voucher issued to a voter is redeemable by that voter.  In
    the voucher-index contract the creator issues a voucher to [userID]
    on a poll that has its index: the token is written under the
    composite key and the index gets the transaction identifier with the
    flag unset, whatever it held for it before.  Once that transaction
    is committed, [UseVote] with that identifier by a caller of the same
    organization enrolled as [userID] succeeds for any option of the
    open poll: it appends [userID] to the option and sets the flag in
    the index, and the token itself is left as it was. *)
Theorem voucher_issue_then_redeem (ictx vctx : Ctx) (l : Ledger)
    (threadID userID option : string) (thread : Thread) (m : gmap string bool)
    (votes : list string) (collection voteKey : string) :
  l !! threadID = Some (VThread thread) →
  l !! (threadID +:+ "_votes") = Some (VIssued m) →
  Status thread = "open" →
  submittingClientIdentity ictx = Some (Creator thread) →
  collectionName ictx = Some collection →
  CreateCompositeKey voteKeyType [threadID; GetTxID ictx; collection; userID] = Some voteKey →
  voteKey ≠ threadID →
  voteKey ≠ threadID +:+ "_votes" →
  collectionName vctx = Some collection →
  enrollmentID vctx = Some userID →
  Options thread !! option = Some votes →
  let txID := GetTxID ictx in
  let l1 := <[threadID +:+ "_votes" := VIssued (<[txID := false]> m)]>
              (<[voteKey := VBytes "vote"]> l) in
  let thread' := mkThread (Category thread) (Theme thread) (Description thread)
                   (Creator thread) (<[option := votes ++ [userID]]> (Options thread))
                   (WinOption thread) (Status thread) in
  let l2 := <[threadID +:+ "_votes" := VIssued (<[txID := true]> (<[txID := false]> m))]>
              (<[threadID := VThread thread']> l1) in
  invoke (Voucher.CreateVote ictx threadID userID) l = (Ret txID, l1) ∧
  invoke (Voucher.UseVote vctx threadID txID option) l1 = (Ret (), l2) ∧
  l2 !! voteKey = Some (VBytes "vote").
Proof.
  intros Hl Hidx Hs Hc Hcoll Hkey Hne1 Hne2 Hvcoll Hvuser Hopt txID l1 thread' l2.
  subst txID.
  pose proof (votes_key_ne threadID) as Hne3.
  assert (Hl1 : l1 !! threadID = Some (VThread thread)).
  { unfold l1. rewrite lookup_insert_ne by done. by rewrite lookup_insert_ne. }
  assert (Hidx1 : l1 !! (threadID +:+ "_votes")
                  = Some (VIssued (<[GetTxID ictx := false]> m))).
  { unfold l1. by rewrite lookup_insert_eq. }
  assert (Htok1 : l1 !! voteKey = Some (VBytes "vote")).
  { unfold l1. rewrite lookup_insert_ne by done. by rewrite lookup_insert_eq. }
  split; [| split].
  - unfold invoke, Voucher.CreateVote, QueryThread, GetSubmittingClientIdentity,
      getCollectionName, bind, GetState, orFail, ret, fail, PutState.
    rewrite Hc, Hl. simpl. rewrite decide_False by (intros Hne; by apply Hne).
    rewrite Hcoll. simpl. rewrite Hkey. simpl. rewrite Hidx. simpl. reflexivity.
  - clearbody l1.
    unfold invoke, Voucher.UseVote, QueryThread, getCollectionName, bind, GetState, orFail,
      ret, fail, PutState, SetEvent.
    rewrite Hl1. simpl. rewrite decide_False by (intros Hn; by apply Hn).
    rewrite Hidx1. simpl. unfold lookupVote. simpl. rewrite lookup_insert_eq.
    rewrite Hvcoll, Hvuser. simpl. rewrite Hkey. simpl. rewrite Htok1.
    unfold contains. rewrite bool_decide_eq_true_2 by (by rewrite Hopt). simpl.
    unfold commit. simpl. by rewrite (lookup_total_correct _ _ _ Hopt).
  - unfold l2. rewrite lookup_insert_ne by done. by rewrite lookup_insert_ne.
Qed.

End voucher.

Lemma voucher_issue_then_redeem_witness :
  let l1 := <["P1_votes" := VIssued (<["tx1" := false]> ∅)]>
              (<[bobKey1 := VBytes "vote"]> indexLedger) in
  let l2 := <["P1_votes" := VIssued (<["tx1" := true]> (<["tx1" := false]> ∅))]>
              (<["P1" := VThread (pollAB ["bob"] [])]> l1) in
  invoke (Voucher.CreateVote (stub := testStub) (issueCtx "tx1") "P1" "bob") indexLedger
    = (Ret "tx1", l1) ∧
  invoke (Voucher.UseVote (stub := testStub) bobCtx "P1" "tx1" "A") l1 = (Ret (), l2) ∧
  l2 !! bobKey1 = Some (VBytes "vote").
Proof.
  apply (voucher_issue_then_redeem (stub := testStub) (issueCtx "tx1") bobCtx indexLedger
           "P1" "bob" "A" (pollAB [] []) ∅ [] "_implicit_org_Org1MSP" bobKey1).
  - vm_compute. reflexivity.
  - vm_compute. reflexivity.
  - reflexivity.
  - reflexivity.
  - reflexivity.
  - vm_compute. reflexivity.
  - discriminate.
  - discriminate.
  - reflexivity.
  - reflexivity.
  - vm_compute. reflexivity.
Defined.
